(** * Supply-chain network visualisation: projection, connector geometry,
      hit-testing and selection state

    A shallow embedding of the two React components that draw the network,
    and the properties of their projection and interaction code.

    - [Advanced] embeds [AdvancedNetworkTopology] together with the canvas
      component it mounts, [NetworkCanvasRenderer].
    - [Basic] embeds [NetworkTopologyVisualization], the variant with node
      dragging.
    - [Controls], [Renderer], [Indicator] and [Metrics] embed the zoom
      slider of [NetworkVisualizationControls], the grid and the colour
      helper of the renderer, the capacity indicator of
      [NetworkTopologyVisualization] and the metrics of the panel.

    Numbers.  A JavaScript [number] is modelled by [JSNum.num]: an exact real
    number, [+Infinity], [-Infinity] or [NaN], with the arithmetic rules of
    the language for the three special values (0/0 and Infinity - Infinity are
    [NaN], every comparison with [NaN] is false, and so on).  Rounding to
    binary64, overflow of finite operands and the sign of zero are not
    modelled: on finite operands the operations are the exact ones.  The
    integers of the bit operators and of [parseInt] are values of [JSInt.t].

    Randomness.  [Math.random()] reads the next value of a stream given as a
    parameter; the position in the stream is threaded through the code by the
    state monad [Rand].

    React.  A component is a record of its [useState] cells.  An event handler
    is a function on that record; the effects of the component are functions
    on it too, and [Advanced.step] / [Basic.step] run, after a handler, the
    effects whose dependency list changed. *)

From Stdlib Require Import Reals Lra List String Bool Arith Lia.
From Stdlib Require ZArith Ascii.
Import ListNotations.

Set Implicit Arguments.

(* ================================================================== *)
(** * JavaScript numbers *)

Module JSNum.

Local Open Scope R_scope.

Inductive num : Type :=
| Fin (r : R)
| PInf
| NInf
| NaN.

(** Decisions on real numbers, as booleans. *)
Definition Rzerob (x : R) : bool := if Req_EM_T x 0 then true else false.
Definition Rposb (x : R) : bool := if Rlt_dec 0 x then true else false.
Definition Rnegb (x : R) : bool := if Rlt_dec x 0 then true else false.
Definition Rleb (x y : R) : bool := if Rle_dec x y then true else false.
Definition Rltb (x y : R) : bool := if Rlt_dec x y then true else false.
Definition Reqb (x y : R) : bool := if Req_EM_T x y then true else false.

(** The infinity of the given sign. *)
Definition inf (positive : bool) : num := if positive then PInf else NInf.

(** [isNaN(a)] and [isFinite(a)]. *)
Definition isNaN (a : num) : bool :=
  match a with NaN => true | _ => false end.

Definition isFinite (a : num) : bool :=
  match a with Fin _ => true | _ => false end.

(** [a + b] *)
Definition nadd (a b : num) : num :=
  match a, b with
  | NaN, _ | _, NaN => NaN
  | Fin x, Fin y => Fin (x + y)
  | PInf, NInf | NInf, PInf => NaN
  | PInf, _ | _, PInf => PInf
  | NInf, _ | _, NInf => NInf
  end.

(** [a - b] *)
Definition nsub (a b : num) : num :=
  match a, b with
  | NaN, _ | _, NaN => NaN
  | Fin x, Fin y => Fin (x - y)
  | PInf, PInf | NInf, NInf => NaN
  | PInf, _ | _, NInf => PInf
  | NInf, _ | _, PInf => NInf
  end.

(** [a * b] *)
Definition nmul (a b : num) : num :=
  match a, b with
  | NaN, _ | _, NaN => NaN
  | Fin x, Fin y => Fin (x * y)
  | Fin x, PInf | PInf, Fin x => if Rzerob x then NaN else inf (Rposb x)
  | Fin x, NInf | NInf, Fin x => if Rzerob x then NaN else inf (Rnegb x)
  | PInf, PInf | NInf, NInf => PInf
  | PInf, NInf | NInf, PInf => NInf
  end.

(** [a / b].  A zero divisor stands for [+0]. *)
Definition ndiv (a b : num) : num :=
  match a, b with
  | NaN, _ | _, NaN => NaN
  | Fin x, Fin y =>
      if Rzerob y then (if Rzerob x then NaN else inf (Rposb x))
      else Fin (x / y)
  | Fin _, PInf | Fin _, NInf => Fin 0
  | PInf, Fin y => inf (negb (Rnegb y))
  | NInf, Fin y => inf (Rnegb y)
  | _, _ => NaN
  end.

(** [Math.sqrt(a)] *)
Definition Math_sqrt (a : num) : num :=
  match a with
  | Fin x => if Rnegb x then NaN else Fin (sqrt x)
  | PInf => PInf
  | NInf => NaN
  | NaN => NaN
  end.

(** [a <= b] *)
Definition nle (a b : num) : bool :=
  match a, b with
  | NaN, _ | _, NaN => false
  | Fin x, Fin y => Rleb x y
  | NInf, _ | _, PInf => true
  | _, _ => false
  end.

(** [a < b] *)
Definition nlt (a b : num) : bool :=
  match a, b with
  | NaN, _ | _, NaN => false
  | Fin x, Fin y => Rltb x y
  | PInf, _ | _, NInf => false
  | _, _ => true
  end.

(** [a === b] on numbers. *)
Definition neq (a b : num) : bool :=
  match a, b with
  | Fin x, Fin y => Reqb x y
  | PInf, PInf | NInf, NInf => true
  | _, _ => false
  end.

(** [Math.min(...l)] and [Math.max(...l)]: the result is [NaN] as soon as one
    argument is, and [+Infinity] (resp. [-Infinity]) for no argument. *)
Definition min2 (a b : num) : num :=
  match a, b with
  | NaN, _ | _, NaN => NaN
  | _, _ => if nlt b a then b else a
  end.

Definition max2 (a b : num) : num :=
  match a, b with
  | NaN, _ | _, NaN => NaN
  | _, _ => if nlt a b then b else a
  end.

Definition Math_min (l : list num) : num := fold_left min2 l PInf.
Definition Math_max (l : list num) : num := fold_left max2 l NInf.

End JSNum.

Export JSNum.

Declare Scope js_scope.
Delimit Scope js_scope with js.
Bind Scope js_scope with num.
Infix "+" := nadd : js_scope.
Infix "-" := nsub : js_scope.
Infix "*" := nmul : js_scope.
Infix "/" := ndiv : js_scope.
Infix "<=?" := nle : js_scope.
Infix "===" := neq (at level 70, no associativity) : js_scope.

Coercion Fin : R >-> num.

(* ================================================================== *)
(** * [Math.random()] *)

(** A computation that may call [Math.random()]: it maps the number of calls
    made so far to its result and the number of calls made after it. *)
Definition Rand (A : Type) : Type := nat -> A * nat.

Definition ret {A : Type} (a : A) : Rand A := fun k => (a, k).

Definition bind {A B : Type} (m : Rand A) (f : A -> Rand B) : Rand B :=
  fun k => let (a, k') := m k in f a k'.

Notation "x <- m ;; f" := (bind m (fun x => f))
  (at level 61, m at next level, right associativity).

(** [Math.random()] over the stream [src]. *)
Definition Math_random (src : nat -> R) : Rand num :=
  fun k => (Fin (src k), S k).

(** [l.map(f)] for a callback that may call [Math.random()]: the elements are
    visited from left to right. *)
Fixpoint mapM {A B : Type} (f : A -> Rand B) (l : list A) : Rand (list B) :=
  match l with
  | [] => ret []
  | a :: l' => b <- f a ;; bs <- mapM f l' ;; ret (b :: bs)
  end.

(** [l.filter(Boolean)] on a list whose elements are objects or [null]. *)
Fixpoint filterBoolean {A : Type} (l : list (option A)) : list A :=
  match l with
  | [] => []
  | Some a :: l' => a :: filterBoolean l'
  | None :: l' => filterBoolean l'
  end.

(** [a === b] where [a] is a string and [b] a string or [null]. *)
Definition eqNullable (a : string) (b : option string) : bool :=
  match b with
  | Some s => String.eqb a s
  | None => false
  end.

(** [a === b] on two values that are each a string or [null]. *)
Definition eqOptString (a b : option string) : bool :=
  match a, b with
  | Some s, Some t => String.eqb s t
  | None, None => true
  | _, _ => false
  end.

(* ================================================================== *)
(** * The input records (the [nodes] and [routes] props of both components) *)

Module Input.

Module NetworkNode.
Record t : Type := {
  id : string;
  name : string;
  type : string;
  lat : num;
  lng : num;
  capacity : option num;
  production : option num;
  district : option string
}.
End NetworkNode.

Module NetworkRoute.
Record t : Type := {
  id : string;
  from_id : string;
  to_id : string;
  distance_km : num;
  cost_per_trip : num;
  vehicle_type : string
}.
End NetworkRoute.

End Input.

(** A point, [{ x, y }]. *)
Record Point : Type := { px : num; py : num }.

(** A mouse event on the canvas: the position of the pointer, and the
    canvas the ref points to, as the left and top of its bounding rectangle
    ([None] while the ref is [null]). *)
Record MouseEvent : Type := {
  clientX : num;
  clientY : num;
  canvasRect : option Point
}.

(** An entry of [nodeTypeConfig]: the colour and the size of a node type
    (the glyph of the entry, which is only drawn, is left out). *)
Module Config.
Record t : Type := { color : string; size : num }.
End Config.

(** The calls made on the 2D drawing context that carry the geometry of a
    route (style assignments are left out). *)
Inductive CanvasCall : Type :=
| CreateLinearGradient (x0 y0 x1 y1 : num)
| BeginPath
| MoveTo (x y : num)
| LineTo (x y : num)
| Stroke.

Local Open Scope R_scope.
Local Open Scope string_scope.
Local Open Scope js_scope.

(* ================================================================== *)
(** * [AdvancedNetworkTopology] and [NetworkCanvasRenderer] *)

Module Advanced.

Module CanvasNode.
Record t : Type := {
  id : string;
  name : string;
  x : num;
  y : num;
  radius : num;
  color : string;
  type : string;
  isSelected : bool;
  isHovered : bool
}.
End CanvasNode.

Module CanvasRoute.
Record t : Type := {
  id : string;
  fromX : num;
  fromY : num;
  toX : num;
  toY : num;
  isHighlighted : bool;
  color : string;
  width : num;
  distance : num;
  cost : num;
  vehicleType : string
}.
End CanvasRoute.

(** The [useState] cells of the component. *)
Record State : Type := {
  canvasNodes : list CanvasNode.t;
  canvasRoutes : list CanvasRoute.t;
  selectedNodeId : option string;
  selectedRouteId : option string;
  hoveredNodeId : option string;
  zoom : num;
  pan : Point;
  showLabels : bool;
  showGrid : bool;
  showRoutes : bool
}.

(** The setters of the cells. *)
Definition setCanvasNodes (v : list CanvasNode.t) (st : State) : State :=
  {| canvasNodes := v; canvasRoutes := canvasRoutes st;
     selectedNodeId := selectedNodeId st; selectedRouteId := selectedRouteId st;
     hoveredNodeId := hoveredNodeId st; zoom := zoom st; pan := pan st;
     showLabels := showLabels st; showGrid := showGrid st;
     showRoutes := showRoutes st |}.

Definition setCanvasRoutes (v : list CanvasRoute.t) (st : State) : State :=
  {| canvasNodes := canvasNodes st; canvasRoutes := v;
     selectedNodeId := selectedNodeId st; selectedRouteId := selectedRouteId st;
     hoveredNodeId := hoveredNodeId st; zoom := zoom st; pan := pan st;
     showLabels := showLabels st; showGrid := showGrid st;
     showRoutes := showRoutes st |}.

Definition setSelectedNodeId (v : option string) (st : State) : State :=
  {| canvasNodes := canvasNodes st; canvasRoutes := canvasRoutes st;
     selectedNodeId := v; selectedRouteId := selectedRouteId st;
     hoveredNodeId := hoveredNodeId st; zoom := zoom st; pan := pan st;
     showLabels := showLabels st; showGrid := showGrid st;
     showRoutes := showRoutes st |}.

Definition setSelectedRouteId (v : option string) (st : State) : State :=
  {| canvasNodes := canvasNodes st; canvasRoutes := canvasRoutes st;
     selectedNodeId := selectedNodeId st; selectedRouteId := v;
     hoveredNodeId := hoveredNodeId st; zoom := zoom st; pan := pan st;
     showLabels := showLabels st; showGrid := showGrid st;
     showRoutes := showRoutes st |}.

Definition setHoveredNodeId (v : option string) (st : State) : State :=
  {| canvasNodes := canvasNodes st; canvasRoutes := canvasRoutes st;
     selectedNodeId := selectedNodeId st; selectedRouteId := selectedRouteId st;
     hoveredNodeId := v; zoom := zoom st; pan := pan st;
     showLabels := showLabels st; showGrid := showGrid st;
     showRoutes := showRoutes st |}.

Definition setZoom (v : num) (st : State) : State :=
  {| canvasNodes := canvasNodes st; canvasRoutes := canvasRoutes st;
     selectedNodeId := selectedNodeId st; selectedRouteId := selectedRouteId st;
     hoveredNodeId := hoveredNodeId st; zoom := v; pan := pan st;
     showLabels := showLabels st; showGrid := showGrid st;
     showRoutes := showRoutes st |}.

Definition setPan (v : Point) (st : State) : State :=
  {| canvasNodes := canvasNodes st; canvasRoutes := canvasRoutes st;
     selectedNodeId := selectedNodeId st; selectedRouteId := selectedRouteId st;
     hoveredNodeId := hoveredNodeId st; zoom := zoom st; pan := v;
     showLabels := showLabels st; showGrid := showGrid st;
     showRoutes := showRoutes st |}.

Definition setShowLabels (v : bool) (st : State) : State :=
  {| canvasNodes := canvasNodes st; canvasRoutes := canvasRoutes st;
     selectedNodeId := selectedNodeId st; selectedRouteId := selectedRouteId st;
     hoveredNodeId := hoveredNodeId st; zoom := zoom st; pan := pan st;
     showLabels := v; showGrid := showGrid st; showRoutes := showRoutes st |}.

Definition setShowGrid (v : bool) (st : State) : State :=
  {| canvasNodes := canvasNodes st; canvasRoutes := canvasRoutes st;
     selectedNodeId := selectedNodeId st; selectedRouteId := selectedRouteId st;
     hoveredNodeId := hoveredNodeId st; zoom := zoom st; pan := pan st;
     showLabels := showLabels st; showGrid := v; showRoutes := showRoutes st |}.

Definition setShowRoutes (v : bool) (st : State) : State :=
  {| canvasNodes := canvasNodes st; canvasRoutes := canvasRoutes st;
     selectedNodeId := selectedNodeId st; selectedRouteId := selectedRouteId st;
     hoveredNodeId := hoveredNodeId st; zoom := zoom st; pan := pan st;
     showLabels := showLabels st; showGrid := showGrid st; showRoutes := v |}.

(** The initial values given to [useState]. *)
Definition initialState : State :=
  {| canvasNodes := []; canvasRoutes := [];
     selectedNodeId := None; selectedRouteId := None; hoveredNodeId := None;
     zoom := Fin 1; pan := {| px := Fin 0; py := Fin 0 |};
     showLabels := true; showGrid := true; showRoutes := true |}.

Definition canvasWidth : num := Fin 800.
Definition canvasHeight : num := Fin 600.

(** [padding], a constant of the initialisation effect. *)
Definition padding : num := Fin 60.

(** [nodeTypeConfig[key]]: the entry of an own key of the table, if any.
    (The keys an object literal inherits, such as [constructor], are not
    modelled; no node type of the application is one.) *)
Definition nodeTypeConfig (key : string) : option Config.t :=
  if String.eqb key "farm" then
    Some {| Config.color := "#10B981"; Config.size := Fin 25 |}
  else if String.eqb key "collection_center" then
    Some {| Config.color := "#3B82F6"; Config.size := Fin 30 |}
  else if String.eqb key "processing_plant" then
    Some {| Config.color := "#8B5CF6"; Config.size := Fin 35 |}
  else if String.eqb key "distributor" then
    Some {| Config.color := "#F59E0B"; Config.size := Fin 30 |}
  else if String.eqb key "retail" then
    Some {| Config.color := "#EF4444"; Config.size := Fin 25 |}
  else if String.eqb key "default" then
    Some {| Config.color := "#6B7280"; Config.size := Fin 25 |}
  else None.

(** [nodeTypeConfig[type] || nodeTypeConfig.default] *)
Definition configOf (type : string) : Config.t :=
  match nodeTypeConfig type with
  | Some c => c
  | None => {| Config.color := "#6B7280"; Config.size := Fin 25 |}
  end.

(** ** The initialisation effect, [useEffect(..., [inputNodes, inputRoutes])] *)

(** The callback of [inputNodes.map]: one input node to its canvas node. *)
Definition newCanvasNode (src : nat -> R) (minLat maxLat minLng maxLng : num)
    (node : Input.NetworkNode.t) : Rand CanvasNode.t :=
  let config := configOf (Input.NetworkNode.type node) in
  xy <- (if (maxLng === minLng) || (maxLat === minLat) then
           r1 <- Math_random src ;;
           r2 <- Math_random src ;;
           ret (canvasWidth / Fin 2 + (r1 - Fin 0.5) * Fin 200,
                canvasHeight / Fin 2 + (r2 - Fin 0.5) * Fin 200)
         else
           ret (padding
                + ((Input.NetworkNode.lng node - minLng) / (maxLng - minLng))
                  * (canvasWidth - Fin 2 * padding),
                padding
                + ((maxLat - Input.NetworkNode.lat node) / (maxLat - minLat))
                  * (canvasHeight - Fin 2 * padding))) ;;
  x' <- (if isNaN (fst xy) then
           r <- Math_random src ;;
           ret (r * (canvasWidth - Fin 2 * padding) + padding)
         else ret (fst xy)) ;;
  y' <- (if isNaN (snd xy) then
           r <- Math_random src ;;
           ret (r * (canvasHeight - Fin 2 * padding) + padding)
         else ret (snd xy)) ;;
  ret {| CanvasNode.id := Input.NetworkNode.id node;
         CanvasNode.name := Input.NetworkNode.name node;
         CanvasNode.x := x';
         CanvasNode.y := y';
         CanvasNode.radius := Config.size config;
         CanvasNode.color := Config.color config;
         CanvasNode.type := Input.NetworkNode.type node;
         CanvasNode.isSelected := false;
         CanvasNode.isHovered := false |}.

Definition newCanvasNodes (src : nat -> R) (inputNodes : list Input.NetworkNode.t)
    : Rand (list CanvasNode.t) :=
  let latitudes := map Input.NetworkNode.lat inputNodes in
  let longitudes := map Input.NetworkNode.lng inputNodes in
  let minLat := Math_min latitudes in
  let maxLat := Math_max latitudes in
  let minLng := Math_min longitudes in
  let maxLng := Math_max longitudes in
  mapM (newCanvasNode src minLat maxLat minLng maxLng) inputNodes.

(** The callback of [inputRoutes.map]: [None] is the [null] it returns. *)
Definition newCanvasRoute (nodes : list CanvasNode.t) (route : Input.NetworkRoute.t)
    : option CanvasRoute.t :=
  match find (fun n => String.eqb (CanvasNode.id n) (Input.NetworkRoute.from_id route)) nodes,
        find (fun n => String.eqb (CanvasNode.id n) (Input.NetworkRoute.to_id route)) nodes with
  | Some fromNode, Some toNode =>
      let dx := CanvasNode.x toNode - CanvasNode.x fromNode in
      let dy := CanvasNode.y toNode - CanvasNode.y fromNode in
      let distance := Math_sqrt (dx * dx + dy * dy) in
      let fromX := CanvasNode.x fromNode + (dx / distance) * CanvasNode.radius fromNode in
      let fromY := CanvasNode.y fromNode + (dy / distance) * CanvasNode.radius fromNode in
      let toX := CanvasNode.x toNode - (dx / distance) * CanvasNode.radius toNode in
      let toY := CanvasNode.y toNode - (dy / distance) * CanvasNode.radius toNode in
      Some {| CanvasRoute.id := Input.NetworkRoute.id route;
              CanvasRoute.fromX := fromX;
              CanvasRoute.fromY := fromY;
              CanvasRoute.toX := toX;
              CanvasRoute.toY := toY;
              CanvasRoute.isHighlighted := false;
              CanvasRoute.color := "#94A3B8";
              CanvasRoute.width := Fin 2;
              CanvasRoute.distance := Input.NetworkRoute.distance_km route;
              CanvasRoute.cost := Input.NetworkRoute.cost_per_trip route;
              CanvasRoute.vehicleType := Input.NetworkRoute.vehicle_type route |}
  | _, _ => None
  end.

Definition newCanvasRoutes (nodes : list CanvasNode.t)
    (inputRoutes : list Input.NetworkRoute.t) : list CanvasRoute.t :=
  filterBoolean (map (newCanvasRoute nodes) inputRoutes).

(** The effect: nothing is set for an empty node list. *)
Definition initEffect (src : nat -> R) (inputNodes : list Input.NetworkNode.t)
    (inputRoutes : list Input.NetworkRoute.t) (st : State) : Rand State :=
  if Nat.eqb (List.length inputNodes) 0 then ret st
  else
    nodes <- newCanvasNodes src inputNodes ;;
    ret (setCanvasRoutes (newCanvasRoutes nodes inputRoutes)
           (setCanvasNodes nodes st)).

(** ** The two effects that write the flags *)

(** [useEffect(..., [selectedNodeId, hoveredNodeId])] *)
Definition updateNodeSelection (st : State) : State :=
  setCanvasNodes
    (map (fun node =>
            {| CanvasNode.id := CanvasNode.id node;
               CanvasNode.name := CanvasNode.name node;
               CanvasNode.x := CanvasNode.x node;
               CanvasNode.y := CanvasNode.y node;
               CanvasNode.radius := CanvasNode.radius node;
               CanvasNode.color := CanvasNode.color node;
               CanvasNode.type := CanvasNode.type node;
               CanvasNode.isSelected :=
                 eqNullable (CanvasNode.id node) (selectedNodeId st);
               CanvasNode.isHovered :=
                 eqNullable (CanvasNode.id node) (hoveredNodeId st) |})
       (canvasNodes st))
    st.

(** [useEffect(..., [selectedRouteId])] *)
Definition updateRouteHighlight (st : State) : State :=
  setCanvasRoutes
    (map (fun route =>
            {| CanvasRoute.id := CanvasRoute.id route;
               CanvasRoute.fromX := CanvasRoute.fromX route;
               CanvasRoute.fromY := CanvasRoute.fromY route;
               CanvasRoute.toX := CanvasRoute.toX route;
               CanvasRoute.toY := CanvasRoute.toY route;
               CanvasRoute.isHighlighted :=
                 eqNullable (CanvasRoute.id route) (selectedRouteId st);
               CanvasRoute.color := CanvasRoute.color route;
               CanvasRoute.width := CanvasRoute.width route;
               CanvasRoute.distance := CanvasRoute.distance route;
               CanvasRoute.cost := CanvasRoute.cost route;
               CanvasRoute.vehicleType := CanvasRoute.vehicleType route |})
       (canvasRoutes st))
    st.

(** ** Event handlers of the component *)

Definition handleNodeClick (nodeId : string) (st : State) : State :=
  setSelectedRouteId None
    (setSelectedNodeId
       (if eqNullable nodeId (selectedNodeId st) then None else Some nodeId) st).

Definition handleNodeHover (nodeId : option string) (st : State) : State :=
  setHoveredNodeId nodeId st.

Definition handleCanvasClick (x y : num) (st : State) : State :=
  setSelectedRouteId None (setSelectedNodeId None st).

Definition handleRouteSelect (routeId : string) (st : State) : State :=
  setSelectedNodeId None
    (setSelectedRouteId
       (if eqNullable routeId (selectedRouteId st) then None else Some routeId) st).

Definition handleZoomIn (st : State) : State :=
  setZoom (Math_min [zoom st * Fin 1.2; Fin 3]) st.

Definition handleZoomOut (st : State) : State :=
  setZoom (Math_max [zoom st / Fin 1.2; Fin 0.3]) st.

Definition handleReset (st : State) : State :=
  setHoveredNodeId None
    (setSelectedRouteId None
       (setSelectedNodeId None
          (setPan {| px := Fin 0; py := Fin 0 |} (setZoom (Fin 1) st)))).

(** ** Mouse handlers of [NetworkCanvasRenderer]

    The renderer receives [canvasNodes], [zoom] and [pan] as props, and the
    three handlers above as [onNodeClick], [onNodeHover] and
    [onCanvasClick]. *)

(** The callback of [nodes.find] in both mouse handlers. *)
Definition hit (x y : num) (node : CanvasNode.t) : bool :=
  let dx := x - CanvasNode.x node in
  let dy := y - CanvasNode.y node in
  Math_sqrt (dx * dx + dy * dy) <=? CanvasNode.radius node.

(** The pointer position the handlers compute from the event. *)
Definition pointerX (e : MouseEvent) (rect : Point) (st : State) : num :=
  (clientX e - px rect - px (pan st)) / zoom st.

Definition pointerY (e : MouseEvent) (rect : Point) (st : State) : num :=
  (clientY e - py rect - py (pan st)) / zoom st.

Definition handleMouseMove (e : MouseEvent) (st : State) : State :=
  match canvasRect e with
  | None => st
  | Some rect =>
      let x := pointerX e rect st in
      let y := pointerY e rect st in
      match find (hit x y) (canvasNodes st) with
      | Some hoveredNode => handleNodeHover (Some (CanvasNode.id hoveredNode)) st
      | None => handleNodeHover None st
      end
  end.

Definition handleClick (e : MouseEvent) (st : State) : State :=
  match canvasRect e with
  | None => st
  | Some rect =>
      let x := pointerX e rect st in
      let y := pointerY e rect st in
      match find (hit x y) (canvasNodes st) with
      | Some clickedNode => handleNodeClick (CanvasNode.id clickedNode) st
      | None => handleCanvasClick x y st
      end
  end.

(** The geometry calls of the renderer's [drawRoute], from the gradient to
    the stroke of the line.  (The arrow head that follows for a highlighted
    route is left out.) *)
Definition drawRoute (route : CanvasRoute.t) : list CanvasCall :=
  [ CreateLinearGradient (CanvasRoute.fromX route) (CanvasRoute.fromY route)
      (CanvasRoute.toX route) (CanvasRoute.toY route);
    BeginPath;
    MoveTo (CanvasRoute.fromX route) (CanvasRoute.fromY route);
    LineTo (CanvasRoute.toX route) (CanvasRoute.toY route);
    Stroke ].

(** ** The component as a transition system *)

Inductive Event : Type :=
| EvClick (e : MouseEvent)
| EvMouseMove (e : MouseEvent)
| EvRouteSelect (routeId : string)
| EvZoomIn
| EvZoomOut
| EvZoomChange (z : num)
| EvReset
| EvShowLabels (b : bool)
| EvShowGrid (b : bool)
| EvShowRoutes (b : bool)
| EvProps (inputNodes : list Input.NetworkNode.t)
          (inputRoutes : list Input.NetworkRoute.t).

(** The handler of an event that is not a change of props. *)
Definition handle (ev : Event) (st : State) : State :=
  match ev with
  | EvClick e => handleClick e st
  | EvMouseMove e => handleMouseMove e st
  | EvRouteSelect routeId => handleRouteSelect routeId st
  | EvZoomIn => handleZoomIn st
  | EvZoomOut => handleZoomOut st
  | EvZoomChange z => setZoom z st
  | EvReset => handleReset st
  | EvShowLabels b => setShowLabels b st
  | EvShowGrid b => setShowGrid b st
  | EvShowRoutes b => setShowRoutes b st
  | EvProps _ _ => st
  end.

(** The flag effects run after a render in which one of their dependencies
    changed. *)
Definition runEffects (old new : State) : State :=
  let s1 :=
    if eqOptString (selectedNodeId old) (selectedNodeId new)
       && eqOptString (hoveredNodeId old) (hoveredNodeId new)
    then new else updateNodeSelection new in
  if eqOptString (selectedRouteId old) (selectedRouteId new)
  then s1 else updateRouteHighlight s1.

(** One event: its handler, then the effects it triggers.  New props
    trigger the initialisation effect alone. *)
Definition step (src : nat -> R) (ev : Event) (st : State) : Rand State :=
  match ev with
  | EvProps inputNodes inputRoutes => initEffect src inputNodes inputRoutes st
  | _ => ret (runEffects st (handle ev st))
  end.

(** Mounting runs every effect once, in the order of the source. *)
Definition mount (src : nat -> R) (inputNodes : list Input.NetworkNode.t)
    (inputRoutes : list Input.NetworkRoute.t) : Rand State :=
  st <- initEffect src inputNodes inputRoutes initialState ;;
  ret (updateRouteHighlight (updateNodeSelection st)).

Fixpoint run (src : nat -> R) (evs : list Event) (st : State) : Rand State :=
  match evs with
  | [] => ret st
  | ev :: evs' => st' <- step src ev st ;; run src evs' st'
  end.

End Advanced.

(* ================================================================== *)
(** * [NetworkTopologyVisualization] *)

Module Basic.

Module NetworkNode.
Record t : Type := {
  id : string;
  name : string;
  type : string;
  x : num;
  y : num;
  radius : num;
  color : string;
  isSelected : bool;
  isDragging : bool;
  capacity : option num;
  production : option num;
  district : option string
}.
End NetworkNode.

Module NetworkRoute.
Record t : Type := {
  id : string;
  fromNodeId : string;
  toNodeId : string;
  distance : num;
  cost : num;
  vehicleType : string;
  isActive : bool;
  isHighlighted : bool
}.
End NetworkRoute.

(** The [useState] cells of the component. *)
Record State : Type := {
  nodes : list NetworkNode.t;
  routes : list NetworkRoute.t;
  selectedNode : option NetworkNode.t;
  selectedRoute : option NetworkRoute.t;
  isDragging : bool;
  dragOffset : Point;
  zoom : num;
  pan : Point;
  showLabels : bool;
  showRoutes : bool
}.

Definition setNodes (v : list NetworkNode.t) (st : State) : State :=
  {| nodes := v; routes := routes st; selectedNode := selectedNode st;
     selectedRoute := selectedRoute st; isDragging := isDragging st;
     dragOffset := dragOffset st; zoom := zoom st; pan := pan st;
     showLabels := showLabels st; showRoutes := showRoutes st |}.

Definition setRoutes (v : list NetworkRoute.t) (st : State) : State :=
  {| nodes := nodes st; routes := v; selectedNode := selectedNode st;
     selectedRoute := selectedRoute st; isDragging := isDragging st;
     dragOffset := dragOffset st; zoom := zoom st; pan := pan st;
     showLabels := showLabels st; showRoutes := showRoutes st |}.

Definition setSelectedNode (v : option NetworkNode.t) (st : State) : State :=
  {| nodes := nodes st; routes := routes st; selectedNode := v;
     selectedRoute := selectedRoute st; isDragging := isDragging st;
     dragOffset := dragOffset st; zoom := zoom st; pan := pan st;
     showLabels := showLabels st; showRoutes := showRoutes st |}.

Definition setSelectedRoute (v : option NetworkRoute.t) (st : State) : State :=
  {| nodes := nodes st; routes := routes st; selectedNode := selectedNode st;
     selectedRoute := v; isDragging := isDragging st;
     dragOffset := dragOffset st; zoom := zoom st; pan := pan st;
     showLabels := showLabels st; showRoutes := showRoutes st |}.

Definition setIsDragging (v : bool) (st : State) : State :=
  {| nodes := nodes st; routes := routes st; selectedNode := selectedNode st;
     selectedRoute := selectedRoute st; isDragging := v;
     dragOffset := dragOffset st; zoom := zoom st; pan := pan st;
     showLabels := showLabels st; showRoutes := showRoutes st |}.

Definition setDragOffset (v : Point) (st : State) : State :=
  {| nodes := nodes st; routes := routes st; selectedNode := selectedNode st;
     selectedRoute := selectedRoute st; isDragging := isDragging st;
     dragOffset := v; zoom := zoom st; pan := pan st;
     showLabels := showLabels st; showRoutes := showRoutes st |}.

Definition setZoom (v : num) (st : State) : State :=
  {| nodes := nodes st; routes := routes st; selectedNode := selectedNode st;
     selectedRoute := selectedRoute st; isDragging := isDragging st;
     dragOffset := dragOffset st; zoom := v; pan := pan st;
     showLabels := showLabels st; showRoutes := showRoutes st |}.

Definition setPan (v : Point) (st : State) : State :=
  {| nodes := nodes st; routes := routes st; selectedNode := selectedNode st;
     selectedRoute := selectedRoute st; isDragging := isDragging st;
     dragOffset := dragOffset st; zoom := zoom st; pan := v;
     showLabels := showLabels st; showRoutes := showRoutes st |}.

Definition setShowLabels (v : bool) (st : State) : State :=
  {| nodes := nodes st; routes := routes st; selectedNode := selectedNode st;
     selectedRoute := selectedRoute st; isDragging := isDragging st;
     dragOffset := dragOffset st; zoom := zoom st; pan := pan st;
     showLabels := v; showRoutes := showRoutes st |}.

Definition setShowRoutes (v : bool) (st : State) : State :=
  {| nodes := nodes st; routes := routes st; selectedNode := selectedNode st;
     selectedRoute := selectedRoute st; isDragging := isDragging st;
     dragOffset := dragOffset st; zoom := zoom st; pan := pan st;
     showLabels := showLabels st; showRoutes := v |}.

(** The initial values given to [useState]. *)
Definition initialState : State :=
  {| nodes := []; routes := []; selectedNode := None; selectedRoute := None;
     isDragging := false; dragOffset := {| px := Fin 0; py := Fin 0 |};
     zoom := Fin 1; pan := {| px := Fin 0; py := Fin 0 |};
     showLabels := true; showRoutes := true |}.

(** Constants of the initialisation effect. *)
Definition canvasWidth : num := Fin 800.
Definition canvasHeight : num := Fin 600.
Definition padding : num := Fin 50.

(** [nodeTypeConfig[key]]: the entry of an own key of the table, if any.
    (The keys an object literal inherits, such as [constructor], are not
    modelled; no node type of the application is one.) *)
Definition nodeTypeConfig (key : string) : option Config.t :=
  if String.eqb key "farm" then
    Some {| Config.color := "#10B981"; Config.size := Fin 25 |}
  else if String.eqb key "collection_center" then
    Some {| Config.color := "#3B82F6"; Config.size := Fin 30 |}
  else if String.eqb key "processing_plant" then
    Some {| Config.color := "#8B5CF6"; Config.size := Fin 35 |}
  else if String.eqb key "distributor" then
    Some {| Config.color := "#F59E0B"; Config.size := Fin 30 |}
  else if String.eqb key "retail" then
    Some {| Config.color := "#EF4444"; Config.size := Fin 25 |}
  else if String.eqb key "default" then
    Some {| Config.color := "#6B7280"; Config.size := Fin 25 |}
  else None.

(** [nodeTypeConfig[type] || nodeTypeConfig.default] *)
Definition configOf (type : string) : Config.t :=
  match nodeTypeConfig type with
  | Some c => c
  | None => {| Config.color := "#6B7280"; Config.size := Fin 25 |}
  end.

(** ** The initialisation effect, [useEffect(..., [inputNodes, inputRoutes])] *)

(** The callback of [inputNodes.map]. *)
Definition networkNode (src : nat -> R) (minLat maxLat minLng maxLng : num)
    (node : Input.NetworkNode.t) : Rand NetworkNode.t :=
  let config := configOf (Input.NetworkNode.type node) in
  let x := padding
           + ((Input.NetworkNode.lng node - minLng) / (maxLng - minLng))
             * (canvasWidth - Fin 2 * padding) in
  let y := padding
           + ((maxLat - Input.NetworkNode.lat node) / (maxLat - minLat))
             * (canvasHeight - Fin 2 * padding) in
  x' <- (if isNaN x then
           r <- Math_random src ;;
           ret (r * (canvasWidth - Fin 2 * padding) + padding)
         else ret x) ;;
  y' <- (if isNaN y then
           r <- Math_random src ;;
           ret (r * (canvasHeight - Fin 2 * padding) + padding)
         else ret y) ;;
  ret {| NetworkNode.id := Input.NetworkNode.id node;
         NetworkNode.name := Input.NetworkNode.name node;
         NetworkNode.type := Input.NetworkNode.type node;
         NetworkNode.x := x';
         NetworkNode.y := y';
         NetworkNode.radius := Config.size config;
         NetworkNode.color := Config.color config;
         NetworkNode.isSelected := false;
         NetworkNode.isDragging := false;
         NetworkNode.capacity := Input.NetworkNode.capacity node;
         NetworkNode.production := Input.NetworkNode.production node;
         NetworkNode.district := Input.NetworkNode.district node |}.

Definition networkNodes (src : nat -> R) (inputNodes : list Input.NetworkNode.t)
    : Rand (list NetworkNode.t) :=
  let latitudes := map Input.NetworkNode.lat inputNodes in
  let longitudes := map Input.NetworkNode.lng inputNodes in
  let minLat := Math_min latitudes in
  let maxLat := Math_max latitudes in
  let minLng := Math_min longitudes in
  let maxLng := Math_max longitudes in
  mapM (networkNode src minLat maxLat minLng maxLng) inputNodes.

(** The callback of [inputRoutes.map]: every input route is kept. *)
Definition networkRoute (route : Input.NetworkRoute.t) : NetworkRoute.t :=
  {| NetworkRoute.id := Input.NetworkRoute.id route;
     NetworkRoute.fromNodeId := Input.NetworkRoute.from_id route;
     NetworkRoute.toNodeId := Input.NetworkRoute.to_id route;
     NetworkRoute.distance := Input.NetworkRoute.distance_km route;
     NetworkRoute.cost := Input.NetworkRoute.cost_per_trip route;
     NetworkRoute.vehicleType := Input.NetworkRoute.vehicle_type route;
     NetworkRoute.isActive := true;
     NetworkRoute.isHighlighted := false |}.

Definition networkRoutes (inputRoutes : list Input.NetworkRoute.t)
    : list NetworkRoute.t :=
  map networkRoute inputRoutes.

Definition initEffect (src : nat -> R) (inputNodes : list Input.NetworkNode.t)
    (inputRoutes : list Input.NetworkRoute.t) (st : State) : Rand State :=
  if Nat.eqb (List.length inputNodes) 0 then ret st
  else
    ns <- networkNodes src inputNodes ;;
    ret (setRoutes (networkRoutes inputRoutes) (setNodes ns st)).

(** ** Drawing a route *)

(** The calls of [drawRoute] that draw the line of the route, from
    [beginPath] to the first [stroke]; with an endpoint missing nothing is
    drawn.  (The arrow head and the label that follow are left out.) *)
Definition drawRoute (st : State) (route : NetworkRoute.t) : list CanvasCall :=
  match find (fun n => String.eqb (NetworkNode.id n) (NetworkRoute.fromNodeId route))
          (nodes st),
        find (fun n => String.eqb (NetworkNode.id n) (NetworkRoute.toNodeId route))
          (nodes st) with
  | Some fromNode, Some toNode =>
      let dx := NetworkNode.x toNode - NetworkNode.x fromNode in
      let dy := NetworkNode.y toNode - NetworkNode.y fromNode in
      let distance := Math_sqrt (dx * dx + dy * dy) in
      let fromX := NetworkNode.x fromNode + (dx / distance) * NetworkNode.radius fromNode in
      let fromY := NetworkNode.y fromNode + (dy / distance) * NetworkNode.radius fromNode in
      let toX := NetworkNode.x toNode - (dx / distance) * NetworkNode.radius toNode in
      let toY := NetworkNode.y toNode - (dy / distance) * NetworkNode.radius toNode in
      [ BeginPath; MoveTo fromX fromY; LineTo toX toY; Stroke ]
  | _, _ => []
  end.

(** ** Mouse handlers *)

Definition getMousePos (e : MouseEvent) (st : State) : Point :=
  match canvasRect e with
  | None => {| px := Fin 0; py := Fin 0 |}
  | Some rect =>
      {| px := (clientX e - px rect - px (pan st)) / zoom st;
         py := (clientY e - py rect - py (pan st)) / zoom st |}
  end.

(** The callback of [nodes.find] in [handleMouseDown]. *)
Definition hit (mousePos : Point) (node : NetworkNode.t) : bool :=
  let dx := px mousePos - NetworkNode.x node in
  let dy := py mousePos - NetworkNode.y node in
  Math_sqrt (dx * dx + dy * dy) <=? NetworkNode.radius node.

(** [{ ...node, isSelected: b }] *)
Definition withSelected (b : bool) (node : NetworkNode.t) : NetworkNode.t :=
  {| NetworkNode.id := NetworkNode.id node;
     NetworkNode.name := NetworkNode.name node;
     NetworkNode.type := NetworkNode.type node;
     NetworkNode.x := NetworkNode.x node;
     NetworkNode.y := NetworkNode.y node;
     NetworkNode.radius := NetworkNode.radius node;
     NetworkNode.color := NetworkNode.color node;
     NetworkNode.isSelected := b;
     NetworkNode.isDragging := NetworkNode.isDragging node;
     NetworkNode.capacity := NetworkNode.capacity node;
     NetworkNode.production := NetworkNode.production node;
     NetworkNode.district := NetworkNode.district node |}.

(** [{ ...node, x: newX, y: newY }] *)
Definition withPosition (newX newY : num) (node : NetworkNode.t) : NetworkNode.t :=
  {| NetworkNode.id := NetworkNode.id node;
     NetworkNode.name := NetworkNode.name node;
     NetworkNode.type := NetworkNode.type node;
     NetworkNode.x := newX;
     NetworkNode.y := newY;
     NetworkNode.radius := NetworkNode.radius node;
     NetworkNode.color := NetworkNode.color node;
     NetworkNode.isSelected := NetworkNode.isSelected node;
     NetworkNode.isDragging := NetworkNode.isDragging node;
     NetworkNode.capacity := NetworkNode.capacity node;
     NetworkNode.production := NetworkNode.production node;
     NetworkNode.district := NetworkNode.district node |}.

(** [{ ...route, isHighlighted: b }] *)
Definition withHighlighted (b : bool) (route : NetworkRoute.t) : NetworkRoute.t :=
  {| NetworkRoute.id := NetworkRoute.id route;
     NetworkRoute.fromNodeId := NetworkRoute.fromNodeId route;
     NetworkRoute.toNodeId := NetworkRoute.toNodeId route;
     NetworkRoute.distance := NetworkRoute.distance route;
     NetworkRoute.cost := NetworkRoute.cost route;
     NetworkRoute.vehicleType := NetworkRoute.vehicleType route;
     NetworkRoute.isActive := NetworkRoute.isActive route;
     NetworkRoute.isHighlighted := b |}.

Definition handleMouseDown (e : MouseEvent) (st : State) : State :=
  let mousePos := getMousePos e st in
  match find (hit mousePos) (nodes st) with
  | Some clickedNode =>
      setNodes
        (map (fun node =>
                withSelected
                  (String.eqb (NetworkNode.id node) (NetworkNode.id clickedNode))
                  node)
           (nodes st))
        (setDragOffset
           {| px := px mousePos - NetworkNode.x clickedNode;
              py := py mousePos - NetworkNode.y clickedNode |}
           (setIsDragging true (setSelectedNode (Some clickedNode) st)))
  | None =>
      setNodes (map (withSelected false) (nodes st)) (setSelectedNode None st)
  end.

Definition handleMouseMove (e : MouseEvent) (st : State) : State :=
  match isDragging st, selectedNode st with
  | true, Some sel =>
      let mousePos := getMousePos e st in
      let newX := px mousePos - px (dragOffset st) in
      let newY := py mousePos - py (dragOffset st) in
      setNodes
        (map (fun node =>
                if String.eqb (NetworkNode.id node) (NetworkNode.id sel)
                then withPosition newX newY node
                else node)
           (nodes st))
        st
  | _, _ => st
  end.

Definition handleMouseUp (st : State) : State := setIsDragging false st.

Definition handleRouteHover (routeId : string) (isHovering : bool) (st : State)
    : State :=
  setRoutes
    (map (fun route =>
            withHighlighted
              (if String.eqb (NetworkRoute.id route) routeId
               then isHovering else false)
              route)
       (routes st))
    st.

Definition handleRouteSelect (route : NetworkRoute.t) (st : State) : State :=
  handleRouteHover (NetworkRoute.id route) true (setSelectedRoute (Some route) st).

Definition handleZoomIn (st : State) : State :=
  setZoom (Math_min [zoom st * Fin 1.2; Fin 3]) st.

Definition handleZoomOut (st : State) : State :=
  setZoom (Math_max [zoom st / Fin 1.2; Fin 0.3]) st.

Definition handleReset (st : State) : State :=
  setRoutes (map (withHighlighted false) (routes st))
    (setNodes (map (withSelected false) (nodes st))
       (setSelectedRoute None
          (setSelectedNode None
             (setPan {| px := Fin 0; py := Fin 0 |} (setZoom (Fin 1) st))))).

(** ** The component as a transition system *)

Inductive Event : Type :=
| EvMouseDown (e : MouseEvent)
| EvMouseMove (e : MouseEvent)
| EvMouseUp
| EvMouseLeave
| EvRouteEnter (routeId : string)
| EvRouteLeave (routeId : string)
| EvRouteSelect (route : NetworkRoute.t)
| EvZoomIn
| EvZoomOut
| EvReset
| EvToggleLabels
| EvToggleRoutes
| EvProps (inputNodes : list Input.NetworkNode.t)
          (inputRoutes : list Input.NetworkRoute.t).

Definition handle (ev : Event) (st : State) : State :=
  match ev with
  | EvMouseDown e => handleMouseDown e st
  | EvMouseMove e => handleMouseMove e st
  | EvMouseUp => handleMouseUp st
  | EvMouseLeave => handleMouseUp st
  | EvRouteEnter routeId => handleRouteHover routeId true st
  | EvRouteLeave routeId => handleRouteHover routeId false st
  | EvRouteSelect route => handleRouteSelect route st
  | EvZoomIn => handleZoomIn st
  | EvZoomOut => handleZoomOut st
  | EvReset => handleReset st
  | EvToggleLabels => setShowLabels (negb (showLabels st)) st
  | EvToggleRoutes => setShowRoutes (negb (showRoutes st)) st
  | EvProps _ _ => st
  end.

Definition step (src : nat -> R) (ev : Event) (st : State) : Rand State :=
  match ev with
  | EvProps inputNodes inputRoutes => initEffect src inputNodes inputRoutes st
  | _ => ret (handle ev st)
  end.

Definition mount (src : nat -> R) (inputNodes : list Input.NetworkNode.t)
    (inputRoutes : list Input.NetworkRoute.t) : Rand State :=
  initEffect src inputNodes inputRoutes initialState.

Fixpoint run (src : nat -> R) (evs : list Event) (st : State) : Rand State :=
  match evs with
  | [] => ret st
  | ev :: evs' => st' <- step src ev st ;; run src evs' st'
  end.

End Basic.

(* ================================================================== *)
(** * The zoom slider of [NetworkVisualizationControls] *)

Module Controls.

(** [onValueChange={([value]) => onZoomChange(value / 100)}], with
    [onZoomChange={setZoom}] in [AdvancedNetworkTopology]: the event a
    slider value gives. *)
Definition onValueChange (value : num) : Advanced.Event :=
  Advanced.EvZoomChange (value / Fin 100).

End Controls.

(* ================================================================== *)
(** * Integers, strings of digits and [parseInt]

    [lightenColor] computes on integers: with the bit operators, on the
    32-bit integer of a number.  A number that is an integer, infinite or
    [NaN] is a value of [JSInt.t]; strings are strings of characters below
    256. *)

Module JSInt.

Import ZArith Ascii.
Local Open Scope Z_scope.

Inductive t : Type :=
| Int (z : Z)
| PosInf
| NegInf
| NotANumber.

(** The binary64 number nearest to the integer [m >= 0], ties to even;
    [None] stands for [Infinity]. *)
Definition nearestDouble (m : Z) : option Z :=
  if m <? 2 ^ 53 then Some m
  else
    let e := Z.log2 m - 52 in
    let q := Z.shiftr m e in
    let r := m - Z.shiftl q e in
    let half := Z.shiftl 1 (e - 1) in
    let q' := if (half <? r) || ((r =? half) && Z.odd q) then q + 1 else q in
    let v := Z.shiftl q' e in
    if v <? 2 ^ 1024 then Some v else None.

(** [ToInt32]: infinite numbers and [NaN] give 0. *)
Definition ToInt32 (a : t) : Z :=
  match a with
  | Int z => (z + 2 ^ 31) mod 2 ^ 32 - 2 ^ 31
  | _ => 0
  end.

(** [a >> k] for a shift count [0 <= k < 32]. *)
Definition sar (a : t) (k : Z) : Z := Z.shiftr (ToInt32 a) k.

(** [a & b] *)
Definition band (a b : t) : Z := Z.land (ToInt32 a) (ToInt32 b).

(** [a + b] *)
Definition add (a b : t) : t :=
  match a, b with
  | NotANumber, _ | _, NotANumber => NotANumber
  | Int x, Int y => Int (x + y)
  | PosInf, NegInf | NegInf, PosInf => NotANumber
  | PosInf, _ | _, PosInf => PosInf
  | NegInf, _ | _, NegInf => NegInf
  end.

(** [a < b] *)
Definition ltb (a b : t) : bool :=
  match a, b with
  | NotANumber, _ | _, NotANumber => false
  | Int x, Int y => x <? y
  | PosInf, _ | _, NegInf => false
  | _, _ => true
  end.

(** [Math.round(a)]: the integer nearest to [a], the larger one of two. *)
Definition Math_round (a : num) : t :=
  match a with
  | Fin r => Int (Int_part (r + / 2)%R)
  | PInf => PosInf
  | NInf => NegInf
  | NaN => NotANumber
  end.

(** *** [parseInt(s, 16)] *)

(** The white space [parseInt] skips, among the characters below 256. *)
Definition isWhiteSpace (c : ascii) : bool :=
  let n := Z.of_nat (nat_of_ascii c) in
  ((9 <=? n) && (n <=? 13)) || (n =? 32) || (n =? 160).

Fixpoint trimStart (s : string) : string :=
  match s with
  | EmptyString => EmptyString
  | String c s' => if isWhiteSpace c then trimStart s' else s
  end.

(** The value of a digit of radix 16. *)
Definition digitValue (c : ascii) : option Z :=
  let n := Z.of_nat (nat_of_ascii c) in
  if (48 <=? n) && (n <=? 57) then Some (n - 48)
  else if (97 <=? n) && (n <=? 102) then Some (n - 87)
  else if (65 <=? n) && (n <=? 70) then Some (n - 55)
  else None.

(** The value of the longest prefix of digits; [acc] is the value of the
    digits read so far, [None] when there is none. *)
Fixpoint digitsValue (s : string) (acc : option Z) : option Z :=
  match s with
  | EmptyString => acc
  | String c s' =>
      match digitValue c with
      | Some d =>
          digitsValue s'
            (Some (16 * match acc with Some a => a | None => 0 end + d))
      | None => acc
      end
  end.

(** A leading sign: whether it is [-], and the rest. *)
Definition stripSign (s : string) : bool * string :=
  match s with
  | String c s' =>
      if Ascii.eqb c "-" then (true, s')
      else if Ascii.eqb c "+" then (false, s')
      else (false, s)
  | EmptyString => (false, EmptyString)
  end.

(** A leading [0x] or [0X]. *)
Definition stripHexPrefix (s : string) : string :=
  match s with
  | String c (String d s') =>
      if Ascii.eqb c "0" && (Ascii.eqb d "x" || Ascii.eqb d "X") then s'
      else s
  | _ => s
  end.

Definition parseInt16 (s : string) : t :=
  let (negative, s1) := stripSign (trimStart s) in
  match digitsValue (stripHexPrefix s1) None with
  | None => NotANumber
  | Some m =>
      match nearestDouble m with
      | Some v => Int (if negative then - v else v)
      | None => if negative then NegInf else PosInf
      end
  end.

(** *** [n.toString(16)] on an integer *)

(** The digit of a value below 16. *)
Definition hexDigit (d : Z) : ascii :=
  nth (Z.to_nat d) (list_ascii_of_string "0123456789abcdef") "0"%char.

(** The digits of [n > 0] before [acc], most significant first; [fuel]
    bounds their number. *)
Fixpoint digits16 (fuel : nat) (n : Z) (acc : string) : string :=
  match fuel with
  | O => acc
  | S fuel' =>
      let acc' := String (hexDigit (n mod 16)) acc in
      if n / 16 =? 0 then acc' else digits16 fuel' (n / 16) acc'
  end.

Definition toString16 (n : Z) : string :=
  if n =? 0 then "0"%string
  else if n <? 0 then
    String "-" (digits16 (S (Z.to_nat (Z.log2 (- n)))) (- n) EmptyString)
  else digits16 (S (Z.to_nat (Z.log2 n))) n EmptyString.

(** *** Two methods of strings *)

(** [s.replace(c, e)] for a pattern [c] of one character and the empty
    string [e]: the first
    occurrence is removed. *)
Fixpoint removeFirst (c : ascii) (s : string) : string :=
  match s with
  | EmptyString => EmptyString
  | String d s' => if Ascii.eqb d c then s' else String d (removeFirst c s')
  end.

(** [s.slice(1)] *)
Definition slice1 (s : string) : string :=
  match s with
  | EmptyString => EmptyString
  | String _ s' => s'
  end.

End JSInt.

(* ================================================================== *)
(** * Drawing helpers of [NetworkCanvasRenderer] *)

Module Renderer.

Import Ascii.

(** ** [drawGrid]

    The same function draws the grid of [NetworkTopologyVisualization].
    (The stroke style and the line width it sets before the two loops are
    left out.) *)

Definition gridSize : num := Fin 50.

(** [for (let x = start; x <= limit; x += gridSize) body(x)]: the calls of
    the loop, or [None] when it has not ended after [fuel] tests of its
    condition. *)
Fixpoint gridLoop (fuel : nat) (x limit : num) (body : num -> list CanvasCall)
    : option (list CanvasCall) :=
  match fuel with
  | O => None
  | S fuel' =>
      if x <=? limit then
        match gridLoop fuel' (x + gridSize) limit body with
        | Some calls => Some (body x ++ calls)%list
        | None => None
        end
      else Some []
  end.

Definition drawGrid (fuel : nat) (w h : num) : option (list CanvasCall) :=
  match gridLoop fuel (Fin 0) w
          (fun x => [BeginPath; MoveTo x (Fin 0); LineTo x h; Stroke]) with
  | None => None
  | Some vertical =>
      match gridLoop fuel (Fin 0) h
              (fun y => [BeginPath; MoveTo (Fin 0) y; LineTo w y; Stroke]) with
      | None => None
      | Some horizontal => Some (vertical ++ horizontal)%list
      end
  end.

(** ** [lightenColor]

    The product [2.55 * percent] is the exact one, as everywhere; for the
    two percentages the renderer passes, 20 and 30, binary64 gives the same
    amounts, 51 and 77. *)

(** [c < 255 ? c < 1 ? 0 : c : 255] *)
Definition channel (c : JSInt.t) : Z :=
  if JSInt.ltb c (JSInt.Int 255) then
    if JSInt.ltb c (JSInt.Int 1) then 0%Z
    else match c with JSInt.Int z => z | _ => 0%Z end
  else 255%Z.

Definition lightenColor (color : string) (percent : num) : string :=
  let num := JSInt.parseInt16 (JSInt.removeFirst "#" color) in
  let amt := JSInt.Math_round (Fin 2.55 * percent) in
  let R := JSInt.add (JSInt.Int (JSInt.sar num 16)) amt in
  let G := JSInt.add
             (JSInt.Int (JSInt.band (JSInt.Int (JSInt.sar num 8))
                           (JSInt.Int 255))) amt in
  let B := JSInt.add (JSInt.Int (JSInt.band num (JSInt.Int 255))) amt in
  String "#"
    (JSInt.slice1
       (JSInt.toString16
          (16777216 + channel R * 65536 + channel G * 256 + channel B)%Z)).

End Renderer.

(* ================================================================== *)
(** * The capacity indicator of [NetworkTopologyVisualization] *)

Module Indicator.

(** [ctx.fillStyle = fillStyle; ctx.fillRect(x, y, w, h)] *)
Inductive FillCall : Type :=
| FillRect (fillStyle : string) (x y w h : num).

(** An optional number as a condition: [undefined], 0 and [NaN] are
    false. *)
Definition truthy (v : option num) : bool :=
  match v with
  | Some (Fin r) => negb (Rzerob r)
  | Some NaN => false
  | Some _ => true
  | None => false
  end.

(** An optional number as an operand: [undefined] gives [NaN]. *)
Definition numberOf (v : option num) : num :=
  match v with
  | Some a => a
  | None => NaN
  end.

(** The end of [drawNode]: the calls that draw the capacity indicator. *)
Definition capacityIndicator (node : Basic.NetworkNode.t) : list FillCall :=
  if truthy (Basic.NetworkNode.capacity node) then
    let barWidth := Basic.NetworkNode.radius node * Fin 1.5 in
    let barHeight := Fin 4 in
    let utilization :=
      if truthy (Basic.NetworkNode.production node) then
        (numberOf (Basic.NetworkNode.production node)
         / numberOf (Basic.NetworkNode.capacity node)) * Fin 100
      else Fin 50 in
    [ FillRect "#ffffff"
        (Basic.NetworkNode.x node - barWidth / Fin 2)
        (Basic.NetworkNode.y node + Basic.NetworkNode.radius node + Fin 5)
        barWidth barHeight;
      FillRect
        (if nlt (Fin 80) utilization then "#EF4444"
         else if nlt (Fin 60) utilization then "#F59E0B"
         else "#10B981")
        (Basic.NetworkNode.x node - barWidth / Fin 2)
        (Basic.NetworkNode.y node + Basic.NetworkNode.radius node + Fin 5)
        ((barWidth * utilization) / Fin 100) barHeight ]
  else [].

End Indicator.

(* ================================================================== *)
(** * The network metrics of [AdvancedNetworkTopology]

    The numbers the panel formats with [toFixed]. *)

Module Metrics.

(** [l.length] as a number. *)
Definition lengthOf {A : Type} (l : list A) : num := Fin (INR (List.length l)).

(** [canvasRoutes.reduce((sum, r) => sum + r.distance, 0)] *)
Definition totalDistance (routes : list Advanced.CanvasRoute.t) : num :=
  fold_left (fun sum r => sum + Advanced.CanvasRoute.distance r) routes (Fin 0).

(** [canvasRoutes.reduce((sum, r) => sum + r.cost, 0)] *)
Definition totalCost (routes : list Advanced.CanvasRoute.t) : num :=
  fold_left (fun sum r => sum + Advanced.CanvasRoute.cost r) routes (Fin 0).

Definition avgDistance (st : Advanced.State) : num :=
  if Nat.ltb 0 (List.length (Advanced.canvasRoutes st)) then
    totalDistance (Advanced.canvasRoutes st)
    / lengthOf (Advanced.canvasRoutes st)
  else Fin 0.

End Metrics.

(* ================================================================== *)
(** * Sample data *)

(** An input node of type [farm] at the given position. *)
Definition sampleNode (id : string) (lat lng : R) : Input.NetworkNode.t :=
  {| Input.NetworkNode.id := id;
     Input.NetworkNode.name := id;
     Input.NetworkNode.type := "farm";
     Input.NetworkNode.lat := Fin lat;
     Input.NetworkNode.lng := Fin lng;
     Input.NetworkNode.capacity := None;
     Input.NetworkNode.production := None;
     Input.NetworkNode.district := None |}.

(** An input route between two node ids. *)
Definition sampleRoute (id from to : string) : Input.NetworkRoute.t :=
  {| Input.NetworkRoute.id := id;
     Input.NetworkRoute.from_id := from;
     Input.NetworkRoute.to_id := to;
     Input.NetworkRoute.distance_km := Fin 12;
     Input.NetworkRoute.cost_per_trip := Fin 300;
     Input.NetworkRoute.vehicle_type := "truck" |}.

(** A mouse event at the given point of a canvas whose bounding rectangle
    starts at the origin. *)
Definition mouseAt (x y : R) : MouseEvent :=
  {| clientX := Fin x; clientY := Fin y;
     canvasRect := Some {| px := Fin 0; py := Fin 0 |} |}.

(** A stream for [Math.random()]: the constant 1/2. *)
Definition halves : nat -> R := fun _ => (1 / 2)%R.

(** A canvas node of [AdvancedNetworkTopology] and a node of
    [NetworkTopologyVisualization], of type [farm]. *)
Definition canvasNodeAt (id : string) (x y r : R) : Advanced.CanvasNode.t :=
  {| Advanced.CanvasNode.id := id; Advanced.CanvasNode.name := id;
     Advanced.CanvasNode.x := Fin x; Advanced.CanvasNode.y := Fin y;
     Advanced.CanvasNode.radius := Fin r;
     Advanced.CanvasNode.color := "#10B981";
     Advanced.CanvasNode.type := "farm";
     Advanced.CanvasNode.isSelected := false;
     Advanced.CanvasNode.isHovered := false |}.

Definition networkNodeAt (id : string) (x y r : R) : Basic.NetworkNode.t :=
  {| Basic.NetworkNode.id := id; Basic.NetworkNode.name := id;
     Basic.NetworkNode.type := "farm";
     Basic.NetworkNode.x := Fin x; Basic.NetworkNode.y := Fin y;
     Basic.NetworkNode.radius := Fin r;
     Basic.NetworkNode.color := "#10B981";
     Basic.NetworkNode.isSelected := false;
     Basic.NetworkNode.isDragging := false;
     Basic.NetworkNode.capacity := None;
     Basic.NetworkNode.production := None;
     Basic.NetworkNode.district := None |}.

(** Two input nodes that differ in latitude and in longitude. *)
Definition twoNodes : list Input.NetworkNode.t :=
  [sampleNode "a" 10 10; sampleNode "b" 20 20].

(** A state of [AdvancedNetworkTopology] with the given nodes, zoom and
    pan. *)
Definition advancedView (nodes : list Advanced.CanvasNode.t)
    (zoom panX panY : R) : Advanced.State :=
  Advanced.setPan {| px := Fin panX; py := Fin panY |}
    (Advanced.setZoom (Fin zoom)
       (Advanced.setCanvasNodes nodes Advanced.initialState)).

(** Two overlapping nodes: the centre of the second lies inside the
    first. *)
Definition overlappingNodes : list Advanced.CanvasNode.t :=
  [canvasNodeAt "a" 0 0 25; canvasNodeAt "b" 10 0 25].

(** Three input nodes, the first two at one position, and a route between
    those two. *)
Definition coincidentNodes : list Input.NetworkNode.t :=
  [sampleNode "a" 10 10; sampleNode "b" 10 10; sampleNode "c" 20 20].

Definition coincidentRoute : Input.NetworkRoute.t := sampleRoute "r1" "a" "b".

(* ================================================================== *)
(** * The vocabulary of the properties

    The predicates and functions in which the theorems are stated, and the
    formulas of the specification the code is compared with. *)

(** Decides the comparisons of real constants that a computation on numbers
    leaves behind. *)
Ltac rdecide :=
  unfold Rzerob, Rposb, Rnegb, Rleb, Rltb, Reqb;
  repeat match goal with
    | |- context [Req_EM_T ?a ?b] => destruct (Req_EM_T a b); try lra
    | |- context [Rlt_dec ?a ?b] => destruct (Rlt_dec a b); try lra
    | |- context [Rle_dec ?a ?b] => destruct (Rle_dec a b); try lra
    end.

(** Evaluates a closed computation on numbers in the goal. *)
Ltac js_compute :=
  repeat (progress (cbn; rdecide)); try reflexivity.

(** [a] lies between the bounds [mn] and [mx] computed over a list that
    holds it: either both bounds are [NaN], or none of the three is and
    [mn <= a <= mx]. *)
Definition between (mn mx a : num) : Prop :=
  (mn = NaN /\ mx = NaN) \/
  (isNaN a = false /\ isNaN mn = false /\ isNaN mx = false /\
   nle mn a = true /\ nle a mx = true).

(** [a] is a finite number of the interval [[lo, hi]]. *)
Definition inRange (lo hi : R) (a : num) : Prop :=
  exists r, a = Fin r /\ (lo <= r <= hi)%R.

(** Every value of the stream is one [Math.random()] can return. *)
Definition unitStream (src : nat -> R) : Prop :=
  forall k, (0 <= src k < 1)%R.

(** The padded rectangle of [AdvancedNetworkTopology]. *)
Definition advancedInBounds (n : Advanced.CanvasNode.t) : Prop :=
  inRange 60 740 (Advanced.CanvasNode.x n) /\
  inRange 60 540 (Advanced.CanvasNode.y n).

(** The padded rectangle of [NetworkTopologyVisualization]. *)
Definition basicInBounds (n : Basic.NetworkNode.t) : Prop :=
  inRange 50 750 (Basic.NetworkNode.x n) /\
  inRange 50 550 (Basic.NetworkNode.y n).

(** The state of [AdvancedNetworkTopology] after mounting it with the given
    props and handling the events [evs]; [k] calls of [Math.random()] were
    made before. *)
Definition advancedAfter (src : nat -> R) (inputNodes : list Input.NetworkNode.t)
    (inputRoutes : list Input.NetworkRoute.t) (evs : list Advanced.Event)
    (k : nat) : Advanced.State :=
  fst ((st <- Advanced.mount src inputNodes inputRoutes ;;
        Advanced.run src evs st) k).

(** The same for [NetworkTopologyVisualization]. *)
Definition basicAfter (src : nat -> R) (inputNodes : list Input.NetworkNode.t)
    (inputRoutes : list Input.NetworkRoute.t) (evs : list Basic.Event)
    (k : nat) : Basic.State :=
  fst ((st <- Basic.mount src inputNodes inputRoutes ;;
        Basic.run src evs st) k).

(** Two canvas nodes that differ at most in the two flags. *)
Definition sameGeometry (n m : Advanced.CanvasNode.t) : Prop :=
  Advanced.CanvasNode.id n = Advanced.CanvasNode.id m /\
  Advanced.CanvasNode.name n = Advanced.CanvasNode.name m /\
  Advanced.CanvasNode.x n = Advanced.CanvasNode.x m /\
  Advanced.CanvasNode.y n = Advanced.CanvasNode.y m /\
  Advanced.CanvasNode.radius n = Advanced.CanvasNode.radius m /\
  Advanced.CanvasNode.color n = Advanced.CanvasNode.color m /\
  Advanced.CanvasNode.type n = Advanced.CanvasNode.type m.

(** Finite coordinates: of a point, of a mouse event, of the mouse events
    among the events of [NetworkTopologyVisualization], of a node, and of the
    cells of the component that enter the position of a dragged node. *)
Definition finitePoint (p : Point) : Prop :=
  isFinite (px p) = true /\ isFinite (py p) = true.

(** A mouse event with finite pointer coordinates and canvas rectangle. *)
Definition finiteEvent (e : MouseEvent) : Prop :=
  isFinite (clientX e) = true /\ isFinite (clientY e) = true /\
  forall rect, canvasRect e = Some rect -> finitePoint rect.

Definition basicFiniteEvent (ev : Basic.Event) : Prop :=
  match ev with
  | Basic.EvMouseDown e | Basic.EvMouseMove e => finiteEvent e
  | _ => True
  end.

Definition basicFiniteNode (n : Basic.NetworkNode.t) : Prop :=
  isFinite (Basic.NetworkNode.x n) = true /\
  isFinite (Basic.NetworkNode.y n) = true.

Definition basicFiniteState (st : Basic.State) : Prop :=
  Forall basicFiniteNode (Basic.nodes st) /\
  (exists z, Basic.zoom st = Fin z /\ (0 < z)%R) /\
  finitePoint (Basic.pan st) /\ finitePoint (Basic.dragOffset st).

(** The projection of the specification, section 4.1:
    [x = pad + (lng - minLng) / (maxLng - minLng) * (W - 2*pad)] and
    [y = pad + (maxLat - lat) / (maxLat - minLat) * (H - 2*pad)]. *)
Definition specX (pad W minLng maxLng lng : R) : R :=
  (pad + (lng - minLng) / (maxLng - minLng) * (W - 2 * pad))%R.

Definition specY (pad H minLat maxLat lat : R) : R :=
  (pad + (maxLat - lat) / (maxLat - minLat) * (H - 2 * pad))%R.

(** The vertical axis is inverted: of two input nodes, the one with the
    larger latitude gets the smaller [y]. *)
Definition northIsUp {N : Type} (yOf : N -> num)
    (inputNodes : list Input.NetworkNode.t) (out : list N) : Prop :=
  forall i j ni nj oi oj,
    nth_error inputNodes i = Some ni -> nth_error out i = Some oi ->
    nth_error inputNodes j = Some nj -> nth_error out j = Some oj ->
    nlt (Input.NetworkNode.lat ni) (Input.NetworkNode.lat nj) = true ->
    nlt (yOf oj) (yOf oi) = true.

(** The relation between an input node and the node built for it. *)
Definition projectedAs {N : Type} (xOf yOf : N -> num) (pad : R)
    (minLat maxLat minLng maxLng : R) (a : Input.NetworkNode.t) (b : N) : Prop :=
  exists lat lng,
    Input.NetworkNode.lat a = Fin lat /\ Input.NetworkNode.lng a = Fin lng /\
    (minLat <= lat <= maxLat)%R /\ (minLng <= lng <= maxLng)%R /\
    xOf b = Fin (specX pad 800 minLng maxLng lng) /\
    yOf b = Fin (specY pad 600 minLat maxLat lat).

(** The distance between two points of the plane. *)
Definition dist (x1 y1 x2 y2 : R) : R :=
  sqrt ((x1 - x2) * (x1 - x2) + (y1 - y2) * (y1 - y2))%R.

(** [res] is the first element of [l] that satisfies [f], if there is
    one. *)
Definition firstMatch {A : Type} (f : A -> bool) (l : list A)
    (res : option A) : Prop :=
  match res with
  | Some c => exists l1 l2, l = (l1 ++ c :: l2)%list /\ f c = true /\
                            Forall (fun b => f b = false) l1
  | None => Forall (fun b => f b = false) l
  end.

(** The connector of the specification, section 4.2: with [d] the unit
    vector from the centre [C1] to the centre [C2],
    [fromPoint = C1 + d*r1] and [toPoint = C2 - d*r2]. *)
Definition unitX (x1 y1 x2 y2 : R) : R := ((x2 - x1) / dist x2 y2 x1 y1)%R.

Definition unitY (x1 y1 x2 y2 : R) : R := ((y2 - y1) / dist x2 y2 x1 y1)%R.

Definition specFromX (x1 y1 r1 x2 y2 : R) : R :=
  (x1 + unitX x1 y1 x2 y2 * r1)%R.

Definition specFromY (x1 y1 r1 x2 y2 : R) : R :=
  (y1 + unitY x1 y1 x2 y2 * r1)%R.

Definition specToX (x1 y1 x2 y2 r2 : R) : R :=
  (x2 - unitX x1 y1 x2 y2 * r2)%R.

Definition specToY (x1 y1 x2 y2 r2 : R) : R :=
  (y2 - unitY x1 y1 x2 y2 * r2)%R.

(** The endpoints of a canvas route, as [(fromX, fromY, toX, toY)]. *)
Definition endpoints (r : Advanced.CanvasRoute.t) : num * num * num * num :=
  (Advanced.CanvasRoute.fromX r, Advanced.CanvasRoute.fromY r,
   Advanced.CanvasRoute.toX r, Advanced.CanvasRoute.toY r).

(** In [AdvancedNetworkTopology], not both a node and a route are
    selected. *)
Definition advancedExclusive (st : Advanced.State) : Prop :=
  Advanced.selectedNodeId st = None \/ Advanced.selectedRouteId st = None.

(** A flag that is set names the selected (hovered, highlighted) id. *)
Definition nodeFlagsConsistent (st : Advanced.State)
    (n : Advanced.CanvasNode.t) : Prop :=
  (Advanced.CanvasNode.isSelected n = true ->
   Advanced.selectedNodeId st = Some (Advanced.CanvasNode.id n)) /\
  (Advanced.CanvasNode.isHovered n = true ->
   Advanced.hoveredNodeId st = Some (Advanced.CanvasNode.id n)).

Definition routeFlagConsistent (st : Advanced.State)
    (r : Advanced.CanvasRoute.t) : Prop :=
  Advanced.CanvasRoute.isHighlighted r = true ->
  Advanced.selectedRouteId st = Some (Advanced.CanvasRoute.id r).

Definition flagsConsistent (st : Advanced.State) : Prop :=
  Forall (nodeFlagsConsistent st) (Advanced.canvasNodes st) /\
  Forall (routeFlagConsistent st) (Advanced.canvasRoutes st).

(** Two canvas routes that differ at most in the highlight flag. *)
Definition sameRouteData (r r' : Advanced.CanvasRoute.t) : Prop :=
  Advanced.CanvasRoute.id r = Advanced.CanvasRoute.id r' /\
  endpoints r = endpoints r' /\
  Advanced.CanvasRoute.color r = Advanced.CanvasRoute.color r' /\
  Advanced.CanvasRoute.width r = Advanced.CanvasRoute.width r' /\
  Advanced.CanvasRoute.distance r = Advanced.CanvasRoute.distance r' /\
  Advanced.CanvasRoute.cost r = Advanced.CanvasRoute.cost r' /\
  Advanced.CanvasRoute.vehicleType r = Advanced.CanvasRoute.vehicleType r'.

(* ================================================================== *)
(** * Further vocabulary *)

(** A zoom factor within the bounds of the zoom buttons. *)
Definition zoomInRange (v : num) : Prop :=
  exists z, v = Fin z /\ (0.3 <= z <= 3)%R.

(** The zoom slider passes a factor within the bounds. *)
Definition sliderInRange (ev : Advanced.Event) : Prop :=
  match ev with
  | Advanced.EvZoomChange v => zoomInRange v
  | _ => True
  end.

(** The pan both components start with. *)
Definition origin : Point := {| px := Fin 0; py := Fin 0 |}.

(** A mouse event at the device position ([cx], [cy]) over a canvas whose
    bounding rectangle starts at ([l], [t]). *)
Definition mouseEvent (cx cy l t : R) : MouseEvent :=
  {| clientX := Fin cx; clientY := Fin cy;
     canvasRect := Some {| px := Fin l; py := Fin t |} |}.

(** A node of [NetworkTopologyVisualization] is flagged as selected only
    if the selected node has its id. *)
Definition basicFlagsSound (st : Basic.State) : Prop :=
  Forall
    (fun n =>
       Basic.NetworkNode.isSelected n = true ->
       exists s, Basic.selectedNode st = Some s /\
                 Basic.NetworkNode.id s = Basic.NetworkNode.id n)
    (Basic.nodes st).

(** The flags of the nodes and of the routes agree with the selection
    cells. *)
Definition nodeFlagsExact (st : Advanced.State) : Prop :=
  Forall
    (fun n =>
       Advanced.CanvasNode.isSelected n
         = eqNullable (Advanced.CanvasNode.id n) (Advanced.selectedNodeId st) /\
       Advanced.CanvasNode.isHovered n
         = eqNullable (Advanced.CanvasNode.id n) (Advanced.hoveredNodeId st))
    (Advanced.canvasNodes st).

Definition routeFlagsExact (st : Advanced.State) : Prop :=
  Forall
    (fun r =>
       Advanced.CanvasRoute.isHighlighted r
         = eqNullable (Advanced.CanvasRoute.id r) (Advanced.selectedRouteId st))
    (Advanced.canvasRoutes st).

(** No node and no route carries a flag. *)
Definition advancedUnflagged (st : Advanced.State) : Prop :=
  Forall (fun n => Advanced.CanvasNode.isSelected n = false /\
                   Advanced.CanvasNode.isHovered n = false)
    (Advanced.canvasNodes st) /\
  Forall (fun r => Advanced.CanvasRoute.isHighlighted r = false)
    (Advanced.canvasRoutes st).

Definition basicUnflagged (st : Basic.State) : Prop :=
  Forall (fun n => Basic.NetworkNode.isSelected n = false) (Basic.nodes st) /\
  Forall (fun r => Basic.NetworkRoute.isHighlighted r = false)
    (Basic.routes st).

(** A state of [NetworkTopologyVisualization] with the two nodes
    [twoNodes] project to. *)
Definition basicTwoNodes : Basic.State :=
  Basic.setNodes [networkNodeAt "a" 50 550 25; networkNodeAt "b" 750 50 25]
    Basic.initialState.

(** What a scene node takes over from the input node it is built for. *)
Definition advancedNodeOf (a : Input.NetworkNode.t)
    (c : Advanced.CanvasNode.t) : Prop :=
  Advanced.CanvasNode.id c = Input.NetworkNode.id a /\
  Advanced.CanvasNode.name c = Input.NetworkNode.name a /\
  Advanced.CanvasNode.type c = Input.NetworkNode.type a /\
  Advanced.CanvasNode.radius c
    = Config.size (Advanced.configOf (Input.NetworkNode.type a)) /\
  Advanced.CanvasNode.color c
    = Config.color (Advanced.configOf (Input.NetworkNode.type a)) /\
  Advanced.CanvasNode.isSelected c = false /\
  Advanced.CanvasNode.isHovered c = false.

Definition basicNodeOf (a : Input.NetworkNode.t)
    (c : Basic.NetworkNode.t) : Prop :=
  Basic.NetworkNode.id c = Input.NetworkNode.id a /\
  Basic.NetworkNode.name c = Input.NetworkNode.name a /\
  Basic.NetworkNode.type c = Input.NetworkNode.type a /\
  Basic.NetworkNode.radius c
    = Config.size (Basic.configOf (Input.NetworkNode.type a)) /\
  Basic.NetworkNode.color c
    = Config.color (Basic.configOf (Input.NetworkNode.type a)) /\
  Basic.NetworkNode.capacity c = Input.NetworkNode.capacity a /\
  Basic.NetworkNode.production c = Input.NetworkNode.production a /\
  Basic.NetworkNode.district c = Input.NetworkNode.district a /\
  Basic.NetworkNode.isSelected c = false /\
  Basic.NetworkNode.isDragging c = false.

(** Both endpoints of the input route are ids of input nodes. *)
Definition resolvable (ns : list Input.NetworkNode.t)
    (r : Input.NetworkRoute.t) : bool :=
  existsb (fun n => String.eqb (Input.NetworkNode.id n)
                      (Input.NetworkRoute.from_id r)) ns
  && existsb (fun n => String.eqb (Input.NetworkNode.id n)
                         (Input.NetworkRoute.to_id r)) ns.

(** What a scene route takes over from the input route it is built for. *)
Definition advancedRouteOf (r : Input.NetworkRoute.t)
    (c : Advanced.CanvasRoute.t) : Prop :=
  Advanced.CanvasRoute.id c = Input.NetworkRoute.id r /\
  Advanced.CanvasRoute.distance c = Input.NetworkRoute.distance_km r /\
  Advanced.CanvasRoute.cost c = Input.NetworkRoute.cost_per_trip r /\
  Advanced.CanvasRoute.vehicleType c = Input.NetworkRoute.vehicle_type r.

(** The nodes with an extreme coordinate lie on the margins of the padded
    rectangle, and every margin holds a node. *)
Definition onMargins {N : Type} (xOf yOf : N -> num) (pad : R)
    (ns : list Input.NetworkNode.t) (out : list N) : Prop :=
  let lats := map Input.NetworkNode.lat ns in
  let lngs := map Input.NetworkNode.lng ns in
  Forall2
    (fun a c =>
       (Input.NetworkNode.lng a = Math_min lngs -> xOf c = Fin pad) /\
       (Input.NetworkNode.lng a = Math_max lngs -> xOf c = Fin (800 - pad)%R) /\
       (Input.NetworkNode.lat a = Math_max lats -> yOf c = Fin pad) /\
       (Input.NetworkNode.lat a = Math_min lats -> yOf c = Fin (600 - pad)%R))
    ns out /\
  Exists (fun c => xOf c = Fin pad) out /\
  Exists (fun c => xOf c = Fin (800 - pad)%R) out /\
  Exists (fun c => yOf c = Fin pad) out /\
  Exists (fun c => yOf c = Fin (600 - pad)%R) out.

(** Two input nodes with distinct longitudes, the first without a usable
    latitude. *)
Definition nanLatNodes : list Input.NetworkNode.t :=
  [ {| Input.NetworkNode.id := "a";
       Input.NetworkNode.name := "a";
       Input.NetworkNode.type := "farm";
       Input.NetworkNode.lat := NaN;
       Input.NetworkNode.lng := Fin 10;
       Input.NetworkNode.capacity := None;
       Input.NetworkNode.production := None;
       Input.NetworkNode.district := None |};
    sampleNode "b" 20 20 ].

(** The calls that stroke the vertical grid line number [j] over the
    height [h], and the horizontal one over the width [w]. *)
Definition verticalLine (h : num) (j : nat) : list CanvasCall :=
  [BeginPath; MoveTo (Fin (50 * INR j)) (Fin 0);
   LineTo (Fin (50 * INR j)) h; Stroke].

Definition horizontalLine (w : num) (j : nat) : list CanvasCall :=
  [BeginPath; MoveTo (Fin 0) (Fin (50 * INR j));
   LineTo w (Fin (50 * INR j)); Stroke].

(** The grid with the vertical lines 0 to [n] and the horizontal lines 0
    to [m]. *)
Definition gridLines (n m : nat) (w h : num) : list CanvasCall :=
  (List.concat (map (verticalLine h) (seq 0 (S n)))
   ++ List.concat (map (horizontalLine w) (seq 0 (S m))))%list.

(** Two digits for a channel, and the colour string of three channels. *)
Definition hex2 (v : Z) : string :=
  String (JSInt.hexDigit (v / 16)%Z)
    (String (JSInt.hexDigit (v mod 16)%Z) EmptyString).

Definition rgb (r g b : Z) : string :=
  "#" ++ hex2 r ++ hex2 g ++ hex2 b.

(** A channel value cut to [[0, 255]]. *)
Definition saturate (v : Z) : Z := Z.max 0 (Z.min 255 v).

(** The number [lightenColor] reads from a colour string. *)
Module Colour.
Import Ascii.
Definition numberOf (color : string) : JSInt.t :=
  JSInt.parseInt16 (JSInt.removeFirst "#" color).
End Colour.

(** A farm of capacity 1000 that produces 1200. *)
Definition busyFarm : Basic.NetworkNode.t :=
  {| Basic.NetworkNode.id := "a"; Basic.NetworkNode.name := "a";
     Basic.NetworkNode.type := "farm";
     Basic.NetworkNode.x := Fin 50; Basic.NetworkNode.y := Fin 550;
     Basic.NetworkNode.radius := Fin 25;
     Basic.NetworkNode.color := "#10B981";
     Basic.NetworkNode.isSelected := false;
     Basic.NetworkNode.isDragging := false;
     Basic.NetworkNode.capacity := Some (Fin 1000);
     Basic.NetworkNode.production := Some (Fin 1200);
     Basic.NetworkNode.district := None |}.

(* ================================================================== *)
(** * Facts about numbers *)

Section NumFacts.

Local Open Scope R_scope.

Lemma Rzerob_true (x : R) : Rzerob x = true <-> x = 0.
Proof. unfold Rzerob. destruct (Req_EM_T x 0); split; congruence. Qed.

Lemma Rzerob_false (x : R) : Rzerob x = false <-> x <> 0.
Proof. unfold Rzerob. destruct (Req_EM_T x 0); split; congruence. Qed.

Lemma Rposb_true (x : R) : Rposb x = true <-> 0 < x.
Proof. unfold Rposb. destruct (Rlt_dec 0 x); split; intros; auto; discriminate || contradiction. Qed.

Lemma Rnegb_true (x : R) : Rnegb x = true <-> x < 0.
Proof. unfold Rnegb. destruct (Rlt_dec x 0); split; intros; auto; discriminate || contradiction. Qed.

Lemma Rnegb_false (x : R) : Rnegb x = false <-> 0 <= x.
Proof.
  unfold Rnegb. destruct (Rlt_dec x 0); split; intros; auto; try discriminate; lra.
Qed.

Lemma Rleb_true (x y : R) : Rleb x y = true <-> x <= y.
Proof. unfold Rleb. destruct (Rle_dec x y); split; intros; auto; discriminate || contradiction. Qed.

Lemma Rleb_false (x y : R) : Rleb x y = false <-> y < x.
Proof.
  unfold Rleb. destruct (Rle_dec x y); split; intros; auto; try discriminate; lra.
Qed.

Lemma Rltb_true (x y : R) : Rltb x y = true <-> x < y.
Proof. unfold Rltb. destruct (Rlt_dec x y); split; intros; auto; discriminate || contradiction. Qed.

Lemma Rltb_false (x y : R) : Rltb x y = false <-> y <= x.
Proof.
  unfold Rltb. destruct (Rlt_dec x y); split; intros; auto; try discriminate; lra.
Qed.

Lemma Reqb_true (x y : R) : Reqb x y = true <-> x = y.
Proof. unfold Reqb. destruct (Req_EM_T x y); split; congruence. Qed.

Lemma Reqb_false (x y : R) : Reqb x y = false <-> x <> y.
Proof. unfold Reqb. destruct (Req_EM_T x y); split; congruence. Qed.

(** Division of finite numbers by a non-zero finite number is the exact
    quotient. *)
Lemma ndiv_Fin (x y : R) : y <> 0 -> ndiv (Fin x) (Fin y) = Fin (x / y).
Proof. intros H. simpl. apply Rzerob_false in H. now rewrite H. Qed.

(** 0/0 is [NaN]. *)
Lemma ndiv_zero_zero : ndiv (Fin 0) (Fin 0) = NaN.
Proof. simpl. assert (H : Rzerob 0 = true) by now apply Rzerob_true. now rewrite H. Qed.

Lemma sqrt_Fin (x : R) : 0 <= x -> Math_sqrt (Fin x) = Fin (sqrt x).
Proof. intros H. simpl. apply Rnegb_false in H. now rewrite H. Qed.

Lemma nle_Fin (x y : R) : nle (Fin x) (Fin y) = true <-> x <= y.
Proof. simpl. apply Rleb_true. Qed.

Lemma nlt_Fin (x y : R) : nlt (Fin x) (Fin y) = true <-> x < y.
Proof. simpl. apply Rltb_true. Qed.

Lemma neq_Fin (x y : R) : neq (Fin x) (Fin y) = true <-> x = y.
Proof. simpl. apply Reqb_true. Qed.

Lemma isFinite_Fin (a : num) : isFinite a = true -> exists r, a = Fin r.
Proof. destruct a; simpl; try discriminate. intros _. now exists r. Qed.

(** Sums of squares and their roots. *)
Lemma sumsq_nonneg (a b : R) : 0 <= a * a + b * b.
Proof. nra. Qed.

Lemma sumsq_pos (a b : R) : a <> 0 \/ b <> 0 -> 0 < a * a + b * b.
Proof. intros [H | H]; nra. Qed.

Lemma sqrt_sumsq_pos (a b : R) : a <> 0 \/ b <> 0 -> 0 < sqrt (a * a + b * b).
Proof. intros H. apply sqrt_lt_R0. now apply sumsq_pos. Qed.

Lemma sqrt_sumsq_sq (a b : R) :
  sqrt (a * a + b * b) * sqrt (a * a + b * b) = a * a + b * b.
Proof. apply sqrt_sqrt, sumsq_nonneg. Qed.

End NumFacts.

(* ================================================================== *)
(** * [Math.min] and [Math.max] over a list *)

Section MinMax.

Local Open Scope R_scope.

Lemma nle_refl (a : num) : isNaN a = false -> nle a a = true.
Proof. destruct a; simpl; intros; try easy. apply Rleb_true; lra. Qed.

Lemma nle_trans (a b c : num) :
  nle a b = true -> nle b c = true -> nle a c = true.
Proof.
  destruct a, b, c; simpl; try easy.
  rewrite !Rleb_true. lra.
Qed.

Lemma min2_spec (a b : num) :
  isNaN a = false -> isNaN b = false ->
  isNaN (min2 a b) = false /\ nle (min2 a b) a = true /\
  nle (min2 a b) b = true /\ (min2 a b = a \/ min2 a b = b).
Proof.
  destruct a as [x| | |], b as [y| | |]; simpl; try easy; intros _ _;
    try (destruct (Rltb y x) eqn:E; simpl;
         [apply Rltb_true in E | apply Rltb_false in E]);
    rewrite ?Rleb_true; repeat split; auto; lra.
Qed.

Lemma max2_spec (a b : num) :
  isNaN a = false -> isNaN b = false ->
  isNaN (max2 a b) = false /\ nle a (max2 a b) = true /\
  nle b (max2 a b) = true /\ (max2 a b = a \/ max2 a b = b).
Proof.
  destruct a as [x| | |], b as [y| | |]; simpl; try easy; intros _ _;
    try (destruct (Rltb x y) eqn:E; simpl;
         [apply Rltb_true in E | apply Rltb_false in E]);
    rewrite ?Rleb_true; repeat split; auto; lra.
Qed.

Lemma min2_NaN_r (a : num) : min2 a NaN = NaN.
Proof. now destruct a. Qed.

Lemma max2_NaN_r (a : num) : max2 a NaN = NaN.
Proof. now destruct a. Qed.

Lemma fold_min2_NaN (l : list num) : fold_left min2 l NaN = NaN.
Proof. induction l; simpl; auto. Qed.

Lemma fold_max2_NaN (l : list num) : fold_left max2 l NaN = NaN.
Proof. induction l; simpl; auto. Qed.

(** One [NaN] among the arguments makes the result [NaN]. *)
Lemma fold_min2_In_NaN (l : list num) (acc : num) :
  In NaN l -> fold_left min2 l acc = NaN.
Proof.
  revert acc. induction l as [|a l IH]; simpl; intros acc H; [easy|].
  destruct H as [-> | H].
  - rewrite min2_NaN_r. apply fold_min2_NaN.
  - now apply IH.
Qed.

Lemma fold_max2_In_NaN (l : list num) (acc : num) :
  In NaN l -> fold_left max2 l acc = NaN.
Proof.
  revert acc. induction l as [|a l IH]; simpl; intros acc H; [easy|].
  destruct H as [-> | H].
  - rewrite max2_NaN_r. apply fold_max2_NaN.
  - now apply IH.
Qed.

(** Without a [NaN], the result is a lower bound that is attained. *)
Lemma fold_min2_spec (l : list num) (acc : num) :
  isNaN acc = false -> (forall a, In a l -> isNaN a = false) ->
  let m := fold_left min2 l acc in
  isNaN m = false /\ nle m acc = true /\
  (forall a, In a l -> nle m a = true) /\ (m = acc \/ In m l).
Proof.
  revert acc. induction l as [|a l IH]; simpl; intros acc Hacc Hl.
  - repeat split; auto. now apply nle_refl.
  - assert (Ha : isNaN a = false) by (apply Hl; auto).
    destruct (min2_spec acc a Hacc Ha) as (H1 & H2 & H3 & H4).
    destruct (IH (min2 acc a) H1 (fun b Hb => Hl b (or_intror Hb)))
      as (I1 & I2 & I3 & I4).
    repeat split; auto.
    + eapply nle_trans; eauto.
    + intros b [<- | Hb]; [eapply nle_trans; eauto | auto].
    + destruct I4 as [I4 | I4]; [|auto].
      rewrite I4. destruct H4 as [-> | ->]; auto.
Qed.

Lemma fold_max2_spec (l : list num) (acc : num) :
  isNaN acc = false -> (forall a, In a l -> isNaN a = false) ->
  let m := fold_left max2 l acc in
  isNaN m = false /\ nle acc m = true /\
  (forall a, In a l -> nle a m = true) /\ (m = acc \/ In m l).
Proof.
  revert acc. induction l as [|a l IH]; simpl; intros acc Hacc Hl.
  - repeat split; auto. now apply nle_refl.
  - assert (Ha : isNaN a = false) by (apply Hl; auto).
    destruct (max2_spec acc a Hacc Ha) as (H1 & H2 & H3 & H4).
    destruct (IH (max2 acc a) H1 (fun b Hb => Hl b (or_intror Hb)))
      as (I1 & I2 & I3 & I4).
    repeat split; auto.
    + eapply nle_trans; eauto.
    + intros b [<- | Hb]; [eapply nle_trans; eauto | auto].
    + destruct I4 as [I4 | I4]; [|auto].
      rewrite I4. destruct H4 as [-> | ->]; auto.
Qed.

Lemma In_NaN_dec (l : list num) :
  In NaN l \/ (forall a, In a l -> isNaN a = false).
Proof.
  induction l as [|a l [IH | IH]]; simpl.
  - right. easy.
  - left. auto.
  - destruct a; [right | right | right | left; auto];
      intros b [<- | Hb]; auto.
Qed.

Lemma min_max_between (l : list num) (a : num) :
  In a l -> between (Math_min l) (Math_max l) a.
Proof.
  intros Ha. unfold Math_min, Math_max.
  destruct (In_NaN_dec l) as [H | H].
  - left. split; [now apply fold_min2_In_NaN | now apply fold_max2_In_NaN].
  - right.
    destruct (fold_min2_spec l PInf eq_refl H) as (A1 & _ & A3 & _).
    destruct (fold_max2_spec l NInf eq_refl H) as (B1 & _ & B3 & _).
    repeat split; auto.
Qed.

(** Over finite arguments with [min < max], both bounds are finite. *)
Lemma min_max_finite (l : list num) :
  (forall a, In a l -> isFinite a = true) ->
  nlt (Math_min l) (Math_max l) = true ->
  exists mn mx, Math_min l = Fin mn /\ Math_max l = Fin mx /\ mn < mx /\
    forall a, In a l -> exists r, a = Fin r /\ mn <= r <= mx.
Proof.
  intros Hfin Hlt.
  assert (H : forall a, In a l -> isNaN a = false).
  { intros a Ha. apply Hfin in Ha. now destruct a. }
  unfold Math_min, Math_max in *.
  destruct (fold_min2_spec l PInf eq_refl H) as (A1 & _ & A3 & A4).
  destruct (fold_max2_spec l NInf eq_refl H) as (B1 & _ & B3 & B4).
  destruct A4 as [A4 | A4];
    [rewrite A4 in Hlt; destruct (fold_left max2 l NInf); simpl in Hlt;
     discriminate|].
  destruct B4 as [B4 | B4];
    [rewrite B4 in Hlt; destruct (fold_left min2 l PInf); simpl in Hlt;
     discriminate|].
  apply Hfin, isFinite_Fin in A4. destruct A4 as [mn Emn].
  apply Hfin, isFinite_Fin in B4. destruct B4 as [mx Emx].
  rewrite Emn, Emx in *. exists mn, mx. repeat split; auto.
  - now apply nlt_Fin.
  - intros a Ha. destruct (isFinite_Fin _ (Hfin a Ha)) as [r ->].
    exists r. split; auto.
    specialize (A3 _ Ha). specialize (B3 _ Ha).
    apply nle_Fin in A3. apply nle_Fin in B3. lra.
Qed.

End MinMax.

(* ================================================================== *)
(** * The projection of one coordinate *)

Section Projection.

Local Open Scope R_scope.

Lemma ratio_range (t d : R) : 0 <= t <= d -> 0 < d -> 0 <= t / d <= 1.
Proof.
  intros Ht Hd. unfold Rdiv.
  assert (H1 : 0 < / d) by now apply Rinv_0_lt_compat.
  assert (H2 : d * / d = 1) by (field; lra).
  split; nra.
Qed.

(** The horizontal formula, [pad + ((a - mn) / (mx - mn)) * span], is [NaN]
    or a finite number of [[pad, pad + span]]. *)
Lemma axis_low_range (p s : R) (a mn mx : num) :
  0 <= s -> between mn mx a ->
  let v := (Fin p + ((a - mn) / (mx - mn)) * Fin s)%js in
  v = NaN \/ inRange p (p + s) v.
Proof.
  intros Hs [[-> ->] | (Ha & Hmn & Hmx & L1 & L2)].
  - left. now destruct a.
  - destruct a as [x| | |], mn as [m| | |], mx as [M| | |];
      simpl in *; try discriminate; auto.
    + apply Rleb_true in L1, L2.
      destruct (Rzerob (M - m)) eqn:Z.
      * apply Rzerob_true in Z.
        assert (Z' : Rzerob (x - m) = true) by (apply Rzerob_true; lra).
        rewrite Z'. auto.
      * apply Rzerob_false in Z. right. simpl.
        exists (p + (x - m) / (M - m) * s). split; auto.
        assert (0 <= (x - m) / (M - m) <= 1) by (apply ratio_range; lra).
        nra.
    + right. simpl. exists (p + 0 * s). split; auto. lra.
Qed.

(** The vertical formula, [pad + ((mx - a) / (mx - mn)) * span], likewise. *)
Lemma axis_high_range (p s : R) (a mn mx : num) :
  0 <= s -> between mn mx a ->
  let v := (Fin p + ((mx - a) / (mx - mn)) * Fin s)%js in
  v = NaN \/ inRange p (p + s) v.
Proof.
  intros Hs [[-> ->] | (Ha & Hmn & Hmx & L1 & L2)].
  - left. now destruct a.
  - destruct a as [x| | |], mn as [m| | |], mx as [M| | |];
      simpl in *; try discriminate; auto.
    + apply Rleb_true in L1, L2.
      destruct (Rzerob (M - m)) eqn:Z.
      * apply Rzerob_true in Z.
        assert (Z' : Rzerob (M - x) = true) by (apply Rzerob_true; lra).
        rewrite Z'. auto.
      * apply Rzerob_false in Z. right. simpl.
        exists (p + (M - x) / (M - m) * s). split; auto.
        assert (0 <= (M - x) / (M - m) <= 1) by (apply ratio_range; lra).
        nra.
    + right. simpl. exists (p + 0 * s). split; auto. lra.
Qed.

(** The replacement of a [NaN] coordinate:
    [isNaN(v) ? Math.random() * span + pad : v]. *)
Lemma nan_fallback_range (src : nat -> R) (p s : R) (v : num) (k : nat) :
  unitStream src -> 0 <= s ->
  v = NaN \/ inRange p (p + s) v ->
  inRange p (p + s)
    (fst ((if isNaN v then
             r <- Math_random src ;; ret (r * Fin s + Fin p)%js
           else ret v) k)).
Proof.
  intros Hsrc Hs [-> | (r & -> & Hr)]; simpl.
  - exists (src k * s + p). split; auto. specialize (Hsrc k). nra.
  - now exists r.
Qed.

End Projection.

(* ================================================================== *)
(** * [bind] and [mapM] *)

Lemma bind_run {A B : Type} (m : Rand A) (f : A -> Rand B) (k : nat) :
  bind m f k = f (fst (m k)) (snd (m k)).
Proof. unfold bind. now destruct (m k). Qed.

Section MapM.

Context {A B : Type}.

Lemma mapM_cons (f : A -> Rand B) (a : A) (l : list A) (k : nat) :
  mapM f (a :: l) k =
  (fst (f a k) :: fst (mapM f l (snd (f a k))), snd (mapM f l (snd (f a k)))).
Proof.
  simpl. unfold bind, ret.
  destruct (f a k) as [b k1]. simpl.
  destruct (mapM f l k1) as [bs k2]. reflexivity.
Qed.

(** Every element of the result is the image of an element of the list, at
    some position of the stream. *)
Lemma mapM_Forall (f : A -> Rand B) (P : B -> Prop) (l : list A) :
  (forall a k, In a l -> P (fst (f a k))) ->
  forall k, Forall P (fst (mapM f l k)).
Proof.
  induction l as [|a l IH]; intros H k.
  - constructor.
  - rewrite mapM_cons. simpl. constructor.
    + apply H. now left.
    + apply IH. intros b k' Hb. apply H. now right.
Qed.

Lemma mapM_Forall2 (f : A -> Rand B) (Q : A -> B -> Prop) (l : list A) :
  (forall a k, In a l -> Q a (fst (f a k))) ->
  forall k, Forall2 Q l (fst (mapM f l k)).
Proof.
  induction l as [|a l IH]; intros H k.
  - constructor.
  - rewrite mapM_cons. simpl. constructor.
    + apply H. now left.
    + apply IH. intros b k' Hb. apply H. now right.
Qed.

End MapM.

(* ================================================================== *)
(** * Projected coordinates are finite and inside the padded rectangle *)

Section ProjectionBounds.

Local Open Scope R_scope.

Variable src : nat -> R.
Hypothesis src_unit : unitStream src.

Lemma inRange_weaken (lo hi lo' hi' : R) (a : num) :
  lo' <= lo -> hi <= hi' -> inRange lo hi a -> inRange lo' hi' a.
Proof. intros H1 H2 (r & -> & Hr). exists r. split; auto. lra. Qed.

Lemma advanced_newCanvasNode_bounds (minLat maxLat minLng maxLng : num)
    (node : Input.NetworkNode.t) (k : nat) :
  between minLat maxLat (Input.NetworkNode.lat node) ->
  between minLng maxLng (Input.NetworkNode.lng node) ->
  advancedInBounds
    (fst (Advanced.newCanvasNode src minLat maxLat minLng maxLng node k)).
Proof.
  intros Hlat Hlng. unfold Advanced.newCanvasNode.
  destruct ((maxLng === minLng) || (maxLat === minLat))%js eqn:Deg.
  - (* the random placement around the centre *)
    unfold bind, ret, Math_random, advancedInBounds. simpl.
    assert (Z : Rzerob 2 = false) by (apply Rzerob_false; lra).
    rewrite Z. simpl.
    pose proof (src_unit k) as H1. pose proof (src_unit (S k)) as H2.
    split; eexists; (split; [reflexivity | lra]).
  - unfold Advanced.padding, Advanced.canvasWidth, Advanced.canvasHeight.
    change (Fin 800 - Fin 2 * Fin 60)%js with (Fin (800 - 2 * 60)).
    change (Fin 600 - Fin 2 * Fin 60)%js with (Fin (600 - 2 * 60)).
    pose proof (@axis_low_range 60 (800 - 2 * 60) (Input.NetworkNode.lng node)
                  minLng maxLng ltac:(lra) Hlng) as Hx.
    pose proof (@axis_high_range 60 (600 - 2 * 60) (Input.NetworkNode.lat node)
                  minLat maxLat ltac:(lra) Hlat) as Hy.
    cbv zeta in Hx, Hy.
    rewrite !bind_run. unfold ret at 1 2. cbn [fst snd].
    set (vx := (Fin 60 + _ * Fin (800 - 2 * 60))%js) in *.
    set (vy := (Fin 60 + _ * Fin (600 - 2 * 60))%js) in *.
    change (ret (vx, vy) k) with ((vx, vy), k). cbn [fst snd].
    unfold advancedInBounds.
    cbn [Advanced.CanvasNode.x Advanced.CanvasNode.y].
    split.
    + eapply inRange_weaken;
        [| |apply (@nan_fallback_range src 60 (800 - 2 * 60) vx k src_unit);
            [lra | exact Hx]]; lra.
    + eapply inRange_weaken;
        [| |apply (@nan_fallback_range src 60 (600 - 2 * 60) vy _ src_unit);
            [lra | exact Hy]]; lra.
Qed.

Lemma basic_networkNode_bounds (minLat maxLat minLng maxLng : num)
    (node : Input.NetworkNode.t) (k : nat) :
  between minLat maxLat (Input.NetworkNode.lat node) ->
  between minLng maxLng (Input.NetworkNode.lng node) ->
  basicInBounds
    (fst (Basic.networkNode src minLat maxLat minLng maxLng node k)).
Proof.
  intros Hlat Hlng. unfold Basic.networkNode.
  unfold Basic.padding, Basic.canvasWidth, Basic.canvasHeight.
  change (Fin 800 - Fin 2 * Fin 50)%js with (Fin (800 - 2 * 50)).
  change (Fin 600 - Fin 2 * Fin 50)%js with (Fin (600 - 2 * 50)).
  pose proof (@axis_low_range 50 (800 - 2 * 50) (Input.NetworkNode.lng node)
                minLng maxLng ltac:(lra) Hlng) as Hx.
  pose proof (@axis_high_range 50 (600 - 2 * 50) (Input.NetworkNode.lat node)
                minLat maxLat ltac:(lra) Hlat) as Hy.
  cbv zeta in Hx, Hy. cbv zeta.
  set (vx := (Fin 50 + _ * Fin (800 - 2 * 50))%js) in *.
  set (vy := (Fin 50 + _ * Fin (600 - 2 * 50))%js) in *.
  rewrite !bind_run. unfold ret at 3. cbn [fst snd].
  unfold basicInBounds.
  cbn [Basic.NetworkNode.x Basic.NetworkNode.y].
  split.
  - eapply inRange_weaken;
      [| |apply (@nan_fallback_range src 50 (800 - 2 * 50) vx k src_unit);
          [lra | exact Hx]]; lra.
  - eapply inRange_weaken;
      [| |apply (@nan_fallback_range src 50 (600 - 2 * 50) vy _ src_unit);
          [lra | exact Hy]]; lra.
Qed.

Lemma advanced_newCanvasNodes_bounds (inputNodes : list Input.NetworkNode.t)
    (k : nat) :
  Forall advancedInBounds (fst (Advanced.newCanvasNodes src inputNodes k)).
Proof.
  unfold Advanced.newCanvasNodes. apply mapM_Forall. intros a k' Ha.
  apply advanced_newCanvasNode_bounds; apply min_max_between;
    now apply in_map.
Qed.

Lemma basic_networkNodes_bounds (inputNodes : list Input.NetworkNode.t)
    (k : nat) :
  Forall basicInBounds (fst (Basic.networkNodes src inputNodes k)).
Proof.
  unfold Basic.networkNodes. apply mapM_Forall. intros a k' Ha.
  apply basic_networkNode_bounds; apply min_max_between;
    now apply in_map.
Qed.

End ProjectionBounds.
(* ================================================================== *)
(** * Runs of the two components *)

Section Invariants.

Variable src : nat -> R.

(** A property that mounting establishes and every event preserves holds
    after every run. *)
Lemma advanced_run_invariant (P : Advanced.State -> Prop) :
  (forall ev st k, P st -> P (fst (Advanced.step src ev st k))) ->
  forall evs st k, P st -> P (fst (Advanced.run src evs st k)).
Proof.
  intros Hstep. induction evs as [|ev evs IH]; intros st k H.
  - exact H.
  - simpl. rewrite bind_run. apply IH, Hstep, H.
Qed.

Lemma advanced_after_invariant (P : Advanced.State -> Prop) :
  (forall ns rs k, P (fst (Advanced.mount src ns rs k))) ->
  (forall ev st k, P st -> P (fst (Advanced.step src ev st k))) ->
  forall ns rs evs k, P (advancedAfter src ns rs evs k).
Proof.
  intros Hmount Hstep ns rs evs k. unfold advancedAfter.
  rewrite bind_run. apply advanced_run_invariant; auto.
Qed.

(** With the events restricted by [ok]. *)
Lemma basic_after_invariant (ok : Basic.Event -> Prop)
    (P : Basic.State -> Prop) :
  (forall ns rs k, P (fst (Basic.mount src ns rs k))) ->
  (forall ev st k, ok ev -> P st -> P (fst (Basic.step src ev st k))) ->
  forall ns rs evs k, Forall ok evs -> P (basicAfter src ns rs evs k).
Proof.
  intros Hmount Hstep ns rs evs k Hok. unfold basicAfter.
  rewrite bind_run.
  generalize (Hmount ns rs k).
  generalize (fst (Basic.mount src ns rs k)) (snd (Basic.mount src ns rs k)).
  induction Hok as [|ev evs Hev Hevs IH]; intros st k' H.
  - exact H.
  - simpl. rewrite bind_run. apply IH, Hstep; auto.
Qed.

(** A run with one more event at its end. *)
Lemma advanced_after_snoc (ns : list Input.NetworkNode.t)
    (rs : list Input.NetworkRoute.t) (evs : list Advanced.Event)
    (ev : Advanced.Event) (k : nat) :
  exists k',
    advancedAfter src ns rs (evs ++ [ev])%list k =
    fst (Advanced.step src ev (advancedAfter src ns rs evs k) k').
Proof.
  unfold advancedAfter. rewrite !bind_run.
  generalize (fst (Advanced.mount src ns rs k))
             (snd (Advanced.mount src ns rs k)).
  induction evs as [|e evs IH]; intros st k0; cbn [app Advanced.run].
  - rewrite bind_run. cbn [Advanced.run ret fst]. now exists k0.
  - rewrite !bind_run. apply IH.
Qed.

Lemma basic_after_snoc (ns : list Input.NetworkNode.t)
    (rs : list Input.NetworkRoute.t) (evs : list Basic.Event)
    (ev : Basic.Event) (k : nat) :
  exists k',
    basicAfter src ns rs (evs ++ [ev])%list k =
    fst (Basic.step src ev (basicAfter src ns rs evs k) k').
Proof.
  unfold basicAfter. rewrite !bind_run.
  generalize (fst (Basic.mount src ns rs k)) (snd (Basic.mount src ns rs k)).
  induction evs as [|e evs IH]; intros st k0; cbn [app Basic.run].
  - rewrite bind_run. cbn [Basic.run ret fst]. now exists k0.
  - rewrite !bind_run. apply IH.
Qed.

(** The handlers and the flag effects leave the geometry of the nodes
    alone. *)
Lemma sameGeometry_refl (l : list Advanced.CanvasNode.t) :
  Forall2 sameGeometry l l.
Proof. induction l; constructor; auto. repeat split. Qed.

Lemma advanced_handle_nodes (ev : Advanced.Event) (st : Advanced.State) :
  Advanced.canvasNodes (Advanced.handle ev st) = Advanced.canvasNodes st.
Proof.
  destruct ev; simpl; auto;
    unfold Advanced.handleClick, Advanced.handleMouseMove;
    destruct (canvasRect e); auto;
    destruct (find _ _); reflexivity.
Qed.

Lemma advanced_handle_routes (ev : Advanced.Event) (st : Advanced.State) :
  Advanced.canvasRoutes (Advanced.handle ev st) = Advanced.canvasRoutes st.
Proof.
  destruct ev; simpl; auto;
    unfold Advanced.handleClick, Advanced.handleMouseMove;
    destruct (canvasRect e); auto;
    destruct (find _ _); reflexivity.
Qed.

Lemma updateNodeSelection_geometry (st : Advanced.State) :
  Forall2 sameGeometry (Advanced.canvasNodes st)
    (Advanced.canvasNodes (Advanced.updateNodeSelection st)).
Proof.
  simpl. induction (Advanced.canvasNodes st); simpl; constructor; auto.
  repeat split.
Qed.

Lemma runEffects_geometry (old new : Advanced.State) :
  Forall2 sameGeometry (Advanced.canvasNodes new)
    (Advanced.canvasNodes (Advanced.runEffects old new)).
Proof.
  unfold Advanced.runEffects.
  destruct (eqOptString (Advanced.selectedRouteId old) _);
    destruct (_ && _); simpl;
    try apply sameGeometry_refl;
    apply (updateNodeSelection_geometry new).
Qed.

Lemma sameGeometry_bounds (l l' : list Advanced.CanvasNode.t) :
  Forall2 sameGeometry l l' ->
  Forall advancedInBounds l -> Forall advancedInBounds l'.
Proof.
  induction 1 as [|n m l l' H _ IH]; intros HF; constructor;
    inversion HF; subst; auto.
  destruct H as (_ & _ & Hx & Hy & _).
  unfold advancedInBounds in *. now rewrite <- Hx, <- Hy.
Qed.

End Invariants.
(* ================================================================== *)
(** * No non-finite coordinate in the scene *)

Section FiniteScene.

Local Open Scope R_scope.

Variable src : nat -> R.
Hypothesis src_unit : unitStream src.

Lemma advanced_initEffect_nodes (ns : list Input.NetworkNode.t)
    (rs : list Input.NetworkRoute.t) (st : Advanced.State) (k : nat) :
  Advanced.canvasNodes (fst (Advanced.initEffect src ns rs st k)) =
  match ns with
  | [] => Advanced.canvasNodes st
  | _ :: _ => fst (Advanced.newCanvasNodes src ns k)
  end.
Proof.
  unfold Advanced.initEffect. destruct ns as [|n ns]; [reflexivity|].
  cbn [List.length Nat.eqb]. rewrite bind_run. reflexivity.
Qed.

Lemma advanced_initEffect_bounds (ns : list Input.NetworkNode.t)
    (rs : list Input.NetworkRoute.t) (st : Advanced.State) (k : nat) :
  Forall advancedInBounds (Advanced.canvasNodes st) ->
  Forall advancedInBounds
    (Advanced.canvasNodes (fst (Advanced.initEffect src ns rs st k))).
Proof.
  intros H. rewrite advanced_initEffect_nodes. destruct ns; auto.
  now apply advanced_newCanvasNodes_bounds.
Qed.

Lemma advanced_mount_bounds (ns : list Input.NetworkNode.t)
    (rs : list Input.NetworkRoute.t) (k : nat) :
  Forall advancedInBounds
    (Advanced.canvasNodes (fst (Advanced.mount src ns rs k))).
Proof.
  unfold Advanced.mount. rewrite bind_run. unfold ret. cbn [fst].
  eapply sameGeometry_bounds.
  - apply (updateNodeSelection_geometry
             (fst (Advanced.initEffect src ns rs Advanced.initialState k))).
  - apply advanced_initEffect_bounds. constructor.
Qed.

Lemma advanced_step_bounds (ev : Advanced.Event) (st : Advanced.State)
    (k : nat) :
  Forall advancedInBounds (Advanced.canvasNodes st) ->
  Forall advancedInBounds
    (Advanced.canvasNodes (fst (Advanced.step src ev st k))).
Proof.
  intros H.
  assert (G : Forall advancedInBounds
                (Advanced.canvasNodes
                   (Advanced.runEffects st (Advanced.handle ev st)))).
  { eapply sameGeometry_bounds; [apply runEffects_geometry|].
    now rewrite advanced_handle_nodes. }
  destruct ev; try exact G.
  simpl. now apply advanced_initEffect_bounds.
Qed.

(** In every state [AdvancedNetworkTopology] reaches, every node lies in
    the padded rectangle. *)
Lemma advanced_reachable_bounds (ns : list Input.NetworkNode.t)
    (rs : list Input.NetworkRoute.t) (evs : list Advanced.Event) (k : nat) :
  Forall advancedInBounds
    (Advanced.canvasNodes (advancedAfter src ns rs evs k)).
Proof.
  apply (advanced_after_invariant src
           (fun st => Forall advancedInBounds (Advanced.canvasNodes st))).
  - apply advanced_mount_bounds.
  - apply advanced_step_bounds.
Qed.

(** ** The variant with dragging *)

Lemma basicInBounds_finite (n : Basic.NetworkNode.t) :
  basicInBounds n -> basicFiniteNode n.
Proof. intros [(x & Hx & _) (y & Hy & _)]. split; [now rewrite Hx | now rewrite Hy]. Qed.

Lemma isFinite_sub (a b : num) :
  isFinite a = true -> isFinite b = true -> isFinite (a - b)%js = true.
Proof. now destruct a, b. Qed.

Lemma isFinite_div_pos (a : num) (z : R) :
  isFinite a = true -> 0 < z -> isFinite (a / Fin z)%js = true.
Proof.
  destruct a; try discriminate. intros _ Hz.
  rewrite ndiv_Fin by lra. reflexivity.
Qed.

Lemma basic_getMousePos_finite (e : MouseEvent) (st : Basic.State) :
  finiteEvent e -> basicFiniteState st ->
  finitePoint (Basic.getMousePos e st).
Proof.
  intros (Hx & Hy & Hr) (_ & (z & Hz & Hpos) & (Hpx & Hpy) & _).
  unfold Basic.getMousePos. destruct (canvasRect e) as [rect|].
  - destruct (Hr rect eq_refl) as [Hl Ht]. rewrite Hz. split; simpl;
      apply isFinite_div_pos; auto; repeat apply isFinite_sub; auto.
  - split; reflexivity.
Qed.

Lemma Forall_map_same {A : Type} (P : A -> Prop) (f : A -> A) (l : list A) :
  (forall a, In a l -> P a -> P (f a)) -> Forall P l -> Forall P (map f l).
Proof.
  intros Hf H. apply Forall_forall. intros b Hb.
  apply in_map_iff in Hb. destruct Hb as (a & <- & Ha).
  apply Hf; auto. rewrite Forall_forall in H. auto.
Qed.

Lemma basic_initEffect_finite (ns : list Input.NetworkNode.t)
    (rs : list Input.NetworkRoute.t) (st : Basic.State) (k : nat) :
  basicFiniteState st ->
  basicFiniteState (fst (Basic.initEffect src ns rs st k)).
Proof.
  intros H. unfold Basic.initEffect. destruct ns as [|n ns]; [exact H|].
  cbn [List.length Nat.eqb]. rewrite bind_run. unfold ret. cbn [fst].
  destruct H as (_ & Hz & Hp & Hd). split; [|auto].
  cbn [Basic.nodes Basic.setRoutes Basic.setNodes].
  eapply Forall_impl; [apply basicInBounds_finite|].
  now apply basic_networkNodes_bounds.
Qed.

Lemma basic_initialState_finite : basicFiniteState Basic.initialState.
Proof.
  repeat split; simpl; auto. exists 1. split; auto. lra.
Qed.

Lemma basic_zoomIn_positive (z : R) :
  0 < z -> exists z', Math_min [(Fin z * Fin 1.2)%js; Fin 3] = Fin z' /\ 0 < z'.
Proof.
  intros Hz. unfold Math_min. simpl.
  destruct (Rltb 3 (z * 1.2)); eexists; (split; [reflexivity | lra]).
Qed.

Lemma basic_zoomOut_positive (z : R) :
  0 < z -> exists z', Math_max [(Fin z / Fin 1.2)%js; Fin 0.3] = Fin z' /\ 0 < z'.
Proof.
  intros Hz. unfold Math_max. rewrite ndiv_Fin by lra. simpl.
  destruct (Rltb (z / 1.2) 0.3) eqn:E; eexists; (split; [reflexivity|]).
  - lra.
  - apply Rltb_false in E. lra.
Qed.

Lemma basic_step_finite (ev : Basic.Event) (st : Basic.State) (k : nat) :
  basicFiniteEvent ev -> basicFiniteState st ->
  basicFiniteState (fst (Basic.step src ev st k)).
Proof.
  intros Hev H.
  destruct ev; simpl in Hev; cbn [Basic.step Basic.handle ret fst];
    try exact H;
    try (now apply basic_initEffect_finite);
    try (destruct H as (Hn & Hz & Hp & Hd); split; [|split; [|split]];
         simpl; now auto).
  - (* mouse down *)
    pose proof (basic_getMousePos_finite Hev H) as [Mx My].
    destruct H as (Hn & Hz & Hp & Hd).
    unfold Basic.handleMouseDown.
    destruct (find _ (Basic.nodes st)) as [c|] eqn:F.
    + apply find_some in F. destruct F as [Hin _].
      assert (Hc : basicFiniteNode c).
      { rewrite Forall_forall in Hn. auto. }
      destruct Hc as [Cx Cy].
      split; [|split; [|split]]; simpl; auto.
      * apply Forall_map_same; auto.
      * split; simpl; now apply isFinite_sub.
    + split; [|split; [|split]]; simpl; auto.
      apply Forall_map_same; auto.
  - (* mouse move *)
    pose proof (basic_getMousePos_finite Hev H) as [Mx My].
    assert (H' := H). destruct H' as (Hn & Hz & Hp & Hd).
    unfold Basic.handleMouseMove.
    destruct (Basic.isDragging st); [|exact H].
    destruct (Basic.selectedNode st) as [sel|]; [|exact H].
    split; [|split; [|split]]; simpl; auto.
    apply Forall_map_same; auto.
    intros a _ Ha. destruct (String.eqb _ _); auto.
    destruct Hd as [Dx Dy]. split; simpl; now apply isFinite_sub.
  - (* zoom in *)
    destruct H as (Hn & (z & Ez & Hz) & Hp & Hd).
    unfold Basic.handleZoomIn. rewrite Ez.
    split; [|split; [|split]]; simpl; auto.
    apply (basic_zoomIn_positive Hz).
  - (* zoom out *)
    destruct H as (Hn & (z & Ez & Hz) & Hp & Hd).
    unfold Basic.handleZoomOut. rewrite Ez.
    split; [|split; [|split]]; simpl; auto.
    apply (basic_zoomOut_positive Hz).
  - (* reset *)
    destruct H as (Hn & Hz & Hp & Hd).
    split; [|split; [|split]]; simpl; auto.
    + apply Forall_map_same; auto.
    + exists 1. split; auto. lra.
    + split; reflexivity.
Qed.

(** In every state [NetworkTopologyVisualization] reaches by events with
    finite pointer coordinates, every node has finite coordinates. *)
Lemma basic_reachable_finite (ns : list Input.NetworkNode.t)
    (rs : list Input.NetworkRoute.t) (evs : list Basic.Event) (k : nat) :
  Forall basicFiniteEvent evs ->
  Forall basicFiniteNode (Basic.nodes (basicAfter src ns rs evs k)).
Proof.
  intros Hevs.
  assert (H : basicFiniteState (basicAfter src ns rs evs k)).
  { apply (@basic_after_invariant src basicFiniteEvent basicFiniteState);
      auto.
    - intros. apply basic_initEffect_finite, basic_initialState_finite.
    - intros. now apply basic_step_finite. }
  apply H.
Qed.

End FiniteScene.


(* ================================================================== *)
(** * The projection on a node set with spread on both axes *)

Section SpreadProjection.

Local Open Scope R_scope.

Variable src : nat -> R.

Lemma specX_range (pad W mn mx lng : R) :
  mn < mx -> mn <= lng <= mx -> 0 <= W - 2 * pad ->
  pad <= specX pad W mn mx lng <= W - pad.
Proof.
  intros H1 H2 H3. unfold specX.
  assert (0 <= (lng - mn) / (mx - mn) <= 1) by (apply ratio_range; lra).
  nra.
Qed.

Lemma specY_range (pad H mn mx lat : R) :
  mn < mx -> mn <= lat <= mx -> 0 <= H - 2 * pad ->
  pad <= specY pad H mn mx lat <= H - pad.
Proof.
  intros H1 H2 H3. unfold specY.
  assert (0 <= (mx - lat) / (mx - mn) <= 1) by (apply ratio_range; lra).
  nra.
Qed.

Lemma specY_decreasing (pad H mn mx lat1 lat2 : R) :
  mn < mx -> 0 < H - 2 * pad -> lat1 < lat2 ->
  specY pad H mn mx lat2 < specY pad H mn mx lat1.
Proof.
  intros H1 H2 H3. unfold specY, Rdiv.
  assert (0 < / (mx - mn)) by (apply Rinv_0_lt_compat; lra).
  assert ((mx - lat2) * / (mx - mn) < (mx - lat1) * / (mx - mn))
    by (apply Rmult_lt_compat_r; lra).
  nra.
Qed.

(** With finite bounds [minLng < maxLng] and [minLat < maxLat] the callback
    of [AdvancedNetworkTopology] computes the projection of the
    specification and draws no random number. *)
Lemma advanced_newCanvasNode_spread (m M n N lat lng : R)
    (node : Input.NetworkNode.t) (k : nat) :
  Input.NetworkNode.lat node = Fin lat -> Input.NetworkNode.lng node = Fin lng ->
  m < M -> n < N ->
  exists c,
    Advanced.newCanvasNode src (Fin m) (Fin M) (Fin n) (Fin N) node k = (c, k) /\
    Advanced.CanvasNode.x c = Fin (specX 60 800 n N lng) /\
    Advanced.CanvasNode.y c = Fin (specY 60 600 m M lat).
Proof.
  intros Elat Elng Hm Hn. unfold Advanced.newCanvasNode.
  rewrite Elat, Elng.
  assert (D1 : (Fin N === Fin n)%js = false) by (apply Reqb_false; lra).
  assert (D2 : (Fin M === Fin m)%js = false) by (apply Reqb_false; lra).
  rewrite D1, D2. cbn [orb].
  unfold Advanced.padding, Advanced.canvasWidth, Advanced.canvasHeight.
  cbn [nsub nmul nadd].
  rewrite (@ndiv_Fin (lng - n) (N - n)) by lra.
  rewrite (@ndiv_Fin (M - lat) (M - m)) by lra.
  cbn [nmul nadd]. rewrite !bind_run. unfold ret. cbn [fst snd isNaN].
  eexists. split; [reflexivity|]. split; reflexivity.
Qed.

Lemma basic_networkNode_spread (m M n N lat lng : R)
    (node : Input.NetworkNode.t) (k : nat) :
  Input.NetworkNode.lat node = Fin lat -> Input.NetworkNode.lng node = Fin lng ->
  m < M -> n < N ->
  exists c,
    Basic.networkNode src (Fin m) (Fin M) (Fin n) (Fin N) node k = (c, k) /\
    Basic.NetworkNode.x c = Fin (specX 50 800 n N lng) /\
    Basic.NetworkNode.y c = Fin (specY 50 600 m M lat).
Proof.
  intros Elat Elng Hm Hn. unfold Basic.networkNode.
  rewrite Elat, Elng.
  unfold Basic.padding, Basic.canvasWidth, Basic.canvasHeight.
  cbn [nsub nmul nadd].
  rewrite (@ndiv_Fin (lng - n) (N - n)) by lra.
  rewrite (@ndiv_Fin (M - lat) (M - m)) by lra.
  cbn [nmul nadd]. rewrite !bind_run. unfold ret. cbn [fst snd isNaN].
  eexists. split; [reflexivity|]. split; reflexivity.
Qed.

Lemma Forall2_nth (A B : Type) (Q : A -> B -> Prop) (l : list A)
    (l' : list B) :
  Forall2 Q l l' ->
  forall i a b, nth_error l i = Some a -> nth_error l' i = Some b -> Q a b.
Proof.
  induction 1 as [|x y l l' H _ IH]; intros [|i] a b Ha Hb;
    simpl in *; try discriminate.
  - now inversion Ha; inversion Hb; subst.
  - eauto.
Qed.

Lemma Forall2_Forall_r (A B : Type) (Q : A -> B -> Prop) (P : B -> Prop)
    (l : list A) (l' : list B) :
  Forall2 Q l l' -> (forall a b, Q a b -> P b) -> Forall P l'.
Proof. induction 1; intros HP; constructor; eauto. Qed.

Lemma projectedAs_northIsUp (N : Type) (xOf yOf : N -> num) (pad m M n' N' : R)
    (ns : list Input.NetworkNode.t) (out : list N) :
  m < M -> 0 < 600 - 2 * pad ->
  Forall2 (projectedAs xOf yOf pad m M n' N') ns out ->
  northIsUp yOf ns out.
Proof.
  intros Hm Hp HF i j ni nj oi oj Hi Hoi Hj Hoj Hlt.
  destruct (Forall2_nth HF _ Hi Hoi)
    as (lat1 & lng1 & E1 & _ & _ & _ & _ & Y1).
  destruct (Forall2_nth HF _ Hj Hoj)
    as (lat2 & lng2 & E2 & _ & _ & _ & _ & Y2).
  rewrite E1, E2 in Hlt. apply nlt_Fin in Hlt.
  rewrite Y1, Y2. apply nlt_Fin. now apply specY_decreasing.
Qed.

Section Spread.

Variable ns : list Input.NetworkNode.t.
Hypothesis finite_input :
  forall a, In a ns ->
    isFinite (Input.NetworkNode.lat a) = true /\ isFinite (Input.NetworkNode.lng a) = true.
Hypothesis lng_spread :
  nlt (Math_min (map Input.NetworkNode.lng ns)) (Math_max (map Input.NetworkNode.lng ns)) = true.
Hypothesis lat_spread :
  nlt (Math_min (map Input.NetworkNode.lat ns)) (Math_max (map Input.NetworkNode.lat ns)) = true.

Lemma spread_bounds :
  exists m M n N,
    Math_min (map Input.NetworkNode.lat ns) = Fin m /\ Math_max (map Input.NetworkNode.lat ns) = Fin M /\
    Math_min (map Input.NetworkNode.lng ns) = Fin n /\ Math_max (map Input.NetworkNode.lng ns) = Fin N /\
    m < M /\ n < N /\
    forall a, In a ns ->
      exists lat lng, Input.NetworkNode.lat a = Fin lat /\ Input.NetworkNode.lng a = Fin lng /\
        m <= lat <= M /\ n <= lng <= N.
Proof.
  destruct (@min_max_finite (map Input.NetworkNode.lat ns)) as (m & M & E1 & E2 & Hm & Hlat);
    auto.
  { intros a Ha. apply in_map_iff in Ha. destruct Ha as (b & <- & Hb).
    now apply finite_input. }
  destruct (@min_max_finite (map Input.NetworkNode.lng ns)) as (n & N & E3 & E4 & Hn & Hlng);
    auto.
  { intros a Ha. apply in_map_iff in Ha. destruct Ha as (b & <- & Hb).
    now apply finite_input. }
  exists m, M, n, N. repeat split; auto.
  intros a Ha.
  destruct (Hlat (Input.NetworkNode.lat a) (in_map _ _ _ Ha)) as (lat & El & Rl).
  destruct (Hlng (Input.NetworkNode.lng a) (in_map _ _ _ Ha)) as (lng & Eg & Rg).
  exists lat, lng. auto.
Qed.

Lemma advanced_spread_projected (k : nat) :
  exists m M n N, m < M /\ n < N /\
    Forall2 (projectedAs Advanced.CanvasNode.x Advanced.CanvasNode.y 60 m M n N)
      ns (fst (Advanced.newCanvasNodes src ns k)).
Proof.
  destruct spread_bounds as (m & M & n & N & E1 & E2 & E3 & E4 & Hm & Hn & Hin).
  exists m, M, n, N. split; [auto|]. split; [auto|].
  unfold Advanced.newCanvasNodes. rewrite E1, E2, E3, E4.
  apply mapM_Forall2. intros a k' Ha.
  destruct (Hin a Ha) as (lat & lng & El & Eg & Rl & Rg).
  destruct (@advanced_newCanvasNode_spread m M n N lat lng a k' El Eg Hm Hn)
    as (c & -> & Hx & Hy).
  exists lat, lng. simpl. auto 10.
Qed.

Lemma basic_spread_projected (k : nat) :
  exists m M n N, m < M /\ n < N /\
    Forall2 (projectedAs Basic.NetworkNode.x Basic.NetworkNode.y 50 m M n N)
      ns (fst (Basic.networkNodes src ns k)).
Proof.
  destruct spread_bounds as (m & M & n & N & E1 & E2 & E3 & E4 & Hm & Hn & Hin).
  exists m, M, n, N. split; [auto|]. split; [auto|].
  unfold Basic.networkNodes. rewrite E1, E2, E3, E4.
  apply mapM_Forall2. intros a k' Ha.
  destruct (Hin a Ha) as (lat & lng & El & Eg & Rl & Rg).
  destruct (@basic_networkNode_spread m M n N lat lng a k' El Eg Hm Hn)
    as (c & -> & Hx & Hy).
  exists lat, lng. simpl. auto 10.
Qed.

End Spread.

End SpreadProjection.


(* ================================================================== *)
(** * Hit-testing *)

Section Find.

Context {A : Type}.
Variable f : A -> bool.

(** [l.find(f)] returns the first element that satisfies [f]. *)
Lemma find_first (l : list A) (a : A) :
  find f l = Some a <->
  exists l1 l2, l = (l1 ++ a :: l2)%list /\ f a = true /\
                Forall (fun b => f b = false) l1.
Proof.
  split.
  - induction l as [|b l IH]; simpl; [discriminate|].
    destruct (f b) eqn:E.
    + intros [= ->]. exists [], l. auto.
    + intros H. destruct (IH H) as (l1 & l2 & -> & Ha & Hl1).
      exists (b :: l1), l2. auto.
  - intros (l1 & l2 & -> & Ha & Hl1).
    induction Hl1 as [|b l1 Hb _ IH]; simpl.
    + now rewrite Ha.
    + now rewrite Hb.
Qed.

Lemma find_none_iff (l : list A) :
  find f l = None <-> Forall (fun b => f b = false) l.
Proof.
  induction l as [|b l IH]; simpl.
  - split; auto.
  - destruct (f b) eqn:E.
    + split; [discriminate|]. intros H. inversion H; congruence.
    + rewrite IH. split; [auto|]. intros H. now inversion H.
Qed.

End Find.

Section HitTest.

Local Open Scope R_scope.

(** On finite numbers the callbacks of [find] test the distance between the
    pointer and the centre of the node against its radius. *)
Lemma advanced_hit_iff (c : Advanced.CanvasNode.t) (wx wy cx cy r : R) :
  Advanced.CanvasNode.x c = Fin cx -> Advanced.CanvasNode.y c = Fin cy ->
  Advanced.CanvasNode.radius c = Fin r ->
  Advanced.hit (Fin wx) (Fin wy) c = true <-> dist wx wy cx cy <= r.
Proof.
  intros Ex Ey Er. unfold Advanced.hit. rewrite Ex, Ey, Er.
  cbn [nsub nmul nadd]. rewrite sqrt_Fin by apply sumsq_nonneg.
  apply nle_Fin.
Qed.

Lemma basic_hit_iff (c : Basic.NetworkNode.t) (wx wy cx cy r : R) :
  Basic.NetworkNode.x c = Fin cx -> Basic.NetworkNode.y c = Fin cy ->
  Basic.NetworkNode.radius c = Fin r ->
  Basic.hit {| px := Fin wx; py := Fin wy |} c = true <->
  dist wx wy cx cy <= r.
Proof.
  intros Ex Ey Er. unfold Basic.hit. rewrite Ex, Ey, Er.
  cbn [px py nsub nmul nadd]. rewrite sqrt_Fin by apply sumsq_nonneg.
  apply nle_Fin.
Qed.

(** The pointer position of the renderer, on finite numbers. *)
Lemma advanced_pointer (e : MouseEvent) (rect : Point) (st : Advanced.State)
    (cx cy l t p q z : R) :
  clientX e = Fin cx -> clientY e = Fin cy ->
  rect = {| px := Fin l; py := Fin t |} ->
  Advanced.pan st = {| px := Fin p; py := Fin q |} ->
  Advanced.zoom st = Fin z -> z <> 0 ->
  Advanced.pointerX e rect st = Fin ((cx - l - p) / z) /\
  Advanced.pointerY e rect st = Fin ((cy - t - q) / z).
Proof.
  intros Ex Ey -> Ep Ez Hz. unfold Advanced.pointerX, Advanced.pointerY.
  rewrite Ex, Ey, Ep, Ez. cbn [px py nsub].
  now rewrite !ndiv_Fin.
Qed.

Lemma basic_pointer (e : MouseEvent) (st : Basic.State)
    (cx cy l t p q z : R) :
  clientX e = Fin cx -> clientY e = Fin cy ->
  canvasRect e = Some {| px := Fin l; py := Fin t |} ->
  Basic.pan st = {| px := Fin p; py := Fin q |} ->
  Basic.zoom st = Fin z -> z <> 0 ->
  Basic.getMousePos e st =
  {| px := Fin ((cx - l - p) / z); py := Fin ((cy - t - q) / z) |}.
Proof.
  intros Ex Ey Er Ep Ez Hz. unfold Basic.getMousePos.
  rewrite Er, Ex, Ey, Ep, Ez. cbn [px py nsub].
  now rewrite !ndiv_Fin.
Qed.

End HitTest.

Lemma find_firstMatch {A : Type} (f : A -> bool) (l : list A) :
  firstMatch f l (find f l).
Proof.
  destruct (find f l) as [c|] eqn:E; simpl.
  - now apply find_first.
  - now apply find_none_iff.
Qed.

Lemma dist_self (x y : R) : dist x y x y = 0%R.
Proof.
  unfold dist.
  replace ((x - x) * (x - x) + (y - y) * (y - y))%R with 0%R by ring.
  apply sqrt_0.
Qed.

(** C6.  The mouse handlers map the device point [(clientX - left,
    clientY - top)] to the world point [(device - pan) / zoom], the exact
    inverse of [pan + zoom * world], and the node they find is the first
    node of the list, in its order, whose centre is within its radius of
    that world point.  With zoom 2 and pan (100, 50) the device point
    (300, 150) is the world point (100, 50) and hits a node centred there;
    and the node found need not be the one with the nearest centre. *)
Theorem hit_test_inverse_transform_first_match :
  (forall (cx cy l t p q z : R) (e : MouseEvent),
     clientX e = Fin cx -> clientY e = Fin cy ->
     canvasRect e = Some {| px := Fin l; py := Fin t |} -> z <> 0%R ->
     let wx := ((cx - l - p) / z)%R in
     let wy := ((cy - t - q) / z)%R in
     ((p + z * wx = cx - l)%R /\ (q + z * wy = cy - t)%R) /\
     (forall st : Advanced.State,
        Advanced.pan st = {| px := Fin p; py := Fin q |} ->
        Advanced.zoom st = Fin z ->
        exists res,
          firstMatch (Advanced.hit (Fin wx) (Fin wy))
            (Advanced.canvasNodes st) res /\
          Advanced.hoveredNodeId (Advanced.handleMouseMove e st) =
            option_map Advanced.CanvasNode.id res /\
          Advanced.handleClick e st =
            match res with
            | Some c => Advanced.handleNodeClick (Advanced.CanvasNode.id c) st
            | None => Advanced.handleCanvasClick (Fin wx) (Fin wy) st
            end) /\
     (forall st : Basic.State,
        Basic.pan st = {| px := Fin p; py := Fin q |} ->
        Basic.zoom st = Fin z ->
        exists res,
          firstMatch (Basic.hit {| px := Fin wx; py := Fin wy |})
            (Basic.nodes st) res /\
          Basic.selectedNode (Basic.handleMouseDown e st) = res) /\
     (forall c x y r,
        Advanced.CanvasNode.x c = Fin x -> Advanced.CanvasNode.y c = Fin y ->
        Advanced.CanvasNode.radius c = Fin r ->
        Advanced.hit (Fin wx) (Fin wy) c = true <-> (dist wx wy x y <= r)%R) /\
     (forall c x y r,
        Basic.NetworkNode.x c = Fin x -> Basic.NetworkNode.y c = Fin y ->
        Basic.NetworkNode.radius c = Fin r ->
        Basic.hit {| px := Fin wx; py := Fin wy |} c = true <->
        (dist wx wy x y <= r)%R))
  /\
  (forall r : R, (0 <= r)%R ->
     let st := advancedView [canvasNodeAt "n" 100 50 r] 2 100 50 in
     Advanced.pointerX (mouseAt 300 150) {| px := Fin 0; py := Fin 0 |} st
       = Fin 100 /\
     Advanced.pointerY (mouseAt 300 150) {| px := Fin 0; py := Fin 0 |} st
       = Fin 50 /\
     Advanced.hoveredNodeId (Advanced.handleMouseMove (mouseAt 300 150) st)
       = Some "n")
  /\
  (let st := advancedView overlappingNodes 1 0 0 in
   Advanced.hoveredNodeId (Advanced.handleMouseMove (mouseAt 10 0) st)
     = Some "a" /\
   (dist 10 0 10 0 < dist 10 0 0 0)%R).
Proof.
  split; [|split].
  - intros cx cy l t p q z e Ex Ey Er Hz wx wy. subst wx wy.
    split; [|split; [|split; [|split]]].
    + split; field; exact Hz.
    + intros st Ep Ez.
      destruct (@advanced_pointer e _ st cx cy l t p q z Ex Ey eq_refl Ep Ez Hz)
        as [Px Py].
      exists (find (Advanced.hit (Fin ((cx - l - p) / z))
                      (Fin ((cy - t - q) / z))) (Advanced.canvasNodes st)).
      split; [apply find_firstMatch|].
      unfold Advanced.handleMouseMove, Advanced.handleClick.
      rewrite Er, Px, Py.
      destruct (find _ _); split; reflexivity.
    + intros st Ep Ez.
      rewrite <- (@basic_pointer e st cx cy l t p q z Ex Ey Er Ep Ez Hz).
      exists (find (Basic.hit (Basic.getMousePos e st)) (Basic.nodes st)).
      split; [apply find_firstMatch|].
      unfold Basic.handleMouseDown.
      destruct (find _ _); reflexivity.
    + intros. now apply advanced_hit_iff.
    + intros. now apply basic_hit_iff.
  - intros r Hr st.
    assert (P : Advanced.pointerX (mouseAt 300 150)
                  {| px := Fin 0; py := Fin 0 |} st = Fin 100 /\
                Advanced.pointerY (mouseAt 300 150)
                  {| px := Fin 0; py := Fin 0 |} st = Fin 50).
    { destruct (@advanced_pointer (mouseAt 300 150)
                  {| px := Fin 0; py := Fin 0 |} st 300 150 0 0 100 50 2
                  eq_refl eq_refl eq_refl eq_refl eq_refl ltac:(lra))
        as [-> ->].
      split; f_equal; lra. }
    destruct P as [Px Py]. split; [exact Px|]. split; [exact Py|].
    unfold Advanced.handleMouseMove.
    cbn [canvasRect mouseAt]. rewrite Px, Py.
    assert (H : Advanced.hit (Fin 100) (Fin 50) (canvasNodeAt "n" 100 50 r)
                = true).
    { apply (@advanced_hit_iff _ 100 50 100 50 r); try reflexivity.
      rewrite dist_self. exact Hr. }
    cbn [st advancedView Advanced.canvasNodes Advanced.setPan Advanced.setZoom
         Advanced.setCanvasNodes find].
    rewrite H. reflexivity.
  - intros st. split.
    + unfold Advanced.handleMouseMove.
      cbn [canvasRect mouseAt].
      assert (P : Advanced.pointerX (mouseAt 10 0)
                    {| px := Fin 0; py := Fin 0 |} st = Fin 10 /\
                  Advanced.pointerY (mouseAt 10 0)
                    {| px := Fin 0; py := Fin 0 |} st = Fin 0).
      { destruct (@advanced_pointer (mouseAt 10 0)
                    {| px := Fin 0; py := Fin 0 |} st 10 0 0 0 0 0 1
                    eq_refl eq_refl eq_refl eq_refl eq_refl ltac:(lra))
          as [-> ->].
        split; f_equal; lra. }
      destruct P as [-> ->].
      assert (H : Advanced.hit (Fin 10) (Fin 0) (canvasNodeAt "a" 0 0 25)
                  = true).
      { apply (@advanced_hit_iff _ 10 0 0 0 25); try reflexivity.
        unfold dist.
        replace ((10 - 0) * (10 - 0) + (0 - 0) * (0 - 0))%R with (10 * 10)%R
          by ring.
        rewrite sqrt_square; lra. }
      cbn [st advancedView overlappingNodes Advanced.canvasNodes
           Advanced.setPan Advanced.setZoom Advanced.setCanvasNodes find].
      rewrite H. reflexivity.
    + rewrite dist_self. unfold dist.
      replace ((10 - 0) * (10 - 0) + (0 - 0) * (0 - 0))%R with (10 * 10)%R
        by ring.
      rewrite sqrt_square; lra.
Qed.

(** The device point (300, 150) under zoom 2 and pan (100, 50). *)
Lemma hit_test_witness :
  (100 + 2 * ((300 - 0 - 100) / 2) = 300 - 0)%R /\
  (50 + 2 * ((150 - 0 - 50) / 2) = 150 - 0)%R.
Proof.
  refine (proj1 (proj1 hit_test_inverse_transform_first_match
                   300 150 0 0 100 50 2 (mouseAt 300 150)
                   eq_refl eq_refl eq_refl _)%R).
  lra.
Defined.
(* ================================================================== *)
(** * Connector geometry *)

Section Connector.

Local Open Scope R_scope.

Variables x1 y1 x2 y2 : R.
Hypothesis distinct : x1 <> x2 \/ y1 <> y2.

Lemma dist_pos : 0 < dist x2 y2 x1 y1.
Proof. unfold dist. apply sqrt_sumsq_pos. destruct distinct; [left | right]; lra. Qed.

Lemma dist_sq :
  dist x2 y2 x1 y1 * dist x2 y2 x1 y1 =
  (x2 - x1) * (x2 - x1) + (y2 - y1) * (y2 - y1).
Proof. unfold dist. apply sqrt_sumsq_sq. Qed.

(** [d] is a unit vector. *)
Lemma unit_norm :
  unitX x1 y1 x2 y2 * unitX x1 y1 x2 y2 +
  unitY x1 y1 x2 y2 * unitY x1 y1 x2 y2 = 1.
Proof.
  unfold unitX, unitY. pose proof dist_pos as Hd. pose proof dist_sq as Hs.
  set (d := dist x2 y2 x1 y1) in *.
  replace ((x2 - x1) / d * ((x2 - x1) / d) + (y2 - y1) / d * ((y2 - y1) / d))
    with (((x2 - x1) * (x2 - x1) + (y2 - y1) * (y2 - y1)) / (d * d))
    by (field; lra).
  rewrite <- Hs. field. lra.
Qed.

(** Both endpoints lie on the circle of their node. *)
Lemma from_on_circle (r1 : R) :
  0 <= r1 ->
  dist (specFromX x1 y1 r1 x2 y2) (specFromY x1 y1 r1 x2 y2) x1 y1 = r1.
Proof.
  intros Hr. unfold dist, specFromX, specFromY.
  pose proof unit_norm as Hu.
  set (ux := unitX x1 y1 x2 y2) in *. set (uy := unitY x1 y1 x2 y2) in *.
  replace ((x1 + ux * r1 - x1) * (x1 + ux * r1 - x1) +
           (y1 + uy * r1 - y1) * (y1 + uy * r1 - y1))
    with (r1 * r1 * (ux * ux + uy * uy)) by ring.
  rewrite Hu, Rmult_1_r. now apply sqrt_square.
Qed.

Lemma to_on_circle (r2 : R) :
  0 <= r2 ->
  dist (specToX x1 y1 x2 y2 r2) (specToY x1 y1 x2 y2 r2) x2 y2 = r2.
Proof.
  intros Hr. unfold dist, specToX, specToY.
  pose proof unit_norm as Hu.
  set (ux := unitX x1 y1 x2 y2) in *. set (uy := unitY x1 y1 x2 y2) in *.
  replace ((x2 - ux * r2 - x2) * (x2 - ux * r2 - x2) +
           (y2 - uy * r2 - y2) * (y2 - uy * r2 - y2))
    with (r2 * r2 * (ux * ux + uy * uy)) by ring.
  rewrite Hu, Rmult_1_r. now apply sqrt_square.
Qed.

(** The segment is the centre-to-centre vector scaled by
    [1 - (r1 + r2) / |C2 - C1|]. *)
Lemma segment_parallel (r1 r2 : R) :
  let s := 1 - (r1 + r2) / dist x2 y2 x1 y1 in
  specToX x1 y1 x2 y2 r2 - specFromX x1 y1 r1 x2 y2 = s * (x2 - x1) /\
  specToY x1 y1 x2 y2 r2 - specFromY x1 y1 r1 x2 y2 = s * (y2 - y1).
Proof.
  pose proof dist_pos as Hd.
  unfold specToX, specToY, specFromX, specFromY, unitX, unitY.
  set (d := dist x2 y2 x1 y1) in *. cbv zeta.
  split; field; lra.
Qed.

Lemma scale_sign (r1 r2 : R) :
  let s := 1 - (r1 + r2) / dist x2 y2 x1 y1 in
  (r1 + r2 < dist x2 y2 x1 y1 -> 0 < s) /\
  (dist x2 y2 x1 y1 < r1 + r2 -> s < 0).
Proof.
  pose proof dist_pos as Hd. set (d := dist x2 y2 x1 y1) in *. cbv zeta.
  assert (H1 : 0 < / d) by now apply Rinv_0_lt_compat.
  assert (H2 : d * / d = 1) by (field; lra).
  unfold Rdiv. split; intros H; nra.
Qed.

End Connector.

Section ConnectorCode.

Local Open Scope R_scope.

(** The four numbers both components compute for a route, on finite
    operands with distinct centres. *)
Lemma connector_values (x1 y1 r1 x2 y2 r2 : R) :
  x1 <> x2 \/ y1 <> y2 ->
  let dx := (Fin x2 - Fin x1)%js in
  let dy := (Fin y2 - Fin y1)%js in
  let distance := Math_sqrt (dx * dx + dy * dy)%js in
  (Fin x1 + (dx / distance) * Fin r1)%js = Fin (specFromX x1 y1 r1 x2 y2) /\
  (Fin y1 + (dy / distance) * Fin r1)%js = Fin (specFromY x1 y1 r1 x2 y2) /\
  (Fin x2 - (dx / distance) * Fin r2)%js = Fin (specToX x1 y1 x2 y2 r2) /\
  (Fin y2 - (dy / distance) * Fin r2)%js = Fin (specToY x1 y1 x2 y2 r2).
Proof.
  intros Hne. cbv zeta. cbn [nsub nmul nadd].
  rewrite sqrt_Fin by apply sumsq_nonneg.
  pose proof (dist_pos Hne) as Hd. unfold dist in Hd.
  rewrite !ndiv_Fin by lra.
  repeat split.
Qed.

(** With coincident centres, every one of the four numbers is [NaN],
    whatever the radii. *)
Lemma connector_coincident (x y : R) (r1 r2 : num) :
  let dx := (Fin x - Fin x)%js in
  let dy := (Fin y - Fin y)%js in
  let distance := Math_sqrt (dx * dx + dy * dy)%js in
  distance = Fin 0 /\
  (Fin x + (dx / distance) * r1)%js = NaN /\
  (Fin y + (dy / distance) * r1)%js = NaN /\
  (Fin x - (dx / distance) * r2)%js = NaN /\
  (Fin y - (dy / distance) * r2)%js = NaN.
Proof.
  cbv zeta. cbn [nsub nmul nadd].
  rewrite sqrt_Fin by apply sumsq_nonneg.
  replace ((x - x) * (x - x) + (y - y) * (y - y)) with 0 by ring.
  rewrite sqrt_0.
  replace (x - x) with 0 by ring. replace (y - y) with 0 by ring.
  rewrite ndiv_zero_zero.
  destruct r1, r2; repeat split; reflexivity.
Qed.

End ConnectorCode.
(* ================================================================== *)
(** * The connector of a route in the two components *)

Section RouteGeometry.

Local Open Scope R_scope.

Lemma advanced_route_distinct (nodes : list Advanced.CanvasNode.t)
    (route : Input.NetworkRoute.t) (f t : Advanced.CanvasNode.t)
    (x1 y1 r1 x2 y2 r2 : R) :
  find (fun n => String.eqb (Advanced.CanvasNode.id n) (Input.NetworkRoute.from_id route))
    nodes = Some f ->
  find (fun n => String.eqb (Advanced.CanvasNode.id n) (Input.NetworkRoute.to_id route))
    nodes = Some t ->
  Advanced.CanvasNode.x f = Fin x1 -> Advanced.CanvasNode.y f = Fin y1 ->
  Advanced.CanvasNode.radius f = Fin r1 ->
  Advanced.CanvasNode.x t = Fin x2 -> Advanced.CanvasNode.y t = Fin y2 ->
  Advanced.CanvasNode.radius t = Fin r2 ->
  x1 <> x2 \/ y1 <> y2 ->
  exists r,
    Advanced.newCanvasRoute nodes route = Some r /\
    Advanced.CanvasRoute.id r = Input.NetworkRoute.id route /\
    endpoints r =
      (Fin (specFromX x1 y1 r1 x2 y2), Fin (specFromY x1 y1 r1 x2 y2),
       Fin (specToX x1 y1 x2 y2 r2), Fin (specToY x1 y1 x2 y2 r2)).
Proof.
  intros Ff Ft Ex1 Ey1 Er1 Ex2 Ey2 Er2 Hne.
  unfold Advanced.newCanvasRoute. rewrite Ff, Ft.
  rewrite Ex1, Ey1, Er1, Ex2, Ey2, Er2.
  destruct (@connector_values x1 y1 r1 x2 y2 r2 Hne) as (A & B & C & D).
  cbv zeta in A, B, C, D.
  eexists. split; [reflexivity|]. split; [reflexivity|].
  unfold endpoints. cbn [Advanced.CanvasRoute.fromX Advanced.CanvasRoute.fromY
                         Advanced.CanvasRoute.toX Advanced.CanvasRoute.toY].
  now rewrite A, B, C, D.
Qed.

Lemma basic_route_distinct (st : Basic.State) (route : Basic.NetworkRoute.t)
    (f t : Basic.NetworkNode.t) (x1 y1 r1 x2 y2 r2 : R) :
  find (fun n => String.eqb (Basic.NetworkNode.id n)
                   (Basic.NetworkRoute.fromNodeId route))
    (Basic.nodes st) = Some f ->
  find (fun n => String.eqb (Basic.NetworkNode.id n)
                   (Basic.NetworkRoute.toNodeId route))
    (Basic.nodes st) = Some t ->
  Basic.NetworkNode.x f = Fin x1 -> Basic.NetworkNode.y f = Fin y1 ->
  Basic.NetworkNode.radius f = Fin r1 ->
  Basic.NetworkNode.x t = Fin x2 -> Basic.NetworkNode.y t = Fin y2 ->
  Basic.NetworkNode.radius t = Fin r2 ->
  x1 <> x2 \/ y1 <> y2 ->
  Basic.drawRoute st route =
    [ BeginPath;
      MoveTo (Fin (specFromX x1 y1 r1 x2 y2)) (Fin (specFromY x1 y1 r1 x2 y2));
      LineTo (Fin (specToX x1 y1 x2 y2 r2)) (Fin (specToY x1 y1 x2 y2 r2));
      Stroke ].
Proof.
  intros Ff Ft Ex1 Ey1 Er1 Ex2 Ey2 Er2 Hne.
  unfold Basic.drawRoute. rewrite Ff, Ft.
  rewrite Ex1, Ey1, Er1, Ex2, Ey2, Er2.
  destruct (@connector_values x1 y1 r1 x2 y2 r2 Hne) as (A & B & C & D).
  cbv zeta in A, B, C, D. cbv zeta.
  now rewrite A, B, C, D.
Qed.

(** Coincident centres. *)
Lemma advanced_route_coincident (nodes : list Advanced.CanvasNode.t)
    (route : Input.NetworkRoute.t) (f t : Advanced.CanvasNode.t) (x y : R) :
  find (fun n => String.eqb (Advanced.CanvasNode.id n) (Input.NetworkRoute.from_id route))
    nodes = Some f ->
  find (fun n => String.eqb (Advanced.CanvasNode.id n) (Input.NetworkRoute.to_id route))
    nodes = Some t ->
  Advanced.CanvasNode.x f = Fin x -> Advanced.CanvasNode.y f = Fin y ->
  Advanced.CanvasNode.x t = Fin x -> Advanced.CanvasNode.y t = Fin y ->
  exists r,
    Advanced.newCanvasRoute nodes route = Some r /\
    Advanced.CanvasRoute.id r = Input.NetworkRoute.id route /\
    endpoints r = (NaN, NaN, NaN, NaN).
Proof.
  intros Ff Ft Ex1 Ey1 Ex2 Ey2.
  unfold Advanced.newCanvasRoute. rewrite Ff, Ft.
  rewrite Ex1, Ey1, Ex2, Ey2.
  destruct (connector_coincident x y (Advanced.CanvasNode.radius f)
              (Advanced.CanvasNode.radius t)) as (_ & A & B & C & D).
  cbv zeta in A, B, C, D.
  eexists. split; [reflexivity|]. split; [reflexivity|].
  unfold endpoints. cbn [Advanced.CanvasRoute.fromX Advanced.CanvasRoute.fromY
                         Advanced.CanvasRoute.toX Advanced.CanvasRoute.toY].
  now rewrite A, B, C, D.
Qed.

Lemma basic_route_coincident (st : Basic.State) (route : Basic.NetworkRoute.t)
    (f t : Basic.NetworkNode.t) (x y : R) :
  find (fun n => String.eqb (Basic.NetworkNode.id n)
                   (Basic.NetworkRoute.fromNodeId route))
    (Basic.nodes st) = Some f ->
  find (fun n => String.eqb (Basic.NetworkNode.id n)
                   (Basic.NetworkRoute.toNodeId route))
    (Basic.nodes st) = Some t ->
  Basic.NetworkNode.x f = Fin x -> Basic.NetworkNode.y f = Fin y ->
  Basic.NetworkNode.x t = Fin x -> Basic.NetworkNode.y t = Fin y ->
  Basic.drawRoute st route =
    [ BeginPath; MoveTo NaN NaN; LineTo NaN NaN; Stroke ].
Proof.
  intros Ff Ft Ex1 Ey1 Ex2 Ey2.
  unfold Basic.drawRoute. rewrite Ff, Ft.
  rewrite Ex1, Ey1, Ex2, Ey2.
  destruct (connector_coincident x y (Basic.NetworkNode.radius f)
              (Basic.NetworkNode.radius t)) as (_ & A & B & C & D).
  cbv zeta in A, B, C, D. cbv zeta.
  now rewrite A, B, C, D.
Qed.

End RouteGeometry.

(** C4, as the code has it.  For a route whose two endpoint nodes exist and
    have distinct centres [C1], [C2] and radii [r1], [r2], both components
    compute [fromPoint = C1 + d*r1] and [toPoint = C2 - d*r2], with [d] the
    unit vector from [C1] to [C2]; each endpoint lies on the circle of its
    node; and the segment is the centre-to-centre vector scaled by
    [1 - (r1 + r2) / |C2 - C1|]: it has the centre-to-centre direction when
    the circles are disjoint, and the opposite one when they overlap. *)
Theorem connector_endpoints_on_circles (x1 y1 r1 x2 y2 r2 : R) :
  (x1 <> x2 \/ y1 <> y2) -> (0 <= r1)%R -> (0 <= r2)%R ->
  (forall nodes route f t,
     find (fun n => String.eqb (Advanced.CanvasNode.id n) (Input.NetworkRoute.from_id route))
       nodes = Some f ->
     find (fun n => String.eqb (Advanced.CanvasNode.id n) (Input.NetworkRoute.to_id route))
       nodes = Some t ->
     Advanced.CanvasNode.x f = Fin x1 -> Advanced.CanvasNode.y f = Fin y1 ->
     Advanced.CanvasNode.radius f = Fin r1 ->
     Advanced.CanvasNode.x t = Fin x2 -> Advanced.CanvasNode.y t = Fin y2 ->
     Advanced.CanvasNode.radius t = Fin r2 ->
     exists r,
       Advanced.newCanvasRoute nodes route = Some r /\
       endpoints r =
         (Fin (specFromX x1 y1 r1 x2 y2), Fin (specFromY x1 y1 r1 x2 y2),
          Fin (specToX x1 y1 x2 y2 r2), Fin (specToY x1 y1 x2 y2 r2))) /\
  (forall st route f t,
     find (fun n => String.eqb (Basic.NetworkNode.id n)
                      (Basic.NetworkRoute.fromNodeId route))
       (Basic.nodes st) = Some f ->
     find (fun n => String.eqb (Basic.NetworkNode.id n)
                      (Basic.NetworkRoute.toNodeId route))
       (Basic.nodes st) = Some t ->
     Basic.NetworkNode.x f = Fin x1 -> Basic.NetworkNode.y f = Fin y1 ->
     Basic.NetworkNode.radius f = Fin r1 ->
     Basic.NetworkNode.x t = Fin x2 -> Basic.NetworkNode.y t = Fin y2 ->
     Basic.NetworkNode.radius t = Fin r2 ->
     Basic.drawRoute st route =
       [ BeginPath;
         MoveTo (Fin (specFromX x1 y1 r1 x2 y2)) (Fin (specFromY x1 y1 r1 x2 y2));
         LineTo (Fin (specToX x1 y1 x2 y2 r2)) (Fin (specToY x1 y1 x2 y2 r2));
         Stroke ]) /\
  dist (specFromX x1 y1 r1 x2 y2) (specFromY x1 y1 r1 x2 y2) x1 y1 = r1 /\
  dist (specToX x1 y1 x2 y2 r2) (specToY x1 y1 x2 y2 r2) x2 y2 = r2 /\
  (let s := (1 - (r1 + r2) / dist x2 y2 x1 y1)%R in
   (specToX x1 y1 x2 y2 r2 - specFromX x1 y1 r1 x2 y2 = s * (x2 - x1))%R /\
   (specToY x1 y1 x2 y2 r2 - specFromY x1 y1 r1 x2 y2 = s * (y2 - y1))%R /\
   ((r1 + r2 < dist x2 y2 x1 y1)%R -> (0 < s)%R) /\
   ((dist x2 y2 x1 y1 < r1 + r2)%R -> (s < 0)%R)).
Proof.
  intros Hne Hr1 Hr2. split; [|split; [|split; [|split]]].
  - intros nodes route f t Ff Ft Ex1 Ey1 Er1 Ex2 Ey2 Er2.
    destruct (@advanced_route_distinct nodes route f t x1 y1 r1 x2 y2 r2)
      as (r & E & _ & P); auto.
    now exists r.
  - intros st route f t Ff Ft Ex1 Ey1 Er1 Ex2 Ey2 Er2.
    now apply (@basic_route_distinct st route f t).
  - now apply from_on_circle.
  - now apply to_on_circle.
  - destruct (@segment_parallel x1 y1 x2 y2 Hne r1 r2) as [A B].
    destruct (@scale_sign x1 y1 x2 y2 Hne r1 r2) as [C D].
    cbv zeta in *. auto.
Qed.

Lemma dist_10 : dist 10 0 0 0 = 10%R.
Proof.
  unfold dist.
  replace ((10 - 0) * (10 - 0) + (0 - 0) * (0 - 0))%R with (10 * 10)%R by ring.
  apply sqrt_square. lra.
Qed.

(** Two overlapping circles of radius 25 with centres (0, 0) and (10, 0):
    both endpoints lie on their circles. *)
Lemma connector_endpoints_witness :
  dist (specFromX 0 0 25 10 0) (specFromY 0 0 25 10 0) 0 0 = 25%R /\
  dist (specToX 0 0 10 0 25) (specToY 0 0 10 0 25) 10 0 = 25%R.
Proof.
  refine (let H := @connector_endpoints_on_circles 0 0 25 10 0 25 _ _ _ in
          conj (proj1 (proj2 (proj2 H)))
               (proj1 (proj2 (proj2 (proj2 H))))); [left|..]; lra.
Defined.

(** The route from the first to the second of the overlapping nodes runs
    from (25, 0) to (-15, 0): against the direction from (0, 0) to
    (10, 0). *)
Lemma connector_direction_reversed_on_overlap :
  option_map endpoints
    (Advanced.newCanvasRoute overlappingNodes (sampleRoute "r" "a" "b"))
  = Some (Fin 25, Fin 0, Fin (-15), Fin 0) /\
  ~ exists s : R, (0 < s)%R /\ (-15 - 25 = s * (10 - 0))%R /\
                  (0 - 0 = s * (0 - 0))%R.
Proof.
  split.
  - destruct (@advanced_route_distinct overlappingNodes
                (sampleRoute "r" "a" "b")
                (canvasNodeAt "a" 0 0 25) (canvasNodeAt "b" 10 0 25)
                0 0 25 10 0 25)
      as (r & E & _ & P); try reflexivity; [left; lra|].
    rewrite E. cbn [option_map]. rewrite P.
    unfold specFromX, specFromY, specToX, specToY,
      unitX, unitY. rewrite dist_10.
    repeat f_equal; lra.
  - intros (s & Hs & H1 & _). lra.
Qed.
(* ================================================================== *)
(** * A route between two nodes with coincident centres *)

Section Coincident.

Local Open Scope R_scope.

Variable src : nat -> R.

(** The first two of [coincidentNodes] are projected to one point; no random
    number is drawn. *)
Lemma advanced_coincident_nodes (k : nat) :
  Advanced.newCanvasNodes src coincidentNodes k =
  ([canvasNodeAt "a" 60 540 25; canvasNodeAt "b" 60 540 25;
    canvasNodeAt "c" 740 60 25], k).
Proof.
  unfold Advanced.newCanvasNodes, coincidentNodes, Math_min, Math_max.
  js_compute.
  unfold Advanced.newCanvasNode, bind, ret, Math_random.
  js_compute.
  unfold canvasNodeAt. repeat f_equal; lra.
Qed.

Lemma basic_coincident_nodes (k : nat) :
  Basic.networkNodes src coincidentNodes k =
  ([networkNodeAt "a" 50 550 25; networkNodeAt "b" 50 550 25;
    networkNodeAt "c" 750 50 25], k).
Proof.
  unfold Basic.networkNodes, coincidentNodes, Math_min, Math_max.
  js_compute.
  unfold Basic.networkNode, bind, ret, Math_random.
  js_compute.
  unfold networkNodeAt. repeat f_equal; lra.
Qed.

End Coincident.

(** C2, the code at coincident centres.  Mounted with [coincidentNodes] and
    the route between its first two nodes, [AdvancedNetworkTopology] keeps
    the route in its scene with four [NaN] endpoint coordinates and its
    renderer passes them to the drawing context;
    [NetworkTopologyVisualization] draws the line of the route with [NaN]
    coordinates.  Neither guards the division by the zero distance. *)
Theorem coincident_centres_yield_NaN_endpoints (src : nat -> R) (k : nat) :
  (let st := advancedAfter src coincidentNodes [coincidentRoute] [] k in
   map endpoints (Advanced.canvasRoutes st) = [(NaN, NaN, NaN, NaN)] /\
   map Advanced.drawRoute (Advanced.canvasRoutes st) =
     [[ CreateLinearGradient NaN NaN NaN NaN; BeginPath;
        MoveTo NaN NaN; LineTo NaN NaN; Stroke ]]) /\
  (let st := basicAfter src coincidentNodes [coincidentRoute] [] k in
   map (Basic.drawRoute st) (Basic.routes st) =
     [[ BeginPath; MoveTo NaN NaN; LineTo NaN NaN; Stroke ]]).
Proof.
  split.
  - unfold advancedAfter, Advanced.mount, Advanced.initEffect.
    cbn [coincidentNodes List.length Nat.eqb].
    fold coincidentNodes. rewrite !bind_run.
    rewrite advanced_coincident_nodes. unfold ret. cbn [fst snd Advanced.run].
    set (nodes := [canvasNodeAt "a" 60 540 25; canvasNodeAt "b" 60 540 25;
                   canvasNodeAt "c" 740 60 25]).
    destruct (@advanced_route_coincident nodes coincidentRoute
                (canvasNodeAt "a" 60 540 25) (canvasNodeAt "b" 60 540 25)
                60 540) as (r & E & _ & P); try reflexivity.
    unfold Advanced.newCanvasRoutes. cbn [map]. rewrite E.
    cbn [filterBoolean]. unfold endpoints in P. injection P as P1 P2 P3 P4.
    cbn. unfold endpoints, Advanced.drawRoute. cbn.
    rewrite P1, P2, P3, P4. split; reflexivity.
  - assert (E : basicAfter src coincidentNodes [coincidentRoute] [] k =
                Basic.setRoutes (Basic.networkRoutes [coincidentRoute])
                  (Basic.setNodes
                     [networkNodeAt "a" 50 550 25; networkNodeAt "b" 50 550 25;
                      networkNodeAt "c" 750 50 25] Basic.initialState)).
    { unfold basicAfter, Basic.mount, Basic.initEffect.
      cbn [coincidentNodes List.length Nat.eqb].
      fold coincidentNodes. rewrite !bind_run.
      rewrite basic_coincident_nodes. reflexivity. }
    rewrite E. cbv zeta.
    cbn [Basic.routes Basic.setRoutes Basic.setNodes Basic.networkRoutes map].
    rewrite (@basic_route_coincident _ _
               (networkNodeAt "a" 50 550 25) (networkNodeAt "b" 50 550 25)
               50 550); reflexivity.
Qed.
(* ================================================================== *)
(** * The scene of the sample node set [twoNodes] *)

Section SampleRuns.

Local Open Scope R_scope.

Variable src : nat -> R.

Lemma basic_twoNodes (k : nat) :
  Basic.networkNodes src twoNodes k =
  ([networkNodeAt "a" 50 550 25; networkNodeAt "b" 750 50 25], k).
Proof.
  unfold Basic.networkNodes, twoNodes, Math_min, Math_max.
  js_compute.
  unfold Basic.networkNode, bind, ret, Math_random.
  js_compute.
  unfold networkNodeAt. repeat f_equal; lra.
Qed.

(** [NetworkTopologyVisualization] mounted with [twoNodes]. *)
Lemma basic_twoNodes_mounted (rs : list Input.NetworkRoute.t) (k : nat) :
  Basic.mount src twoNodes rs k =
  (Basic.setRoutes (Basic.networkRoutes rs)
     (Basic.setNodes
        [networkNodeAt "a" 50 550 25; networkNodeAt "b" 750 50 25]
        Basic.initialState), k).
Proof.
  unfold Basic.mount, Basic.initEffect.
  cbn [twoNodes List.length Nat.eqb]. fold twoNodes.
  rewrite bind_run, basic_twoNodes. reflexivity.
Qed.

End SampleRuns.
(* ================================================================== *)
(** * Routes with an endpoint that matches no node *)

Section Dangling.

Lemma find_id_some {N : Type} (idOf : N -> string) (i : string) (l : list N)
    (n : N) :
  find (fun n => String.eqb (idOf n) i) l = Some n -> In n l /\ idOf n = i.
Proof.
  intros H. apply find_some in H. destruct H as [H1 H2].
  split; auto. now apply String.eqb_eq.
Qed.

Lemma find_id_none {N : Type} (idOf : N -> string) (i : string) (l : list N) :
  ~ In i (map idOf l) -> find (fun n => String.eqb (idOf n) i) l = None.
Proof.
  intros H. apply find_none_iff, Forall_forall. intros n Hn.
  apply String.eqb_neq. intros E. apply H. rewrite <- E. now apply in_map.
Qed.

(** A route with an unresolvable endpoint gives [null] in
    [AdvancedNetworkTopology] ... *)
Lemma advanced_dangling_null (nodes : list Advanced.CanvasNode.t)
    (route : Input.NetworkRoute.t) :
  ~ In (Input.NetworkRoute.from_id route) (map Advanced.CanvasNode.id nodes) \/
  ~ In (Input.NetworkRoute.to_id route) (map Advanced.CanvasNode.id nodes) ->
  Advanced.newCanvasRoute nodes route = None.
Proof.
  intros [H | H]; unfold Advanced.newCanvasRoute;
    rewrite (find_id_none _ _ _ H); [reflexivity|].
  now destruct (find _ nodes).
Qed.

(** ... and no call on the drawing context in
    [NetworkTopologyVisualization]. *)
Lemma basic_dangling_not_drawn (st : Basic.State) (route : Basic.NetworkRoute.t) :
  ~ In (Basic.NetworkRoute.fromNodeId route)
       (map Basic.NetworkNode.id (Basic.nodes st)) \/
  ~ In (Basic.NetworkRoute.toNodeId route)
       (map Basic.NetworkNode.id (Basic.nodes st)) ->
  Basic.drawRoute st route = [].
Proof.
  intros [H | H]; unfold Basic.drawRoute;
    rewrite (find_id_none _ _ _ H); [reflexivity|].
  now destruct (find _ (Basic.nodes st)).
Qed.

(** A route that is produced has two resolvable endpoints. *)
Lemma advanced_route_resolvable (nodes : list Advanced.CanvasNode.t)
    (route : Input.NetworkRoute.t) (r : Advanced.CanvasRoute.t) :
  Advanced.newCanvasRoute nodes route = Some r ->
  Advanced.CanvasRoute.id r = Input.NetworkRoute.id route /\
  In (Input.NetworkRoute.from_id route) (map Advanced.CanvasNode.id nodes) /\
  In (Input.NetworkRoute.to_id route) (map Advanced.CanvasNode.id nodes).
Proof.
  unfold Advanced.newCanvasRoute.
  destruct (find _ nodes) as [f|] eqn:Ff; [|discriminate].
  destruct (find (fun n => String.eqb (Advanced.CanvasNode.id n)
                             (Input.NetworkRoute.to_id route)) nodes) as [t|] eqn:Ft;
    [|discriminate].
  intros [= <-]. apply find_id_some in Ff, Ft.
  destruct Ff as [If Ef], Ft as [It Et].
  split; [reflexivity|]. rewrite <- Ef, <- Et. split; now apply in_map.
Qed.

Lemma In_filterBoolean {A : Type} (l : list (option A)) (a : A) :
  In a (filterBoolean l) <-> In (Some a) l.
Proof.
  induction l as [|[b|] l IH]; simpl.
  - tauto.
  - rewrite IH. split; intros [H | H]; auto; left; congruence.
  - rewrite IH. split; [auto|]. intros [H | H]; [discriminate | auto].
Qed.

Lemma advanced_routes_resolvable (nodes : list Advanced.CanvasNode.t)
    (routes : list Input.NetworkRoute.t) (r : Advanced.CanvasRoute.t) :
  In r (Advanced.newCanvasRoutes nodes routes) ->
  exists route, In route routes /\
    Advanced.CanvasRoute.id r = Input.NetworkRoute.id route /\
    In (Input.NetworkRoute.from_id route) (map Advanced.CanvasNode.id nodes) /\
    In (Input.NetworkRoute.to_id route) (map Advanced.CanvasNode.id nodes).
Proof.
  unfold Advanced.newCanvasRoutes. rewrite In_filterBoolean, in_map_iff.
  intros (route & E & Hin). exists route. split; auto.
  now apply advanced_route_resolvable.
Qed.

Variable src : nat -> R.

(** The canvas nodes carry the ids of the input nodes, in order. *)
Lemma advanced_node_ids (ns : list Input.NetworkNode.t) (k : nat) :
  map Advanced.CanvasNode.id (fst (Advanced.newCanvasNodes src ns k)) =
  map Input.NetworkNode.id ns.
Proof.
  unfold Advanced.newCanvasNodes.
  generalize (Math_min (map Input.NetworkNode.lat ns)) (Math_max (map Input.NetworkNode.lat ns))
             (Math_min (map Input.NetworkNode.lng ns)) (Math_max (map Input.NetworkNode.lng ns)).
  intros m M n N. revert k.
  induction ns as [|a ns IH]; intros k; [reflexivity|].
  rewrite mapM_cons. cbn [fst map]. rewrite IH. f_equal.
  unfold Advanced.newCanvasNode. rewrite !bind_run. reflexivity.
Qed.

(** The scene of [AdvancedNetworkTopology] after mounting. *)
Lemma advanced_mount_scene (ns : list Input.NetworkNode.t)
    (rs : list Input.NetworkRoute.t) (k : nat) :
  let st := fst (Advanced.mount src ns rs k) in
  map Advanced.CanvasNode.id (Advanced.canvasNodes st) = map Input.NetworkNode.id ns /\
  forall r, In r (Advanced.canvasRoutes st) ->
    exists r0,
      In r0 (Advanced.newCanvasRoutes (fst (Advanced.newCanvasNodes src ns k)) rs) /\
      Advanced.CanvasRoute.id r = Advanced.CanvasRoute.id r0 /\
      endpoints r = endpoints r0.
Proof.
  unfold Advanced.mount, Advanced.initEffect.
  destruct ns as [|a ns].
  - cbn. split; [reflexivity|]. intros r [].
  - cbn [List.length Nat.eqb]. rewrite !bind_run. unfold ret. cbn [fst snd].
    cbn [Advanced.canvasNodes Advanced.canvasRoutes Advanced.updateRouteHighlight
         Advanced.updateNodeSelection Advanced.setCanvasNodes
         Advanced.setCanvasRoutes].
    split.
    + rewrite map_map. cbn [Advanced.CanvasNode.id].
      apply advanced_node_ids.
    + intros r Hr. apply in_map_iff in Hr. destruct Hr as (r0 & <- & Hr0).
      exists r0. repeat split. exact Hr0.
Qed.

End Dangling.

(** C3, as the code has it.  [AdvancedNetworkTopology] drops a route whose
    [from_id] or [to_id] matches no node when it builds its scene: the
    callback returns [null] for it, and every canvas route, of the mounted
    component and of every later initialisation, comes from an input route
    whose two endpoints are ids of input nodes.
    [NetworkTopologyVisualization] keeps every input route in its scene, and
    draws nothing for a route with an endpoint that matches no node. *)
Theorem dangling_routes_dropped :
  (forall (nodes : list Advanced.CanvasNode.t) (route : Input.NetworkRoute.t),
     ~ In (Input.NetworkRoute.from_id route) (map Advanced.CanvasNode.id nodes) \/
     ~ In (Input.NetworkRoute.to_id route) (map Advanced.CanvasNode.id nodes) ->
     Advanced.newCanvasRoute nodes route = None) /\
  (forall src ns rs k r,
     In r (Advanced.canvasRoutes (fst (Advanced.mount src ns rs k))) ->
     exists route, In route rs /\
       Advanced.CanvasRoute.id r = Input.NetworkRoute.id route /\
       In (Input.NetworkRoute.from_id route) (map Input.NetworkNode.id ns) /\
       In (Input.NetworkRoute.to_id route) (map Input.NetworkNode.id ns)) /\
  (forall src ns rs st k r, ns <> [] ->
     In r (Advanced.canvasRoutes (fst (Advanced.initEffect src ns rs st k))) ->
     exists route, In route rs /\
       Advanced.CanvasRoute.id r = Input.NetworkRoute.id route /\
       In (Input.NetworkRoute.from_id route) (map Input.NetworkNode.id ns) /\
       In (Input.NetworkRoute.to_id route) (map Input.NetworkNode.id ns)) /\
  (forall src ns rs st k, ns <> [] ->
     Basic.routes (fst (Basic.initEffect src ns rs st k)) =
     map Basic.networkRoute rs) /\
  (forall (st : Basic.State) (route : Basic.NetworkRoute.t),
     ~ In (Basic.NetworkRoute.fromNodeId route)
          (map Basic.NetworkNode.id (Basic.nodes st)) \/
     ~ In (Basic.NetworkRoute.toNodeId route)
          (map Basic.NetworkNode.id (Basic.nodes st)) ->
     Basic.drawRoute st route = []).
Proof.
  split; [|split; [|split; [|split]]].
  - apply advanced_dangling_null.
  - intros src ns rs k r Hr.
    destruct (advanced_mount_scene src ns rs k) as [_ H].
    destruct (H r Hr) as (r0 & Hr0 & Eid & _).
    apply advanced_routes_resolvable in Hr0.
    destruct Hr0 as (route & Hin & E & Hf & Ht).
    rewrite advanced_node_ids in Hf, Ht.
    exists route. rewrite Eid. auto.
  - intros src ns rs st k r Hne Hr. unfold Advanced.initEffect in Hr.
    destruct ns as [|a ns]; [congruence|].
    cbn [List.length Nat.eqb] in Hr. rewrite bind_run in Hr.
    apply advanced_routes_resolvable in Hr.
    destruct Hr as (route & Hin & E & Hf & Ht).
    rewrite advanced_node_ids in Hf, Ht.
    exists route. auto.
  - intros src ns rs st k Hne. unfold Basic.initEffect.
    destruct ns as [|a ns]; [congruence|].
    cbn [List.length Nat.eqb]. rewrite bind_run. reflexivity.
  - apply basic_dangling_not_drawn.
Qed.

(** A route to an id that no node has gives [null]. *)
Lemma dangling_routes_witness :
  Advanced.newCanvasRoute [canvasNodeAt "a" 60 540 25]
    (sampleRoute "r1" "a" "zz") = None.
Proof.
  refine (proj1 dangling_routes_dropped _ _ _).
  right. cbn. intros [H | []]. discriminate H.
Defined.

(** [NetworkTopologyVisualization] mounted with the nodes [a] and [b] and a
    route from [a] to [zz]: the route is in the scene. *)
Lemma basic_scene_keeps_dangling_route :
  let st := basicAfter halves twoNodes [sampleRoute "r1" "a" "zz"] [] 0%nat in
  map Basic.NetworkRoute.toNodeId (Basic.routes st) = ["zz"] /\
  map Basic.NetworkNode.id (Basic.nodes st) = ["a"; "b"].
Proof.
  unfold basicAfter. rewrite bind_run, basic_twoNodes_mounted.
  split; reflexivity.
Qed.
(* ================================================================== *)
(** * Selection state *)

Section Selection.

Lemma eqNullable_true (a : string) (b : option string) :
  eqNullable a b = true <-> b = Some a.
Proof.
  destruct b as [s|]; simpl.
  - rewrite String.eqb_eq. split; [now intros -> | now intros [= ->]].
  - split; discriminate.
Qed.

Lemma eqOptString_true (a b : option string) :
  eqOptString a b = true <-> a = b.
Proof.
  destruct a as [s|], b as [t|]; simpl; try (split; [discriminate | congruence]).
  - rewrite String.eqb_eq. split; [now intros -> | now intros [= ->]].
  - split; reflexivity.
Qed.

(** The flag effects leave every cell but the two lists unchanged. *)
Lemma runEffects_cells (old new : Advanced.State) :
  let st := Advanced.runEffects old new in
  Advanced.selectedNodeId st = Advanced.selectedNodeId new /\
  Advanced.selectedRouteId st = Advanced.selectedRouteId new /\
  Advanced.hoveredNodeId st = Advanced.hoveredNodeId new /\
  Advanced.zoom st = Advanced.zoom new /\
  Advanced.pan st = Advanced.pan new /\
  Advanced.showLabels st = Advanced.showLabels new /\
  Advanced.showGrid st = Advanced.showGrid new /\
  Advanced.showRoutes st = Advanced.showRoutes new.
Proof.
  unfold Advanced.runEffects.
  destruct (eqOptString (Advanced.selectedRouteId old) _);
    destruct (_ && _); cbn; repeat split.
Qed.

Lemma advanced_handle_exclusive (ev : Advanced.Event) (st : Advanced.State) :
  advancedExclusive st -> advancedExclusive (Advanced.handle ev st).
Proof.
  intros H. destruct ev; cbn [Advanced.handle]; try exact H.
  - unfold Advanced.handleClick. destruct (canvasRect e); [|exact H].
    destruct (find _ _); right; reflexivity.
  - unfold Advanced.handleMouseMove. destruct (canvasRect e); [|exact H].
    destruct (find _ _); exact H.
  - left. reflexivity.
  - left. reflexivity.
Qed.

Variable src : nat -> R.

Lemma advanced_initEffect_cells (ns : list Input.NetworkNode.t)
    (rs : list Input.NetworkRoute.t) (st : Advanced.State) (k : nat) :
  let st' := fst (Advanced.initEffect src ns rs st k) in
  Advanced.selectedNodeId st' = Advanced.selectedNodeId st /\
  Advanced.selectedRouteId st' = Advanced.selectedRouteId st /\
  Advanced.hoveredNodeId st' = Advanced.hoveredNodeId st.
Proof.
  unfold Advanced.initEffect. destruct ns; cbn [List.length Nat.eqb].
  - repeat split.
  - rewrite bind_run. repeat split.
Qed.

Lemma advanced_step_exclusive (ev : Advanced.Event) (st : Advanced.State)
    (k : nat) :
  advancedExclusive st -> advancedExclusive (fst (Advanced.step src ev st k)).
Proof.
  intros H.
  assert (G : advancedExclusive
                (Advanced.runEffects st (Advanced.handle ev st))).
  { pose proof (advanced_handle_exclusive ev H) as H'.
    destruct (runEffects_cells st (Advanced.handle ev st)) as (E1 & E2 & _).
    unfold advancedExclusive in *. now rewrite E1, E2. }
  destruct ev; try exact G.
  cbn [Advanced.step].
  destruct (advanced_initEffect_cells inputNodes inputRoutes st k)
    as (E1 & E2 & _).
  unfold advancedExclusive in *. now rewrite E1, E2.
Qed.

Lemma advanced_mount_exclusive (ns : list Input.NetworkNode.t)
    (rs : list Input.NetworkRoute.t) (k : nat) :
  advancedExclusive (fst (Advanced.mount src ns rs k)).
Proof.
  unfold Advanced.mount. rewrite bind_run. unfold ret. cbn [fst].
  destruct (advanced_initEffect_cells ns rs Advanced.initialState k)
    as (E1 & _).
  left. cbn. exact E1.
Qed.

End Selection.
(* ================================================================== *)
(** * Node selection and route selection *)

Section BasicSelection.

Local Open Scope R_scope.

(** A pointer-down on a node selects it, whatever was selected; a
    pointer-down on no node clears the selected node; neither touches the
    selected route. *)
Lemma basic_mouseDown_selection (e : MouseEvent) (st : Basic.State) :
  Basic.selectedNode (Basic.handleMouseDown e st) =
    find (Basic.hit (Basic.getMousePos e st)) (Basic.nodes st) /\
  Basic.selectedRoute (Basic.handleMouseDown e st) = Basic.selectedRoute st /\
  Basic.zoom (Basic.handleMouseDown e st) = Basic.zoom st /\
  Basic.pan (Basic.handleMouseDown e st) = Basic.pan st.
Proof.
  unfold Basic.handleMouseDown. destruct (find _ _); repeat split.
Qed.

(** Selecting a route in the panel leaves the selected node as it is. *)
Lemma basic_routeSelect_selection (route : Basic.NetworkRoute.t)
    (st : Basic.State) :
  Basic.selectedNode (Basic.handleRouteSelect route st) = Basic.selectedNode st /\
  Basic.selectedRoute (Basic.handleRouteSelect route st) = Some route.
Proof. split; reflexivity. Qed.

(** The pointer at the centre of the first sample node hits it. *)
Lemma basic_hit_sample (st : Basic.State) (c : Basic.NetworkNode.t) :
  Basic.zoom st = Fin 1 -> Basic.pan st = {| px := Fin 0; py := Fin 0 |} ->
  Basic.NetworkNode.x c = Fin 50 -> Basic.NetworkNode.y c = Fin 550 ->
  Basic.NetworkNode.radius c = Fin 25 ->
  Basic.hit (Basic.getMousePos (mouseAt 50 550) st) c = true.
Proof.
  intros Ez Ep Ex Ey Er.
  rewrite (@basic_pointer (mouseAt 50 550) st 50 550 0 0 0 0 1);
    try reflexivity; auto; try lra.
  apply (@basic_hit_iff _ _ _ 50 550 25); auto.
  replace ((50 - 0 - 0) / 1) with 50 by lra.
  replace ((550 - 0 - 0) / 1) with 550 by lra.
  rewrite dist_self. lra.
Qed.

End BasicSelection.

(** C1, as the code has it.  In [AdvancedNetworkTopology] selection is
    mutually exclusive: a click on a node leaves no route selected, the
    selection of a route leaves no node selected, and in no state reached
    from mounting are both selected.  In [NetworkTopologyVisualization] the
    two are independent: a pointer-down leaves the selected route as it is,
    and the selection of a route leaves the selected node as it is. *)
Theorem selection_exclusive_in_advanced :
  (forall nodeId st,
     Advanced.selectedRouteId (Advanced.handleNodeClick nodeId st) = None) /\
  (forall routeId st,
     Advanced.selectedNodeId (Advanced.handleRouteSelect routeId st) = None) /\
  (forall src ns rs evs k,
     let st := advancedAfter src ns rs evs k in
     Advanced.selectedNodeId st = None \/ Advanced.selectedRouteId st = None) /\
  (forall e st,
     Basic.selectedRoute (Basic.handleMouseDown e st) = Basic.selectedRoute st) /\
  (forall route st,
     Basic.selectedNode (Basic.handleRouteSelect route st) =
     Basic.selectedNode st).
Proof.
  split; [|split; [|split; [|split]]]; try reflexivity.
  - intros src ns rs evs k.
    apply (@advanced_after_invariant src advancedExclusive).
    + apply advanced_mount_exclusive.
    + apply advanced_step_exclusive.
  - intros e st. apply basic_mouseDown_selection.
Qed.

(** [NetworkTopologyVisualization] mounted with two nodes and the route
    between them: after a pointer-down on the first node and the selection
    of the route, a node and a route are selected. *)
Lemma basic_node_and_route_both_selected :
  let route := Basic.networkRoute (sampleRoute "r1" "a" "b") in
  let st := basicAfter halves twoNodes [sampleRoute "r1" "a" "b"]
              [Basic.EvMouseDown (mouseAt 50 550); Basic.EvRouteSelect route]
              0%nat in
  option_map Basic.NetworkNode.id (Basic.selectedNode st) = Some "a" /\
  option_map Basic.NetworkRoute.id (Basic.selectedRoute st) = Some "r1".
Proof.
  cbv zeta. unfold basicAfter. rewrite bind_run, basic_twoNodes_mounted.
  cbn [fst snd Basic.run Basic.step]. rewrite !bind_run. unfold ret.
  cbn [fst snd Basic.handle].
  set (st0 := Basic.setRoutes _ _).
  split; [|reflexivity].
  rewrite (proj1 (basic_routeSelect_selection _ _)).
  rewrite (proj1 (basic_mouseDown_selection _ _)).
  cbn [st0 Basic.nodes Basic.setRoutes Basic.setNodes find].
  fold st0.
  rewrite (@basic_hit_sample st0 (networkNodeAt "a" 50 550 25)
             eq_refl eq_refl eq_refl eq_refl eq_refl).
  reflexivity.
Qed.
(* ================================================================== *)
(** * Clicks *)

Section Clicks.

Lemma advanced_click_selection (e : MouseEvent) (rect : Point)
    (st : Advanced.State) :
  canvasRect e = Some rect ->
  let res := find (Advanced.hit (Advanced.pointerX e rect st)
                     (Advanced.pointerY e rect st))
               (Advanced.canvasNodes st) in
  let st' := Advanced.handleClick e st in
  (forall c, res = Some c ->
     Advanced.selectedRouteId st' = None /\
     (Advanced.selectedNodeId st = Some (Advanced.CanvasNode.id c) ->
      Advanced.selectedNodeId st' = None) /\
     (Advanced.selectedNodeId st <> Some (Advanced.CanvasNode.id c) ->
      Advanced.selectedNodeId st' = Some (Advanced.CanvasNode.id c))) /\
  (res = None ->
     Advanced.selectedNodeId st' = None /\ Advanced.selectedRouteId st' = None).
Proof.
  intros Er. cbv zeta. unfold Advanced.handleClick. rewrite Er.
  destruct (find _ _) as [c|]; split; try discriminate.
  - intros c' [= <-]. split; [reflexivity|].
    cbn [Advanced.handleNodeClick Advanced.selectedNodeId
         Advanced.setSelectedRouteId Advanced.setSelectedNodeId].
    destruct (eqNullable _ _) eqn:E.
    + split; [reflexivity|]. intros H. apply eqNullable_true in E. congruence.
    + split; [|reflexivity]. intros H. apply eqNullable_true in H. congruence.
  - intros _. split; reflexivity.
Qed.

(** A pointer-down on the first node of the list, explicitly. *)
Lemma basic_mouseDown_first (e : MouseEvent) (st : Basic.State)
    (c : Basic.NetworkNode.t) (rest : list Basic.NetworkNode.t) :
  Basic.nodes st = c :: rest ->
  Basic.hit (Basic.getMousePos e st) c = true ->
  Basic.selectedNode (Basic.handleMouseDown e st) = Some c /\
  Basic.nodes (Basic.handleMouseDown e st) =
    map (fun node =>
           Basic.withSelected
             (String.eqb (Basic.NetworkNode.id node) (Basic.NetworkNode.id c))
             node) (c :: rest).
Proof.
  intros En Hh. unfold Basic.handleMouseDown. rewrite En.
  cbn [find]. rewrite Hh. split; reflexivity.
Qed.

End Clicks.



(* ================================================================== *)
(** * Initialisation with an empty node list *)

(** C9, as the code has it.  With an empty input node list the
    initialisation effect of either component returns before it sets
    anything, whatever the route list: the scene is left as it was.  At
    mount, where both collections start empty, the scene is empty; after
    any run, new props with an empty node list leave the whole state, and
    so the nodes and routes of the scene, unchanged. *)
Theorem empty_node_list_leaves_scene_unchanged :
  (forall src rs st k, Advanced.initEffect src [] rs st k = (st, k)) /\
  (forall src rs st k, Basic.initEffect src [] rs st k = (st, k)) /\
  (forall src rs k,
     Advanced.canvasNodes (fst (Advanced.mount src [] rs k)) = [] /\
     Advanced.canvasRoutes (fst (Advanced.mount src [] rs k)) = []) /\
  (forall src rs k,
     Basic.nodes (fst (Basic.mount src [] rs k)) = [] /\
     Basic.routes (fst (Basic.mount src [] rs k)) = []) /\
  (forall src ns rs evs rs' k,
     advancedAfter src ns rs (evs ++ [Advanced.EvProps [] rs'])%list k =
     advancedAfter src ns rs evs k) /\
  (forall src ns rs evs rs' k,
     basicAfter src ns rs (evs ++ [Basic.EvProps [] rs'])%list k =
     basicAfter src ns rs evs k).
Proof.
  split; [|split; [|split; [|split; [|split]]]]; try (repeat split; fail).
  - intros src ns rs evs rs' k.
    destruct (advanced_after_snoc src ns rs evs (Advanced.EvProps [] rs') k)
      as [k' ->].
    reflexivity.
  - intros src ns rs evs rs' k.
    destruct (basic_after_snoc src ns rs evs (Basic.EvProps [] rs') k)
      as [k' ->].
    reflexivity.
Qed.

(** [AdvancedNetworkTopology] mounted with two nodes and then given an empty
    node list: the two nodes stay in the scene. *)
Lemma advanced_scene_kept_on_empty_node_list :
  let st := advancedAfter halves twoNodes [] [Advanced.EvProps [] []] 0%nat in
  map Advanced.CanvasNode.id (Advanced.canvasNodes st) = ["a"; "b"].
Proof.
  cbv zeta. unfold advancedAfter. rewrite bind_run.
  cbn [Advanced.run Advanced.step]. rewrite bind_run.
  cbn [Advanced.initEffect List.length Nat.eqb ret fst snd].
  destruct (advanced_mount_scene halves twoNodes [] 0%nat) as [E _].
  exact E.
Qed.
(* ================================================================== *)
(** * The reset *)

Section Flags.

Lemma updateNodeSelection_consistent (st : Advanced.State) :
  Forall (nodeFlagsConsistent (Advanced.updateNodeSelection st))
    (Advanced.canvasNodes (Advanced.updateNodeSelection st)).
Proof.
  cbn. apply Forall_forall. intros n Hn. apply in_map_iff in Hn.
  destruct Hn as (m & <- & _). split; cbn; apply eqNullable_true.
Qed.

Lemma updateRouteHighlight_consistent (st : Advanced.State) :
  Forall (routeFlagConsistent (Advanced.updateRouteHighlight st))
    (Advanced.canvasRoutes (Advanced.updateRouteHighlight st)).
Proof.
  cbn. apply Forall_forall. intros r Hr. apply in_map_iff in Hr.
  destruct Hr as (m & <- & _). unfold routeFlagConsistent. cbn.
  apply eqNullable_true.
Qed.

(** The flag effects re-establish consistency after a handler that changed
    no list. *)
Lemma runEffects_consistent (old new : Advanced.State) :
  flagsConsistent old ->
  Advanced.canvasNodes new = Advanced.canvasNodes old ->
  Advanced.canvasRoutes new = Advanced.canvasRoutes old ->
  flagsConsistent (Advanced.runEffects old new).
Proof.
  intros [Hn Hr] En Er. unfold Advanced.runEffects.
  destruct (eqOptString (Advanced.selectedNodeId old) _ &&
            eqOptString (Advanced.hoveredNodeId old) _) eqn:D1;
    destruct (eqOptString (Advanced.selectedRouteId old) _) eqn:D2.
  - apply andb_true_iff in D1. destruct D1 as [D1 D1'].
    apply eqOptString_true in D1, D1', D2.
    split.
    + rewrite En. eapply Forall_impl; [|exact Hn].
      intros n [H1 H2]. split; intros H; [rewrite <- D1 | rewrite <- D1']; auto.
    + rewrite Er. eapply Forall_impl; [|exact Hr].
      intros r H. unfold routeFlagConsistent in *. now rewrite <- D2.
  - apply andb_true_iff in D1. destruct D1 as [D1 D1'].
    apply eqOptString_true in D1, D1'.
    split.
    + cbn. rewrite En. eapply Forall_impl; [|exact Hn].
      intros n [H1 H2]. split; intros H; cbn;
        [rewrite <- D1 | rewrite <- D1']; auto.
    + apply updateRouteHighlight_consistent.
  - apply eqOptString_true in D2.
    split.
    + apply updateNodeSelection_consistent.
    + cbn. rewrite Er. eapply Forall_impl; [|exact Hr].
      intros r H. unfold routeFlagConsistent in *. cbn. now rewrite <- D2.
  - split.
    + pose proof (updateNodeSelection_consistent new) as H.
      cbn in *. exact H.
    + apply updateRouteHighlight_consistent.
Qed.

Variable src : nat -> R.

Lemma advanced_new_nodes_unflagged (ns : list Input.NetworkNode.t) (k : nat) :
  Forall (fun n => Advanced.CanvasNode.isSelected n = false /\
                   Advanced.CanvasNode.isHovered n = false)
    (fst (Advanced.newCanvasNodes src ns k)).
Proof.
  unfold Advanced.newCanvasNodes. apply mapM_Forall. intros a k' _.
  unfold Advanced.newCanvasNode. rewrite !bind_run. split; reflexivity.
Qed.

Lemma advanced_new_routes_unflagged (nodes : list Advanced.CanvasNode.t)
    (rs : list Input.NetworkRoute.t) :
  Forall (fun r => Advanced.CanvasRoute.isHighlighted r = false)
    (Advanced.newCanvasRoutes nodes rs).
Proof.
  apply Forall_forall. intros r Hr.
  unfold Advanced.newCanvasRoutes in Hr.
  apply In_filterBoolean, in_map_iff in Hr. destruct Hr as (route & E & _).
  unfold Advanced.newCanvasRoute in E.
  destruct (find _ nodes); [|discriminate].
  destruct (find _ nodes); [|discriminate].
  now injection E as <-.
Qed.

Lemma advanced_initEffect_consistent (ns : list Input.NetworkNode.t)
    (rs : list Input.NetworkRoute.t) (st : Advanced.State) (k : nat) :
  flagsConsistent st ->
  flagsConsistent (fst (Advanced.initEffect src ns rs st k)).
Proof.
  intros H. unfold Advanced.initEffect. destruct ns as [|a ns]; [exact H|].
  cbn [List.length Nat.eqb]. rewrite bind_run. unfold ret. cbn [fst].
  split.
  - apply Forall_forall. intros n Hn.
    pose proof (advanced_new_nodes_unflagged (a :: ns) k) as F.
    rewrite Forall_forall in F. destruct (F n Hn) as [H1 H2].
    split; intros E; congruence.
  - apply Forall_forall. intros r Hr.
    pose proof (advanced_new_routes_unflagged
                  (fst (Advanced.newCanvasNodes src (a :: ns) k)) rs) as F.
    rewrite Forall_forall in F. specialize (F r Hr).
    intros E. congruence.
Qed.

Lemma advanced_step_consistent (ev : Advanced.Event) (st : Advanced.State)
    (k : nat) :
  flagsConsistent st -> flagsConsistent (fst (Advanced.step src ev st k)).
Proof.
  intros H.
  assert (G : flagsConsistent (Advanced.runEffects st (Advanced.handle ev st))).
  { apply runEffects_consistent; auto.
    - apply advanced_handle_nodes.
    - apply advanced_handle_routes. }
  destruct ev; try exact G.
  cbn [Advanced.step]. now apply advanced_initEffect_consistent.
Qed.

Lemma advanced_mount_consistent (ns : list Input.NetworkNode.t)
    (rs : list Input.NetworkRoute.t) (k : nat) :
  flagsConsistent (fst (Advanced.mount src ns rs k)).
Proof.
  unfold Advanced.mount. rewrite bind_run. unfold ret. cbn [fst].
  set (st := fst (Advanced.initEffect src ns rs Advanced.initialState k)).
  split.
  - pose proof (updateNodeSelection_consistent st) as H. cbn in *. exact H.
  - apply updateRouteHighlight_consistent.
Qed.

Lemma advanced_reachable_consistent (ns : list Input.NetworkNode.t)
    (rs : list Input.NetworkRoute.t) (evs : list Advanced.Event) (k : nat) :
  flagsConsistent (advancedAfter src ns rs evs k).
Proof.
  apply (@advanced_after_invariant src flagsConsistent).
  - apply advanced_mount_consistent.
  - apply advanced_step_consistent.
Qed.

End Flags.

Lemma sameRouteData_refl (l : list Advanced.CanvasRoute.t) :
  Forall2 sameRouteData l l.
Proof. induction l; constructor; auto. repeat split. Qed.

Lemma runEffects_route_data (old new : Advanced.State) :
  Forall2 sameRouteData (Advanced.canvasRoutes new)
    (Advanced.canvasRoutes (Advanced.runEffects old new)).
Proof.
  unfold Advanced.runEffects.
  destruct (eqOptString (Advanced.selectedRouteId old) _);
    destruct (_ && _); cbn;
    try apply sameRouteData_refl;
    induction (Advanced.canvasRoutes new); cbn; constructor; auto;
    repeat split.
Qed.

(** C10.  The reset sets the zoom to 1 and the pan to (0, 0) and clears the
    selected node, the selected route and the hovered node; after it no
    node is flagged selected or hovered and no route is flagged
    highlighted; everything else keeps its value: the nodes and routes are
    the same up to these flags, in particular every node keeps its position,
    and the display toggles are unchanged.  In [AdvancedNetworkTopology] the
    flags are cleared by the effects that follow the handler, in every state
    reached from mounting; in [NetworkTopologyVisualization], which has no
    hovered node, the handler clears them itself, and positions changed by
    dragging stay. *)
Theorem reset_clears_view_and_selection :
  (forall src ns rs evs k k',
     let st := advancedAfter src ns rs evs k in
     let st' := fst (Advanced.step src Advanced.EvReset st k') in
     Advanced.zoom st' = Fin 1 /\
     Advanced.pan st' = {| px := Fin 0; py := Fin 0 |} /\
     Advanced.selectedNodeId st' = None /\
     Advanced.selectedRouteId st' = None /\
     Advanced.hoveredNodeId st' = None /\
     Forall (fun n => Advanced.CanvasNode.isSelected n = false /\
                      Advanced.CanvasNode.isHovered n = false)
       (Advanced.canvasNodes st') /\
     Forall (fun r => Advanced.CanvasRoute.isHighlighted r = false)
       (Advanced.canvasRoutes st') /\
     Forall2 sameGeometry (Advanced.canvasNodes st) (Advanced.canvasNodes st') /\
     Forall2 sameRouteData (Advanced.canvasRoutes st)
       (Advanced.canvasRoutes st') /\
     Advanced.showLabels st' = Advanced.showLabels st /\
     Advanced.showGrid st' = Advanced.showGrid st /\
     Advanced.showRoutes st' = Advanced.showRoutes st) /\
  (forall st,
     let st' := Basic.handleReset st in
     Basic.zoom st' = Fin 1 /\
     Basic.pan st' = {| px := Fin 0; py := Fin 0 |} /\
     Basic.selectedNode st' = None /\
     Basic.selectedRoute st' = None /\
     Basic.nodes st' = map (Basic.withSelected false) (Basic.nodes st) /\
     Basic.routes st' = map (Basic.withHighlighted false) (Basic.routes st) /\
     Forall (fun n => Basic.NetworkNode.isSelected n = false) (Basic.nodes st') /\
     Forall (fun r => Basic.NetworkRoute.isHighlighted r = false)
       (Basic.routes st') /\
     map Basic.NetworkNode.x (Basic.nodes st') =
       map Basic.NetworkNode.x (Basic.nodes st) /\
     map Basic.NetworkNode.y (Basic.nodes st') =
       map Basic.NetworkNode.y (Basic.nodes st) /\
     Basic.showLabels st' = Basic.showLabels st /\
     Basic.showRoutes st' = Basic.showRoutes st /\
     Basic.isDragging st' = Basic.isDragging st /\
     Basic.dragOffset st' = Basic.dragOffset st).
Proof.
  split.
  - intros src ns rs evs k k' st st'.
    pose proof (advanced_reachable_consistent src ns rs evs k) as C.
    fold st in C.
    pose proof (@advanced_step_consistent src Advanced.EvReset st k' C) as C'.
    fold st' in C'.
    assert (E : st' = Advanced.runEffects st (Advanced.handleReset st))
      by reflexivity.
    destruct (runEffects_cells st (Advanced.handleReset st))
      as (E1 & E2 & E3 & E4 & E5 & E6 & E7 & E8).
    rewrite <- E in *.
    assert (S1 : Advanced.selectedNodeId st' = None) by now rewrite E1.
    assert (S2 : Advanced.selectedRouteId st' = None) by now rewrite E2.
    assert (S3 : Advanced.hoveredNodeId st' = None) by now rewrite E3.
    split; [now rewrite E4|]. split; [now rewrite E5|].
    split; [exact S1|]. split; [exact S2|]. split; [exact S3|].
    destruct C' as [Cn Cr].
    split; [|split; [|split; [|split; [|split; [|split]]]]].
    + eapply Forall_impl; [|exact Cn]. intros n [H1 H2].
      rewrite S1 in H1. rewrite S3 in H2.
      split.
      * destruct (Advanced.CanvasNode.isSelected n); auto.
        specialize (H1 eq_refl). discriminate.
      * destruct (Advanced.CanvasNode.isHovered n); auto.
        specialize (H2 eq_refl). discriminate.
    + eapply Forall_impl; [|exact Cr]. intros r H.
      unfold routeFlagConsistent in H. rewrite S2 in H.
      destruct (Advanced.CanvasRoute.isHighlighted r); auto.
      specialize (H eq_refl). discriminate.
    + rewrite E. apply (runEffects_geometry st (Advanced.handleReset st)).
    + rewrite E. apply (runEffects_route_data st (Advanced.handleReset st)).
    + now rewrite E6.
    + now rewrite E7.
    + now rewrite E8.
  - intros st st'. subst st'.
    cbn [Basic.handleReset Basic.zoom Basic.pan Basic.selectedNode
         Basic.selectedRoute Basic.nodes Basic.routes Basic.showLabels
         Basic.showRoutes Basic.isDragging Basic.dragOffset Basic.setRoutes
         Basic.setNodes Basic.setSelectedRoute Basic.setSelectedNode
         Basic.setPan Basic.setZoom].
    repeat match goal with |- _ /\ _ => split end; try reflexivity.
    + apply Forall_forall. intros n Hn. apply in_map_iff in Hn.
      now destruct Hn as (m & <- & _).
    + apply Forall_forall. intros r Hr. apply in_map_iff in Hr.
      now destruct Hr as (m & <- & _).
    + now rewrite map_map.
    + now rewrite map_map.
Qed.
(* ================================================================== *)
(** * Zoom and pan *)

Section ZoomPan.

Local Open Scope R_scope.

Lemma zoomIn_value (z : R) :
  Math_min [(Fin z * Fin 1.2)%js; Fin 3] = Fin (Rmin (z * 1.2) 3).
Proof.
  unfold Math_min, Rmin. cbn [fold_left nmul min2 nlt].
  destruct (Rltb 3 (z * 1.2)) eqn:E;
    [apply Rltb_true in E | apply Rltb_false in E];
    destruct (Rle_dec (z * 1.2) 3); try reflexivity; lra.
Qed.

Lemma zoomOut_value (z : R) :
  Math_max [(Fin z / Fin 1.2)%js; Fin 0.3] = Fin (Rmax (z / 1.2) 0.3).
Proof.
  unfold Math_max, Rmax. rewrite ndiv_Fin by lra.
  cbn [fold_left max2 nlt].
  destruct (Rltb (z / 1.2) 0.3) eqn:E;
    [apply Rltb_true in E | apply Rltb_false in E];
    destruct (Rle_dec (z / 1.2) 0.3); try reflexivity; f_equal; lra.
Qed.

Lemma zoomIn_in_range (z : R) :
  0.3 <= z <= 3 -> zoomInRange (Math_min [(Fin z * Fin 1.2)%js; Fin 3]).
Proof.
  intros Hz. rewrite zoomIn_value. eexists. split; [reflexivity|].
  unfold Rmin. destruct (Rle_dec (z * 1.2) 3); lra.
Qed.

Lemma zoomOut_in_range (z : R) :
  0.3 <= z <= 3 -> zoomInRange (Math_max [(Fin z / Fin 1.2)%js; Fin 0.3]).
Proof.
  intros Hz. rewrite zoomOut_value. eexists. split; [reflexivity|].
  unfold Rmax. destruct (Rle_dec (z / 1.2) 0.3); lra.
Qed.

Lemma one_in_range : zoomInRange (Fin 1).
Proof. exists 1. split; [reflexivity | lra]. Qed.

Variable src : nat -> R.

(** With the events restricted by [ok]. *)
Lemma advanced_after_invariant_ok (ok : Advanced.Event -> Prop)
    (P : Advanced.State -> Prop) :
  (forall ns rs k, P (fst (Advanced.mount src ns rs k))) ->
  (forall ev st k, ok ev -> P st -> P (fst (Advanced.step src ev st k))) ->
  forall ns rs evs k, Forall ok evs -> P (advancedAfter src ns rs evs k).
Proof.
  intros Hmount Hstep ns rs evs k Hok. unfold advancedAfter.
  rewrite bind_run.
  generalize (Hmount ns rs k).
  generalize (fst (Advanced.mount src ns rs k))
             (snd (Advanced.mount src ns rs k)).
  induction Hok as [|ev evs Hev Hevs IH]; intros st k' H.
  - exact H.
  - simpl. rewrite bind_run. apply IH, Hstep; auto.
Qed.

Lemma basic_initEffect_view (ns : list Input.NetworkNode.t)
    (rs : list Input.NetworkRoute.t) (st : Basic.State) (k : nat) :
  Basic.zoom (fst (Basic.initEffect src ns rs st k)) = Basic.zoom st /\
  Basic.pan (fst (Basic.initEffect src ns rs st k)) = Basic.pan st.
Proof.
  unfold Basic.initEffect. destruct ns; cbn [List.length Nat.eqb].
  - split; reflexivity.
  - rewrite bind_run. split; reflexivity.
Qed.

Lemma advanced_initEffect_view (ns : list Input.NetworkNode.t)
    (rs : list Input.NetworkRoute.t) (st : Advanced.State) (k : nat) :
  Advanced.zoom (fst (Advanced.initEffect src ns rs st k))
    = Advanced.zoom st /\
  Advanced.pan (fst (Advanced.initEffect src ns rs st k)) = Advanced.pan st.
Proof.
  unfold Advanced.initEffect. destruct ns; cbn [List.length Nat.eqb].
  - split; reflexivity.
  - rewrite bind_run. split; reflexivity.
Qed.

(** The pan of a state after one event. *)
Lemma basic_step_pan (ev : Basic.Event) (st : Basic.State) (k : nat) :
  Basic.pan st = origin -> Basic.pan (fst (Basic.step src ev st k)) = origin.
Proof.
  intros H. destruct ev; cbn [Basic.step Basic.handle ret fst];
    try exact H; try reflexivity.
  - unfold Basic.handleMouseDown. now destruct (find _ _).
  - unfold Basic.handleMouseMove.
    destruct (Basic.isDragging st); [|exact H].
    now destruct (Basic.selectedNode st).
  - now rewrite (proj2 (basic_initEffect_view _ _ st k)).
Qed.

Lemma advanced_step_pan (ev : Advanced.Event) (st : Advanced.State)
    (k : nat) :
  Advanced.pan st = origin ->
  Advanced.pan (fst (Advanced.step src ev st k)) = origin.
Proof.
  intros H.
  assert (G : Advanced.pan (Advanced.handle ev st) = origin).
  { destruct ev; cbn [Advanced.handle]; try exact H; try reflexivity.
    - unfold Advanced.handleClick. destruct (canvasRect e); [|exact H].
      now destruct (find _ _).
    - unfold Advanced.handleMouseMove. destruct (canvasRect e); [|exact H].
      now destruct (find _ _). }
  destruct ev; cbn [Advanced.step ret fst];
    try (match goal with
         | |- context [Advanced.runEffects ?o ?n] =>
             destruct (runEffects_cells o n) as (_ & _ & _ & _ & E & _);
             cbv zeta in E; rewrite E; exact G
         end).
  now rewrite (proj2 (advanced_initEffect_view _ _ st k)).
Qed.

Lemma basic_step_zoom (ev : Basic.Event) (st : Basic.State) (k : nat) :
  zoomInRange (Basic.zoom st) ->
  zoomInRange (Basic.zoom (fst (Basic.step src ev st k))).
Proof.
  intros H. destruct ev; cbn [Basic.step Basic.handle ret fst];
    try exact H.
  - unfold Basic.handleMouseDown. now destruct (find _ _).
  - unfold Basic.handleMouseMove.
    destruct (Basic.isDragging st); [|exact H].
    now destruct (Basic.selectedNode st).
  - destruct H as (z & E & Hz). unfold Basic.handleZoomIn.
    cbn [Basic.zoom Basic.setZoom]. rewrite E. now apply zoomIn_in_range.
  - destruct H as (z & E & Hz). unfold Basic.handleZoomOut.
    cbn [Basic.zoom Basic.setZoom]. rewrite E. now apply zoomOut_in_range.
  - apply one_in_range.
  - now rewrite (proj1 (basic_initEffect_view _ _ st k)).
Qed.

Lemma advanced_step_zoom (ev : Advanced.Event) (st : Advanced.State)
    (k : nat) :
  sliderInRange ev -> zoomInRange (Advanced.zoom st) ->
  zoomInRange (Advanced.zoom (fst (Advanced.step src ev st k))).
Proof.
  intros Hev H.
  assert (G : zoomInRange (Advanced.zoom (Advanced.handle ev st))).
  { destruct ev; cbn [Advanced.handle]; try exact H.
    - unfold Advanced.handleClick. destruct (canvasRect e); [|exact H].
      now destruct (find _ _).
    - unfold Advanced.handleMouseMove. destruct (canvasRect e); [|exact H].
      now destruct (find _ _).
    - destruct H as (z & E & Hz). unfold Advanced.handleZoomIn.
      cbn [Advanced.zoom Advanced.setZoom]. rewrite E.
      now apply zoomIn_in_range.
    - destruct H as (z & E & Hz). unfold Advanced.handleZoomOut.
      cbn [Advanced.zoom Advanced.setZoom]. rewrite E.
      now apply zoomOut_in_range.
    - exact Hev.
    - apply one_in_range. }
  destruct ev; cbn [Advanced.step ret fst];
    try (match goal with
         | |- context [Advanced.runEffects ?o ?n] =>
             destruct (runEffects_cells o n) as (_ & _ & _ & E & _);
             cbv zeta in E; rewrite E; exact G
         end).
  now rewrite (proj1 (advanced_initEffect_view _ _ st k)).
Qed.

(** The event of a slider value between the bounds of the slider. *)
Lemma slider_value_in_range (v : R) :
  30 <= v <= 300 -> sliderInRange (Controls.onValueChange (Fin v)).
Proof.
  intros Hv. unfold Controls.onValueChange, sliderInRange.
  rewrite ndiv_Fin by lra. exists (v / 100). split; [reflexivity | lra].
Qed.

Lemma Forall_True {A : Type} (l : list A) : Forall (fun _ => True) l.
Proof. induction l; constructor; auto. Qed.

End ZoomPan.

(** X1.  The zoom factor stays within [[0.3, 3]]: in every state
    [NetworkTopologyVisualization] reaches, and in every state
    [AdvancedNetworkTopology] reaches when its zoom slider passes factors
    within these bounds, as the slider of [NetworkVisualizationControls]
    does for every value between its minimum 30 and its maximum 300. *)
Theorem zoom_stays_in_range :
  (forall src ns rs evs k,
     zoomInRange (Basic.zoom (basicAfter src ns rs evs k))) /\
  (forall src ns rs evs k,
     Forall sliderInRange evs ->
     zoomInRange (Advanced.zoom (advancedAfter src ns rs evs k))) /\
  (forall v : R,
     (30 <= v <= 300)%R -> sliderInRange (Controls.onValueChange (Fin v))).
Proof.
  split; [|split; [|exact slider_value_in_range]].
  - intros src ns rs evs k.
    apply (@basic_after_invariant src (fun _ => True)
             (fun st => zoomInRange (Basic.zoom st))).
    + intros ns' rs' k'. unfold Basic.mount.
      rewrite (proj1 (basic_initEffect_view src ns' rs' Basic.initialState k')).
      apply one_in_range.
    + intros ev st k' _. apply basic_step_zoom.
    + apply Forall_True.
  - intros src ns rs evs k Hevs.
    apply (@advanced_after_invariant_ok src sliderInRange
             (fun st => zoomInRange (Advanced.zoom st))); auto.
    + intros ns' rs' k'. unfold Advanced.mount. rewrite bind_run.
      cbn [ret fst Advanced.zoom Advanced.updateRouteHighlight
           Advanced.updateNodeSelection Advanced.setCanvasRoutes
           Advanced.setCanvasNodes].
      rewrite (proj1 (advanced_initEffect_view src ns' rs'
                        Advanced.initialState k')).
      apply one_in_range.
    + intros ev st k'. apply advanced_step_zoom.
Qed.

(** Seven clicks on the zoom-in button, then the slider at 200. *)
Lemma zoom_stays_in_range_witness :
  zoomInRange
    (Advanced.zoom
       (advancedAfter halves twoNodes []
          [Advanced.EvZoomIn; Advanced.EvZoomIn; Advanced.EvZoomIn;
           Advanced.EvZoomIn; Advanced.EvZoomIn; Advanced.EvZoomIn;
           Advanced.EvZoomIn; Controls.onValueChange (Fin 200)] 0%nat)).
Proof.
  refine (proj1 (proj2 zoom_stays_in_range) halves twoNodes [] _ 0%nat _).
  repeat constructor.
  apply (proj2 (proj2 zoom_stays_in_range)). lra.
Defined.



(** X3.  Neither component ever changes the pan: it is (0, 0) in every
    state reached from mounting, so that the pointer position is the device
    position divided by the zoom factor. *)
Theorem pan_is_never_changed :
  (forall src ns rs evs k,
     Advanced.pan (advancedAfter src ns rs evs k) = origin) /\
  (forall src ns rs evs k,
     Basic.pan (basicAfter src ns rs evs k) = origin).
Proof.
  split.
  - intros src ns rs evs k.
    apply (@advanced_after_invariant src
             (fun st => Advanced.pan st = origin)).
    + intros ns' rs' k'. unfold Advanced.mount. rewrite bind_run.
      cbn [ret fst Advanced.pan Advanced.updateRouteHighlight
           Advanced.updateNodeSelection Advanced.setCanvasRoutes
           Advanced.setCanvasNodes].
      now rewrite (proj2 (advanced_initEffect_view src ns' rs'
                            Advanced.initialState k')).
    + intros ev st k'. apply advanced_step_pan.
  - intros src ns rs evs k.
    apply (@basic_after_invariant src (fun _ => True)
             (fun st => Basic.pan st = origin)).
    + intros ns' rs' k'. unfold Basic.mount.
      now rewrite (proj2 (basic_initEffect_view src ns' rs'
                            Basic.initialState k')).
    + intros ev st k' _. apply basic_step_pan.
    + apply Forall_True.
Qed.
(* ================================================================== *)
(** * Dragging, hovering and the flags *)

Section Dragging.

Local Open Scope R_scope.

Lemma basic_mouseDown_hit (e : MouseEvent) (st : Basic.State)
    (c : Basic.NetworkNode.t) :
  find (Basic.hit (Basic.getMousePos e st)) (Basic.nodes st) = Some c ->
  Basic.handleMouseDown e st =
  Basic.setNodes
    (map (fun node =>
            Basic.withSelected
              (String.eqb (Basic.NetworkNode.id node) (Basic.NetworkNode.id c))
              node)
       (Basic.nodes st))
    (Basic.setDragOffset
       {| px := (px (Basic.getMousePos e st) - Basic.NetworkNode.x c)%js;
          py := (py (Basic.getMousePos e st) - Basic.NetworkNode.y c)%js |}
       (Basic.setIsDragging true (Basic.setSelectedNode (Some c) st))).
Proof. intros H. unfold Basic.handleMouseDown. now rewrite H. Qed.

Lemma basic_mouseDown_flags (e : MouseEvent) (st : Basic.State) :
  Forall
    (fun n =>
       Basic.NetworkNode.isSelected n =
       match Basic.selectedNode (Basic.handleMouseDown e st) with
       | Some s => String.eqb (Basic.NetworkNode.id n) (Basic.NetworkNode.id s)
       | None => false
       end)
    (Basic.nodes (Basic.handleMouseDown e st)).
Proof.
  unfold Basic.handleMouseDown.
  destruct (find _ _) as [c|];
    cbn [Basic.nodes Basic.selectedNode Basic.setNodes Basic.setDragOffset
         Basic.setIsDragging Basic.setSelectedNode];
    apply Forall_forall; intros n Hn; apply in_map_iff in Hn;
    destruct Hn as (m & <- & _); reflexivity.
Qed.

Lemma basic_new_nodes_unflagged (src : nat -> R)
    (ns : list Input.NetworkNode.t) (k : nat) :
  Forall (fun n => Basic.NetworkNode.isSelected n = false)
    (fst (Basic.networkNodes src ns k)).
Proof.
  unfold Basic.networkNodes. apply mapM_Forall. intros a k' _.
  unfold Basic.networkNode. rewrite !bind_run. reflexivity.
Qed.

Lemma basic_step_flags (src : nat -> R) (ev : Basic.Event)
    (st : Basic.State) (k : nat) :
  basicFlagsSound st -> basicFlagsSound (fst (Basic.step src ev st k)).
Proof.
  intros H. unfold basicFlagsSound in *.
  destruct ev; cbn [Basic.step Basic.handle ret fst]; try exact H.
  - pose proof (basic_mouseDown_flags e st) as F.
    rewrite Forall_forall in *. intros n Hn Hs.
    rewrite (F n Hn) in Hs.
    destruct (Basic.selectedNode (Basic.handleMouseDown e st)) as [s|];
      [|discriminate].
    exists s. split; [reflexivity|]. apply String.eqb_eq in Hs. now symmetry.
  - unfold Basic.handleMouseMove.
    destruct (Basic.isDragging st); [|exact H].
    remember (Basic.selectedNode st) as sn eqn:Es.
    destruct sn as [sel|]; [|rewrite <- Es; exact H].
    cbn [Basic.nodes Basic.selectedNode Basic.setNodes].
    rewrite Forall_forall in *. intros n Hn Hs.
    apply in_map_iff in Hn. destruct Hn as (m & <- & Hm).
    rewrite <- Es.
    destruct (String.eqb _ _); apply (H m Hm); exact Hs.
  - cbn [Basic.handleReset Basic.nodes Basic.setRoutes Basic.setNodes].
    apply Forall_forall. intros n Hn Hs.
    apply in_map_iff in Hn. destruct Hn as (m & <- & _). discriminate.
  - unfold Basic.initEffect.
    destruct inputNodes as [|a ns]; cbn [List.length Nat.eqb]; [exact H|].
    rewrite bind_run. cbn [ret fst Basic.nodes Basic.setRoutes Basic.setNodes].
    pose proof (basic_new_nodes_unflagged src (a :: ns) k) as F.
    rewrite Forall_forall in *. intros n Hn Hs.
    rewrite (F n Hn) in Hs. discriminate.
Qed.

Lemma basic_hit_twoNodes :
  find (Basic.hit (Basic.getMousePos (mouseEvent 50 550 0 0) basicTwoNodes))
    (Basic.nodes basicTwoNodes)
  = Some (networkNodeAt "a" 50 550 25).
Proof.
  pose proof (@basic_hit_sample basicTwoNodes (networkNodeAt "a" 50 550 25)
                eq_refl eq_refl eq_refl eq_refl eq_refl) as H.
  change (Basic.nodes basicTwoNodes)
    with [networkNodeAt "a" 50 550 25; networkNodeAt "b" 750 50 25].
  change (mouseEvent 50 550 0 0) with (mouseAt 50 550).
  cbn [find]. now rewrite H.
Qed.

End Dragging.



(** X5.  In every state [NetworkTopologyVisualization] reaches, a node
    flagged as selected has the id of the selected node; and right after a
    pointer-down the flagged nodes are exactly those with the id of the
    node that was hit, none when no node was hit. *)
Theorem basic_selected_flag_follows_selection :
  (forall src ns rs evs k, basicFlagsSound (basicAfter src ns rs evs k)) /\
  (forall e st,
     Forall
       (fun n =>
          Basic.NetworkNode.isSelected n =
          match find (Basic.hit (Basic.getMousePos e st)) (Basic.nodes st) with
          | Some c =>
              String.eqb (Basic.NetworkNode.id n) (Basic.NetworkNode.id c)
          | None => false
          end)
       (Basic.nodes (Basic.handleMouseDown e st))).
Proof.
  split.
  - intros src ns rs evs k.
    apply (@basic_after_invariant src (fun _ => True) basicFlagsSound).
    + intros ns' rs' k'. unfold Basic.mount.
      apply (@basic_step_flags src (Basic.EvProps ns' rs')
               Basic.initialState k').
      constructor.
    + intros ev st k' _. apply basic_step_flags.
    + apply Forall_True.
  - intros e st. pose proof (basic_mouseDown_flags e st) as F.
    now rewrite (proj1 (basic_mouseDown_selection e st)) in F.
Qed.

(** X6.  Route rows of [NetworkTopologyVisualization]: after the pointer
    enters the row of a route exactly the routes with its id are
    highlighted, and after it leaves a row no route is highlighted, the
    selected route included; so selecting a route and moving the pointer
    off any row leaves a selected route that is not highlighted.  With
    distinct route ids at most one route is highlighted after either. *)
Theorem route_hover_sets_the_highlight :
  (forall routeId isHovering st,
     Forall
       (fun r =>
          Basic.NetworkRoute.isHighlighted r =
          (String.eqb (Basic.NetworkRoute.id r) routeId && isHovering)%bool)
       (Basic.routes (Basic.handleRouteHover routeId isHovering st))) /\
  (forall route routeId st,
     let st' := Basic.handleRouteHover routeId false
                  (Basic.handleRouteSelect route st) in
     Basic.selectedRoute st' = Some route /\
     Forall (fun r => Basic.NetworkRoute.isHighlighted r = false)
       (Basic.routes st')) /\
  (forall routeId isHovering st,
     NoDup (map Basic.NetworkRoute.id (Basic.routes st)) ->
     (List.length
        (filter Basic.NetworkRoute.isHighlighted
           (Basic.routes (Basic.handleRouteHover routeId isHovering st)))
      <= 1)%nat).
Proof.
  assert (A : forall routeId isHovering st,
     Forall
       (fun r =>
          Basic.NetworkRoute.isHighlighted r =
          (String.eqb (Basic.NetworkRoute.id r) routeId && isHovering)%bool)
       (Basic.routes (Basic.handleRouteHover routeId isHovering st))).
  { intros routeId b st.
    cbn [Basic.handleRouteHover Basic.routes Basic.setRoutes].
    apply Forall_forall. intros r Hr. apply in_map_iff in Hr.
    destruct Hr as (m & <- & _).
    cbn [Basic.withHighlighted Basic.NetworkRoute.isHighlighted
         Basic.NetworkRoute.id].
    destruct (String.eqb _ _), b; reflexivity. }
  split; [exact A|]. split.
  - intros route routeId st. cbv zeta. split; [reflexivity|].
    pose proof (A routeId false (Basic.handleRouteSelect route st)) as F.
    rewrite Forall_forall in *. intros r Hr. rewrite (F r Hr).
    apply Bool.andb_false_r.
  - intros routeId b st.
    cbn [Basic.handleRouteHover Basic.routes Basic.setRoutes].
    induction (Basic.routes st) as [|r rs IH]; intros Hnd.
    + simpl. lia.
    + inversion Hnd as [|? ? Hnotin Hnd']; subst.
      cbn [map filter Basic.withHighlighted Basic.NetworkRoute.isHighlighted].
      destruct (String.eqb (Basic.NetworkRoute.id r) routeId) eqn:E.
      * apply String.eqb_eq in E.
        assert (Z : filter Basic.NetworkRoute.isHighlighted
                      (map (fun route =>
                              Basic.withHighlighted
                                (if String.eqb (Basic.NetworkRoute.id route)
                                      routeId
                                 then b else false) route) rs) = []).
        { clear IH Hnd Hnd'. induction rs as [|r' rs IH]; [reflexivity|].
          cbn [map filter Basic.withHighlighted
               Basic.NetworkRoute.isHighlighted].
          destruct (String.eqb (Basic.NetworkRoute.id r') routeId) eqn:E'.
          - apply String.eqb_eq in E'. exfalso. apply Hnotin.
            cbn [map]. left. congruence.
          - apply IH. intros Hin. apply Hnotin. cbn [map]. now right. }
        rewrite Z. destruct b; simpl; lia.
      * apply IH, Hnd'.
Qed.

(** Two routes with distinct ids, the pointer over the row of the first. *)
Lemma route_hover_witness :
  (List.length
     (filter Basic.NetworkRoute.isHighlighted
        (Basic.routes
           (Basic.handleRouteHover "r1" true
              (Basic.setRoutes
                 (Basic.networkRoutes
                    [sampleRoute "r1" "a" "b"; sampleRoute "r2" "b" "a"])
                 Basic.initialState))))
   <= 1)%nat.
Proof.
  refine (proj2 (proj2 route_hover_sets_the_highlight) "r1" true
            (Basic.setRoutes
               (Basic.networkRoutes
                  [sampleRoute "r1" "a" "b"; sampleRoute "r2" "b" "a"])
               Basic.initialState) _).
  cbn. repeat constructor; cbn; intuition discriminate.
Defined.

Section AdvancedFlags.

Lemma updateRouteHighlight_exact (st : Advanced.State) :
  routeFlagsExact (Advanced.updateRouteHighlight st).
Proof.
  unfold routeFlagsExact.
  cbn [Advanced.updateRouteHighlight Advanced.canvasRoutes
       Advanced.selectedRouteId Advanced.setCanvasRoutes].
  apply Forall_forall. intros r Hr. apply in_map_iff in Hr.
  destruct Hr as (m & <- & _). reflexivity.
Qed.

Lemma updateNodeSelection_exact (st : Advanced.State) :
  nodeFlagsExact (Advanced.updateNodeSelection st).
Proof.
  unfold nodeFlagsExact.
  cbn [Advanced.updateNodeSelection Advanced.canvasNodes
       Advanced.selectedNodeId Advanced.hoveredNodeId Advanced.setCanvasNodes].
  apply Forall_forall. intros n Hn. apply in_map_iff in Hn.
  destruct Hn as (m & <- & _). split; reflexivity.
Qed.

Lemma toggle_changes (s : string) (cur : option string) :
  eqOptString cur (if eqNullable s cur then None else Some s) = false.
Proof.
  destruct cur as [t|]; cbn [eqNullable eqOptString]; [|reflexivity].
  destruct (String.eqb s t) eqn:E; cbn [eqOptString]; [reflexivity|].
  now rewrite String.eqb_sym.
Qed.

Lemma runEffects_route_exact (old new : Advanced.State) :
  eqOptString (Advanced.selectedRouteId old) (Advanced.selectedRouteId new)
    = false ->
  routeFlagsExact (Advanced.runEffects old new).
Proof.
  intros H. unfold Advanced.runEffects. rewrite H.
  pose proof (updateRouteHighlight_exact
                (if (eqOptString (Advanced.selectedNodeId old)
                       (Advanced.selectedNodeId new)
                     && eqOptString (Advanced.hoveredNodeId old)
                          (Advanced.hoveredNodeId new))%bool
                 then new else Advanced.updateNodeSelection new)) as F.
  exact F.
Qed.

Lemma runEffects_node_exact (old new : Advanced.State) :
  eqOptString (Advanced.selectedNodeId old) (Advanced.selectedNodeId new)
    = false ->
  nodeFlagsExact (Advanced.runEffects old new).
Proof.
  intros H. unfold Advanced.runEffects. rewrite H. cbn [andb].
  pose proof (updateNodeSelection_exact new) as F.
  destruct (eqOptString (Advanced.selectedRouteId old) _); exact F.
Qed.

Lemma advanced_hit_overlapping :
  let st := advancedView overlappingNodes 1 0 0 in
  find (Advanced.hit (Advanced.pointerX (mouseAt 0 0) origin st)
          (Advanced.pointerY (mouseAt 0 0) origin st))
    (Advanced.canvasNodes st)
  = Some (canvasNodeAt "a" 0 0 25).
Proof.
  intros st.
  destruct (@advanced_pointer (mouseAt 0 0) origin st 0 0 0 0 0 0 1
              eq_refl eq_refl eq_refl eq_refl eq_refl) as [Ex Ey]; [lra|].
  rewrite Ex, Ey.
  change (Advanced.canvasNodes st)
    with [canvasNodeAt "a" 0 0 25; canvasNodeAt "b" 10 0 25].
  cbn [find].
  assert (H : Advanced.hit (Fin ((0 - 0 - 0) / 1)) (Fin ((0 - 0 - 0) / 1))
                (canvasNodeAt "a" 0 0 25) = true).
  { apply (@advanced_hit_iff _ _ _ 0 0 25); try reflexivity.
    replace ((0 - 0 - 0) / 1)%R with 0%R by lra.
    rewrite dist_self. lra. }
  now rewrite H.
Qed.

End AdvancedFlags.

(** X7.  In [AdvancedNetworkTopology] the flags follow the selection:
    after a route is selected in the panel, the highlighted routes are
    exactly those with the id of the selected route, none when the
    selection was toggled off; after a click that hits a node, the nodes
    flagged as selected or hovered are exactly those with the id of the
    selected or of the hovered node. *)
Theorem advanced_flags_follow_selection :
  (forall src routeId st k,
     let st' := fst (Advanced.step src (Advanced.EvRouteSelect routeId) st k) in
     Advanced.selectedRouteId st'
       = (if eqNullable routeId (Advanced.selectedRouteId st)
          then None else Some routeId) /\
     routeFlagsExact st') /\
  (forall src e rect c st k,
     canvasRect e = Some rect ->
     find (Advanced.hit (Advanced.pointerX e rect st)
             (Advanced.pointerY e rect st))
       (Advanced.canvasNodes st) = Some c ->
     nodeFlagsExact (fst (Advanced.step src (Advanced.EvClick e) st k))).
Proof.
  split.
  - intros src routeId st k. cbv zeta.
    cbn [Advanced.step ret fst Advanced.handle]. split.
    + destruct (runEffects_cells st (Advanced.handleRouteSelect routeId st))
        as (_ & E & _).
      cbv zeta in E. rewrite E. reflexivity.
    + apply runEffects_route_exact.
      cbn [Advanced.handleRouteSelect Advanced.selectedRouteId
           Advanced.setSelectedNodeId Advanced.setSelectedRouteId].
      apply toggle_changes.
  - intros src e rect c st k Er Hfind.
    cbn [Advanced.step ret fst Advanced.handle].
    apply runEffects_node_exact.
    unfold Advanced.handleClick. rewrite Er. cbv zeta. rewrite Hfind.
    cbn [Advanced.handleNodeClick Advanced.selectedNodeId
         Advanced.setSelectedNodeId Advanced.setSelectedRouteId].
    apply toggle_changes.
Qed.

(** A click on the first of two overlapping nodes. *)
Lemma advanced_flags_witness :
  nodeFlagsExact
    (fst (Advanced.step halves (Advanced.EvClick (mouseAt 0 0))
            (advancedView overlappingNodes 1 0 0) 0%nat)).
Proof.
  exact (proj2 advanced_flags_follow_selection halves (mouseAt 0 0) origin
           (canvasNodeAt "a" 0 0 25) (advancedView overlappingNodes 1 0 0)
           0%nat eq_refl advanced_hit_overlapping).
Defined.

(** X8.  New props with a non-empty node list replace the scene by nodes
    and routes without any flag, while the selection cells keep their
    values: in both components a node or route stays selected without
    being drawn as selected. *)
Theorem new_props_drop_flags_keep_selection (src : nat -> R)
    (ns : list Input.NetworkNode.t) (rs : list Input.NetworkRoute.t)
    (k : nat) :
  ns <> [] ->
  (forall st,
     let st' := fst (Advanced.step src (Advanced.EvProps ns rs) st k) in
     Advanced.selectedNodeId st' = Advanced.selectedNodeId st /\
     Advanced.selectedRouteId st' = Advanced.selectedRouteId st /\
     Advanced.hoveredNodeId st' = Advanced.hoveredNodeId st /\
     advancedUnflagged st') /\
  (forall st,
     let st' := fst (Basic.step src (Basic.EvProps ns rs) st k) in
     Basic.selectedNode st' = Basic.selectedNode st /\
     Basic.selectedRoute st' = Basic.selectedRoute st /\
     Basic.isDragging st' = Basic.isDragging st /\
     basicUnflagged st').
Proof.
  intros Hne. destruct ns as [|a ns]; [congruence|]. split; intros st.
  - cbv zeta. cbn [Advanced.step]. unfold Advanced.initEffect.
    cbn [List.length Nat.eqb]. rewrite bind_run. cbn [ret fst].
    repeat (split; [reflexivity|]). split.
    + apply advanced_new_nodes_unflagged.
    + apply advanced_new_routes_unflagged.
  - cbv zeta. cbn [Basic.step]. unfold Basic.initEffect.
    cbn [List.length Nat.eqb]. rewrite bind_run. cbn [ret fst].
    repeat (split; [reflexivity|]). split.
    + apply basic_new_nodes_unflagged.
    + cbn [Basic.routes Basic.setRoutes]. unfold Basic.networkRoutes.
      apply Forall_forall. intros r Hr. apply in_map_iff in Hr.
      destruct Hr as (m & <- & _). reflexivity.
Qed.

(** New props while the route [r1] is selected. *)
Lemma new_props_witness :
  let st := Advanced.setSelectedRouteId (Some "r1") Advanced.initialState in
  let st' := fst (Advanced.step halves
                    (Advanced.EvProps twoNodes [sampleRoute "r1" "a" "b"])
                    st 0%nat) in
  Advanced.selectedRouteId st' = Some "r1" /\ advancedUnflagged st'.
Proof.
  intros st.
  destruct (proj1 (@new_props_drop_flags_keep_selection halves twoNodes
                     [sampleRoute "r1" "a" "b"] 0%nat
                     ltac:(discriminate)) st)
    as (_ & E & _ & U).
  split; [exact E | exact U].
Defined.
(* ================================================================== *)
(** * The scene built from the props *)

Section MapMIndexed.

Context {A B : Type}.

(** A callback that draws [d] random numbers on every element. *)
Lemma mapM_indexed (f : A -> Rand B) (d : nat) (l : list A) :
  (forall a k, In a l -> snd (f a k) = (k + d)%nat) ->
  forall k,
    snd (mapM f l k) = (k + d * List.length l)%nat /\
    forall i a, nth_error l i = Some a ->
      nth_error (fst (mapM f l k)) i = Some (fst (f a (k + d * i)%nat)).
Proof.
  induction l as [|a l IH]; intros H k.
  - split; [simpl; lia|]. intros [|i] a Ha; discriminate.
  - rewrite mapM_cons. cbn [fst snd].
    rewrite (H a k (or_introl eq_refl)).
    destruct (IH (fun b k' Hb => H b k' (or_intror Hb)) (k + d)%nat)
      as [S1 N1].
    split.
    + rewrite S1. cbn [List.length]. lia.
    + intros [|i] b Hb; cbn [nth_error] in *.
      * injection Hb as <-. do 3 f_equal. lia.
      * rewrite (N1 i b Hb). do 3 f_equal. lia.
Qed.

(** A callback that draws no random number gives the same list whatever
    the stream. *)
Lemma mapM_free (f f' : A -> Rand B) (l : list A) :
  (forall a k k', In a l -> f a k = (fst (f' a k'), k)) ->
  forall k k', mapM f l k = (fst (mapM f' l k'), k).
Proof.
  induction l as [|a l IH]; intros H k k'.
  - reflexivity.
  - rewrite !mapM_cons. cbn [fst snd].
    rewrite (H a k k' (or_introl eq_refl)). cbn [fst snd].
    rewrite (IH (fun b k1 k2 Hb => H b k1 k2 (or_intror Hb)) k
               (snd (f' a k'))).
    reflexivity.
Qed.

End MapMIndexed.

Lemma Forall2_map_r {A B : Type} (Q : A -> B -> Prop) (h : B -> B)
    (l : list A) (l' : list B) :
  (forall a b, Q a b -> Q a (h b)) ->
  Forall2 Q l l' -> Forall2 Q l (map h l').
Proof. intros Hh. induction 1; simpl; constructor; auto. Qed.

Lemma Forall2_Exists_r {A B : Type} (Q : A -> B -> Prop) (P : B -> Prop)
    (l : list A) (l' : list B) (a : A) :
  Forall2 Q l l' -> In a l -> (forall b, Q a b -> P b) -> Exists P l'.
Proof.
  induction 1 as [|x y l l' H _ IH]; intros Hin HP; [destruct Hin|].
  destruct Hin as [-> | Hin]; [left; auto | right; auto].
Qed.

Section SceneOfProps.

Local Open Scope R_scope.

Variable src : nat -> R.

Lemma advanced_nodes_mirror (ns : list Input.NetworkNode.t) (k : nat) :
  Forall2 advancedNodeOf ns (fst (Advanced.newCanvasNodes src ns k)).
Proof.
  unfold Advanced.newCanvasNodes. apply mapM_Forall2. intros a k' _.
  unfold Advanced.newCanvasNode. rewrite !bind_run.
  repeat split.
Qed.

Lemma basic_nodes_mirror (ns : list Input.NetworkNode.t) (k : nat) :
  Forall2 basicNodeOf ns (fst (Basic.networkNodes src ns k)).
Proof.
  unfold Basic.networkNodes. apply mapM_Forall2. intros a k' _.
  unfold Basic.networkNode. rewrite !bind_run.
  repeat split.
Qed.

Lemma find_existsb {N : Type} (f : N -> bool) (l : list N) :
  existsb f l = match find f l with Some _ => true | None => false end.
Proof.
  induction l as [|a l IH]; [reflexivity|]. simpl.
  destruct (f a); [reflexivity | exact IH].
Qed.

Lemma existsb_id {N M : Type} (idN : N -> string) (idM : M -> string)
    (i : string) (l : list N) (l' : list M) :
  map idN l = map idM l' ->
  existsb (fun n => String.eqb (idN n) i) l
  = existsb (fun n => String.eqb (idM n) i) l'.
Proof.
  revert l'. induction l as [|a l IH]; intros [|b l'] E;
    try discriminate; [reflexivity|].
  simpl in *. injection E as E1 E2. rewrite E1. f_equal. now apply IH.
Qed.

(** A route is built exactly when both endpoints are found. *)
Lemma advanced_newCanvasRoute_some (nodes : list Advanced.CanvasNode.t)
    (route : Input.NetworkRoute.t) :
  match Advanced.newCanvasRoute nodes route with
  | Some c =>
      existsb (fun n => String.eqb (Advanced.CanvasNode.id n)
                          (Input.NetworkRoute.from_id route)) nodes
      && existsb (fun n => String.eqb (Advanced.CanvasNode.id n)
                             (Input.NetworkRoute.to_id route)) nodes = true /\
      advancedRouteOf route c /\
      Advanced.CanvasRoute.isHighlighted c = false
  | None =>
      existsb (fun n => String.eqb (Advanced.CanvasNode.id n)
                          (Input.NetworkRoute.from_id route)) nodes
      && existsb (fun n => String.eqb (Advanced.CanvasNode.id n)
                             (Input.NetworkRoute.to_id route)) nodes = false
  end.
Proof.
  rewrite !find_existsb. unfold Advanced.newCanvasRoute.
  destruct (find _ nodes) as [f|]; [|reflexivity].
  destruct (find _ nodes) as [t|]; [|reflexivity].
  repeat split.
Qed.

Lemma advanced_routes_mirror (ns : list Input.NetworkNode.t)
    (nodes : list Advanced.CanvasNode.t) (rs : list Input.NetworkRoute.t) :
  map Advanced.CanvasNode.id nodes = map Input.NetworkNode.id ns ->
  Forall2 advancedRouteOf (filter (resolvable ns) rs)
    (Advanced.newCanvasRoutes nodes rs).
Proof.
  intros E. unfold Advanced.newCanvasRoutes.
  induction rs as [|r rs IH]; [constructor|].
  cbn [map filter filterBoolean]. unfold resolvable at 1.
  rewrite <- !(existsb_id _ _ _ _ _ E).
  pose proof (advanced_newCanvasRoute_some nodes r) as H.
  destruct (Advanced.newCanvasRoute nodes r) as [c|].
  - destruct H as (-> & H & _). cbn [filterBoolean]. now constructor.
  - rewrite H. exact IH.
Qed.

(** The numbers of a spread node set: no element of the stream is read. *)
Lemma advanced_newCanvasNode_free (src' : nat -> R) (m M n N lat lng : R)
    (node : Input.NetworkNode.t) (k k' : nat) :
  Input.NetworkNode.lat node = Fin lat ->
  Input.NetworkNode.lng node = Fin lng ->
  m < M -> n < N ->
  Advanced.newCanvasNode src (Fin m) (Fin M) (Fin n) (Fin N) node k
  = (fst (Advanced.newCanvasNode src' (Fin m) (Fin M) (Fin n) (Fin N)
            node k'), k).
Proof.
  intros Elat Elng Hm Hn. unfold Advanced.newCanvasNode.
  rewrite Elat, Elng.
  assert (D1 : (Fin N === Fin n)%js = false) by (apply Reqb_false; lra).
  assert (D2 : (Fin M === Fin m)%js = false) by (apply Reqb_false; lra).
  rewrite D1, D2. cbn [orb].
  unfold Advanced.padding, Advanced.canvasWidth, Advanced.canvasHeight.
  cbn [nsub nmul nadd].
  rewrite (@ndiv_Fin (lng - n) (N - n)) by lra.
  rewrite (@ndiv_Fin (M - lat) (M - m)) by lra.
  cbn [nmul nadd]. rewrite !bind_run. unfold ret. cbn [fst snd isNaN].
  reflexivity.
Qed.

Lemma basic_networkNode_free (src' : nat -> R) (m M n N lat lng : R)
    (node : Input.NetworkNode.t) (k k' : nat) :
  Input.NetworkNode.lat node = Fin lat ->
  Input.NetworkNode.lng node = Fin lng ->
  m < M -> n < N ->
  Basic.networkNode src (Fin m) (Fin M) (Fin n) (Fin N) node k
  = (fst (Basic.networkNode src' (Fin m) (Fin M) (Fin n) (Fin N) node k'), k).
Proof.
  intros Elat Elng Hm Hn. unfold Basic.networkNode.
  rewrite Elat, Elng.
  unfold Basic.padding, Basic.canvasWidth, Basic.canvasHeight.
  cbn [nsub nmul nadd].
  rewrite (@ndiv_Fin (lng - n) (N - n)) by lra.
  rewrite (@ndiv_Fin (M - lat) (M - m)) by lra.
  cbn [nmul nadd]. rewrite !bind_run. unfold ret. cbn [fst snd isNaN].
  reflexivity.
Qed.

End SceneOfProps.


Lemma advanced_mount_routes_mirror (src : nat -> R)
    (ns : list Input.NetworkNode.t) (rs : list Input.NetworkRoute.t)
    (k : nat) :
  Forall2 advancedRouteOf (filter (resolvable ns) rs)
    (Advanced.canvasRoutes (fst (Advanced.mount src ns rs k))).
Proof.
  unfold Advanced.mount. rewrite bind_run. cbn [ret fst].
  cbn [Advanced.updateRouteHighlight Advanced.updateNodeSelection
       Advanced.canvasRoutes Advanced.setCanvasRoutes Advanced.setCanvasNodes].
  apply Forall2_map_r; [intros a b H; exact H|].
  unfold Advanced.initEffect. destruct ns as [|a ns].
  - cbn [List.length Nat.eqb ret fst Advanced.canvasRoutes
         Advanced.initialState].
    replace (filter (resolvable []) rs) with (@nil Input.NetworkRoute.t);
      [constructor|].
    induction rs as [|r rs IH]; [reflexivity | exact IH].
  - cbn [List.length Nat.eqb]. rewrite bind_run.
    cbn [ret fst Advanced.canvasRoutes Advanced.setCanvasRoutes].
    apply advanced_routes_mirror. apply advanced_node_ids.
Qed.

(** X10.  The routes [AdvancedNetworkTopology] has after mounting are the
    input routes whose two endpoints are ids of input nodes: all of them,
    in the order of the input and as often as they occur there, each with
    the id, distance, cost and vehicle type of the input route. *)
Theorem scene_routes_are_the_resolvable_routes (src : nat -> R)
    (ns : list Input.NetworkNode.t) (rs : list Input.NetworkRoute.t)
    (k : nat) :
  Forall2 advancedRouteOf (filter (resolvable ns) rs)
    (Advanced.canvasRoutes (fst (Advanced.mount src ns rs k))).
Proof. apply advanced_mount_routes_mirror. Qed.
(* ================================================================== *)
(** * The projection: determinism, margins and degenerate input *)

Section ProjectionEdge.

Local Open Scope R_scope.

Variable src : nat -> R.

Lemma specX_low (pad W mn mx : R) : mn < mx -> specX pad W mn mx mn = pad.
Proof. intros H. unfold specX. field. lra. Qed.

Lemma specX_high (pad W mn mx : R) :
  mn < mx -> specX pad W mn mx mx = W - pad.
Proof. intros H. unfold specX. field. lra. Qed.

Lemma specY_high (pad H mn mx : R) : mn < mx -> specY pad H mn mx mx = pad.
Proof. intros H0. unfold specY. field. lra. Qed.

Lemma specY_low (pad H mn mx : R) :
  mn < mx -> specY pad H mn mx mn = H - pad.
Proof. intros H0. unfold specY. field. lra. Qed.

(** The minimum and the maximum of a list without [NaN] are elements of
    it, unless it is empty. *)
Lemma min_max_attained (l : list num) (mn mx : R) :
  (forall a, In a l -> isNaN a = false) ->
  Math_min l = Fin mn -> Math_max l = Fin mx ->
  In (Fin mn) l /\ In (Fin mx) l.
Proof.
  intros H E1 E2. unfold Math_min, Math_max in *.
  destruct (fold_min2_spec l PInf eq_refl H) as (_ & _ & _ & A4).
  destruct (fold_max2_spec l NInf eq_refl H) as (_ & _ & _ & B4).
  cbv zeta in A4, B4. rewrite E1 in A4. rewrite E2 in B4.
  destruct A4 as [A4 | A4]; [discriminate|].
  destruct B4 as [B4 | B4]; [discriminate|].
  split; assumption.
Qed.

(** The bounds of a non-empty list of one finite number. *)
Lemma min_max_const {A : Type} (f : A -> num) (l : list A) (g : R) :
  l <> [] -> Forall (fun a => f a = Fin g) l ->
  Math_min (map f l) = Fin g /\ Math_max (map f l) = Fin g.
Proof.
  intros Hne Hall.
  assert (Hgg : Rltb g g = false) by (apply Rltb_false; lra).
  assert (Hfold : forall l', Forall (fun a => f a = Fin g) l' ->
            fold_left min2 (map f l') (Fin g) = Fin g /\
            fold_left max2 (map f l') (Fin g) = Fin g).
  { induction 1 as [|a l' Ha _ IH]; [split; reflexivity|].
    cbn [map fold_left]. rewrite Ha. cbn [min2 max2 nlt]. rewrite Hgg.
    exact IH. }
  destruct Hall as [|a l Ha Hl]; [congruence|].
  unfold Math_min, Math_max. cbn [map fold_left]. rewrite Ha.
  cbn [min2 max2 nlt]. now apply Hfold.
Qed.

(** The callback of [AdvancedNetworkTopology] on a degenerate axis. *)
Lemma advanced_newCanvasNode_centre (minLat maxLat minLng maxLng : num)
    (node : Input.NetworkNode.t) (k : nat) :
  ((maxLng === minLng) || (maxLat === minLat))%js = true ->
  exists c,
    Advanced.newCanvasNode src minLat maxLat minLng maxLng node k
      = (c, S (S k)) /\
    Advanced.CanvasNode.x c = Fin (400 + (src k - 0.5) * 200) /\
    Advanced.CanvasNode.y c = Fin (300 + (src (S k) - 0.5) * 200).
Proof.
  intros Deg. unfold Advanced.newCanvasNode. rewrite Deg.
  unfold bind, ret, Math_random. simpl.
  assert (Z : Rzerob 2 = false) by (apply Rzerob_false; lra).
  rewrite Z. simpl.
  eexists. split; [reflexivity|].
  split; simpl; f_equal; lra.
Qed.

(** The callbacks on a latitude axis that gives [NaN]. *)
Lemma basic_networkNode_y_random (minLat maxLat : num) (n N lng : R)
    (node : Input.NetworkNode.t) (k : nat) :
  Input.NetworkNode.lng node = Fin lng -> n < N ->
  ((maxLat - Input.NetworkNode.lat node) / (maxLat - minLat))%js = NaN ->
  exists c,
    Basic.networkNode src minLat maxLat (Fin n) (Fin N) node k = (c, S k) /\
    Basic.NetworkNode.x c = Fin (specX 50 800 n N lng) /\
    Basic.NetworkNode.y c = Fin (src k * 500 + 50).
Proof.
  intros Elng Hn Hq. unfold Basic.networkNode.
  rewrite Elng, Hq.
  unfold Basic.padding, Basic.canvasWidth, Basic.canvasHeight.
  cbn [nsub nmul nadd].
  rewrite (@ndiv_Fin (lng - n) (N - n)) by lra.
  cbn [nmul nadd]. rewrite !bind_run. unfold ret, Math_random.
  cbn [fst snd isNaN nmul nadd].
  eexists. split; [reflexivity|].
  split; cbn; [reflexivity | f_equal; lra].
Qed.

Lemma advanced_newCanvasNode_y_random (n N lng : R)
    (node : Input.NetworkNode.t) (k : nat) :
  Input.NetworkNode.lng node = Fin lng -> n < N ->
  exists c,
    Advanced.newCanvasNode src NaN NaN (Fin n) (Fin N) node k = (c, S k) /\
    Advanced.CanvasNode.x c = Fin (specX 60 800 n N lng) /\
    Advanced.CanvasNode.y c = Fin (src k * 480 + 60).
Proof.
  intros Elng Hn. unfold Advanced.newCanvasNode.
  rewrite Elng.
  assert (D1 : (Fin N === Fin n)%js = false) by (apply Reqb_false; lra).
  rewrite D1. cbn [orb neq].
  unfold Advanced.padding, Advanced.canvasWidth, Advanced.canvasHeight.
  assert (Q : ((NaN - Input.NetworkNode.lat node) / (NaN - NaN))%js = NaN)
    by now destruct (Input.NetworkNode.lat node).
  rewrite Q. cbn [nsub nmul nadd].
  rewrite (@ndiv_Fin (lng - n) (N - n)) by lra.
  cbn [nmul nadd]. rewrite !bind_run. unfold ret, Math_random.
  cbn [fst snd isNaN nmul nadd].
  eexists. split; [reflexivity|].
  split; cbn; [reflexivity | f_equal; lra].
Qed.

(** The ratio of the latitude axis is [NaN] when a latitude is, and when
    all latitudes are one number. *)
Lemma lat_ratio_NaN (ns : list Input.NetworkNode.t)
    (a : Input.NetworkNode.t) :
  ns <> [] -> In a ns ->
  In NaN (map Input.NetworkNode.lat ns) \/
  (exists l, Forall (fun b => Input.NetworkNode.lat b = Fin l) ns) ->
  ((Math_max (map Input.NetworkNode.lat ns) - Input.NetworkNode.lat a)
   / (Math_max (map Input.NetworkNode.lat ns)
      - Math_min (map Input.NetworkNode.lat ns)))%js = NaN.
Proof.
  intros Hne Ha [Hnan | (l & Hall)].
  - unfold Math_min, Math_max.
    rewrite (fold_min2_In_NaN _ _ Hnan), (fold_max2_In_NaN _ _ Hnan).
    now destruct (Input.NetworkNode.lat a).
  - destruct (min_max_const Input.NetworkNode.lat Hne Hall) as [-> ->].
    rewrite Forall_forall in Hall. rewrite (Hall a Ha).
    cbn [nsub ndiv].
    assert (Z : Rzerob (l - l) = true) by (apply Rzerob_true; lra).
    now rewrite Z.
Qed.

End ProjectionEdge.





(** X13.  In [AdvancedNetworkTopology], when all nodes share one finite
    longitude or one finite latitude (a single node with finite
    coordinates is the smallest case), both coordinates of every node are
    random, whatever the other axis holds: node [i] lies at
    [400 + (r - 0.5) * 200] and [300 + (r' - 0.5) * 200] for the random
    numbers [r], [r'] number [2i] and [2i + 1], inside the square
    [[300, 500] x [200, 400]] around the centre. *)
Theorem degenerate_axis_scatters_around_centre (src : nat -> R)
    (ns : list Input.NetworkNode.t) (g : R) (k : nat) :
  ns <> [] ->
  Forall (fun a => Input.NetworkNode.lng a = Fin g) ns \/
  Forall (fun a => Input.NetworkNode.lat a = Fin g) ns ->
  snd (Advanced.newCanvasNodes src ns k) = (k + 2 * List.length ns)%nat /\
  (forall i a, nth_error ns i = Some a ->
     exists c,
       nth_error (fst (Advanced.newCanvasNodes src ns k)) i = Some c /\
       Advanced.CanvasNode.x c
         = Fin (400 + (src (k + 2 * i)%nat - 0.5) * 200)%R /\
       Advanced.CanvasNode.y c
         = Fin (300 + (src (S (k + 2 * i)) - 0.5) * 200)%R) /\
  (unitStream src ->
   Forall (fun c => inRange 300 500 (Advanced.CanvasNode.x c) /\
                    inRange 200 400 (Advanced.CanvasNode.y c))
     (fst (Advanced.newCanvasNodes src ns k))).
Proof.
  intros Hne Hdeg.
  assert (Deg : ((Math_max (map Input.NetworkNode.lng ns)
                  === Math_min (map Input.NetworkNode.lng ns))
                 || (Math_max (map Input.NetworkNode.lat ns)
                     === Math_min (map Input.NetworkNode.lat ns)))%js = true).
  { destruct Hdeg as [H | H].
    - destruct (min_max_const Input.NetworkNode.lng Hne H) as [-> ->].
      assert (E : (Fin g === Fin g)%js = true) by now apply neq_Fin.
      now rewrite E.
    - destruct (min_max_const Input.NetworkNode.lat Hne H) as [-> ->].
      assert (E : (Fin g === Fin g)%js = true) by now apply neq_Fin.
      rewrite E. apply Bool.orb_true_r. }
  unfold Advanced.newCanvasNodes. cbv zeta.
  set (f := Advanced.newCanvasNode src _ _ _ _) in *.
  assert (Hf : forall a k', exists c,
            f a k' = (c, S (S k')) /\
            Advanced.CanvasNode.x c = Fin (400 + (src k' - 0.5) * 200)%R /\
            Advanced.CanvasNode.y c
              = Fin (300 + (src (S k') - 0.5) * 200)%R).
  { intros a k'. now apply advanced_newCanvasNode_centre. }
  destruct (@mapM_indexed _ _ f 2 ns) with (k := k) as [S1 N1].
  { intros a k' _. destruct (Hf a k') as (c & -> & _). simpl. lia. }
  split; [exact S1|]. split.
  - intros i a Ha. rewrite (N1 i a Ha).
    destruct (Hf a (k + 2 * i)%nat) as (c & -> & Hx & Hy).
    exists c. auto.
  - intros Hu. apply mapM_Forall. intros a k' _.
    destruct (Hf a k') as (c & E & Hx & Hy). rewrite E. cbn [fst].
    rewrite Hx, Hy.
    pose proof (Hu k') as H1. pose proof (Hu (S k')) as H2.
    split; eexists; (split; [reflexivity | lra]).
Qed.

(** A single node. *)
Lemma degenerate_axis_witness :
  snd (Advanced.newCanvasNodes halves [sampleNode "a" 10 10] 0%nat)
  = (0 + 2 * 1)%nat.
Proof.
  refine (proj1 (@degenerate_axis_scatters_around_centre halves
                   [sampleNode "a" 10 10] 10 0%nat _ _)).
  - discriminate.
  - left. repeat constructor.
Defined.


(* ================================================================== *)
(** * The grid *)

Section GridLines.

Local Open Scope R_scope.

Variable body : num -> list CanvasCall.

Lemma gridLoop_lines (w : R) (n : nat) :
  50 * INR n <= w < 50 * INR (S n) ->
  forall fuel i x,
    x = 50 * INR i -> (i <= S n)%nat -> (S n - i < fuel)%nat ->
    Renderer.gridLoop fuel (Fin x) (Fin w) body
    = Some (List.concat (map (fun j => body (Fin (50 * INR j)))
                      (seq i (S n - i)))).
Proof.
  intros Hw. induction fuel as [|fuel IH]; intros i x Ex Hi Hf; [lia|].
  cbn [Renderer.gridLoop]. subst x.
  destruct (Nat.eq_dec i (S n)) as [-> | Hne].
  - assert (C : (Fin (50 * INR (S n)) <=? Fin w)%js = false).
    { destruct (Fin (50 * INR (S n)) <=? Fin w)%js eqn:E; [|reflexivity].
      apply nle_Fin in E. lra. }
    rewrite C, Nat.sub_diag. reflexivity.
  - assert (Hin : (i <= n)%nat) by lia.
    assert (C : (Fin (50 * INR i) <=? Fin w)%js = true).
    { apply nle_Fin. apply le_INR in Hin. lra. }
    rewrite C. cbn [nadd Renderer.gridSize].
    rewrite (IH (S i) (50 * INR i + 50)); [| rewrite S_INR; lra | lia | lia].
    replace (S n - i)%nat with (S (S n - S i)) by lia.
    reflexivity.
Qed.

Lemma gridLoop_nothing (fuel : nat) (x limit : num) :
  (x <=? limit)%js = false ->
  Renderer.gridLoop (S fuel) x limit body = Some [].
Proof. intros H. cbn [Renderer.gridLoop]. now rewrite H. Qed.

Lemma gridLoop_endless (fuel : nat) (x : R) :
  Renderer.gridLoop fuel (Fin x) PInf body = None.
Proof.
  revert x. induction fuel as [|fuel IH]; intros x; [reflexivity|].
  cbn [Renderer.gridLoop nle nadd Renderer.gridSize]. now rewrite IH.
Qed.

End GridLines.


(* ================================================================== *)
(** * Lightened colours *)

Section ColourStrings.

Import ZArith Ascii.
Local Open Scope Z_scope.

Lemma digit_cases (d : Z) :
  0 <= d < 16 ->
  d = 0 \/ d = 1 \/ d = 2 \/ d = 3 \/ d = 4 \/ d = 5 \/ d = 6 \/ d = 7 \/
  d = 8 \/ d = 9 \/ d = 10 \/ d = 11 \/ d = 12 \/ d = 13 \/ d = 14 \/ d = 15.
Proof. lia. Qed.

Lemma digitValue_hexDigit (d : Z) :
  0 <= d < 16 -> JSInt.digitValue (JSInt.hexDigit d) = Some d.
Proof.
  intros H. apply digit_cases in H.
  repeat (destruct H as [-> | H]; [reflexivity|]). now subst.
Qed.

(** A digit is no white space, no sign and no [x]. *)
Lemma hexDigit_plain (d : Z) :
  0 <= d < 16 ->
  JSInt.isWhiteSpace (JSInt.hexDigit d) = false /\
  Ascii.eqb (JSInt.hexDigit d) "-" = false /\
  Ascii.eqb (JSInt.hexDigit d) "+" = false /\
  Ascii.eqb (JSInt.hexDigit d) "x" = false /\
  Ascii.eqb (JSInt.hexDigit d) "X" = false.
Proof.
  intros H. apply digit_cases in H.
  repeat (destruct H as [-> | H]; [repeat split|]). subst. repeat split.
Qed.

Lemma digits16_step (fuel : nat) (n q d : Z) (acc : string) :
  n = 16 * q + d -> 0 <= d < 16 -> q <> 0 ->
  JSInt.digits16 (S fuel) n acc
  = JSInt.digits16 fuel q (String (JSInt.hexDigit d) acc).
Proof.
  intros En Hd Hq. cbn [JSInt.digits16].
  assert (E1 : n mod 16 = d) by (subst n; Z.div_mod_to_equations; lia).
  assert (E2 : n / 16 = q) by (subst n; Z.div_mod_to_equations; lia).
  rewrite E1, E2. apply Z.eqb_neq in Hq. now rewrite Hq.
Qed.

Lemma digits16_last (fuel : nat) (d : Z) (acc : string) :
  0 <= d < 16 ->
  JSInt.digits16 (S fuel) d acc = String (JSInt.hexDigit d) acc.
Proof.
  intros Hd. cbn [JSInt.digits16].
  rewrite Z.mod_small, Z.div_small by lia. reflexivity.
Qed.

(** The seven digits of [0x1000000 + v]: a 1 before the six digits of
    the three channels. *)
Lemma toString16_seven (r g b : Z) :
  0 <= r <= 255 -> 0 <= g <= 255 -> 0 <= b <= 255 ->
  JSInt.toString16 (16777216 + r * 65536 + g * 256 + b)
  = String "1" (hex2 r ++ hex2 g ++ hex2 b).
Proof.
  intros Hr Hg Hb. unfold JSInt.toString16.
  set (n := 16777216 + r * 65536 + g * 256 + b).
  assert (Hn : 16777216 <= n < 33554432) by (unfold n; lia).
  assert (E0 : (n =? 0) = false) by (apply Z.eqb_neq; lia).
  assert (E1 : (n <? 0) = false) by (apply Z.ltb_ge; lia).
  assert (E2 : Z.log2 n = 24).
  { apply Z.log2_unique; [lia|]. change (2 ^ 24) with 16777216.
    change (2 ^ (24 + 1)) with 33554432. exact Hn. }
  rewrite E0, E1, E2. change (Z.to_nat 24) with 24%nat.
  rewrite (@digits16_step _ n (1048576 + r * 4096 + g * 16 + b / 16)
             (b mod 16));
    [| unfold n; Z.div_mod_to_equations; lia
     | Z.div_mod_to_equations; lia | Z.div_mod_to_equations; lia].
  rewrite (@digits16_step _ _ (65536 + r * 256 + g) (b / 16));
    [| Z.div_mod_to_equations; lia
     | Z.div_mod_to_equations; lia | lia].
  rewrite (@digits16_step _ _ (4096 + r * 16 + g / 16) (g mod 16));
    [| Z.div_mod_to_equations; lia
     | Z.div_mod_to_equations; lia | Z.div_mod_to_equations; lia].
  rewrite (@digits16_step _ _ (256 + r) (g / 16));
    [| Z.div_mod_to_equations; lia
     | Z.div_mod_to_equations; lia | lia].
  rewrite (@digits16_step _ _ (16 + r / 16) (r mod 16));
    [| Z.div_mod_to_equations; lia
     | Z.div_mod_to_equations; lia | Z.div_mod_to_equations; lia].
  rewrite (@digits16_step _ _ 1 (r / 16));
    [| Z.div_mod_to_equations; lia
     | Z.div_mod_to_equations; lia | lia].
  rewrite digits16_last by lia.
  reflexivity.
Qed.

Lemma channel_Int (z : Z) : Renderer.channel (JSInt.Int z) = saturate z.
Proof.
  unfold Renderer.channel, saturate, JSInt.ltb.
  destruct (z <? 255) eqn:E1; destruct (z <? 1) eqn:E2;
    try apply Z.ltb_lt in E1; try apply Z.ltb_ge in E1;
    try apply Z.ltb_lt in E2; try apply Z.ltb_ge in E2; lia.
Qed.

Lemma saturate_range (z : Z) : 0 <= saturate z <= 255.
Proof. unfold saturate. lia. Qed.

Lemma channel_range (c : JSInt.t) : 0 <= Renderer.channel c <= 255.
Proof.
  destruct c; try (cbn; lia).
  rewrite channel_Int. apply saturate_range.
Qed.

Lemma lightenColor_channels (color : string) (percent : num) :
  let num := Colour.numberOf color in
  let amt := JSInt.Math_round (Fin 2.55 * percent)%js in
  Renderer.lightenColor color percent
  = rgb (Renderer.channel
           (JSInt.add (JSInt.Int (JSInt.sar num 16)) amt))
        (Renderer.channel
           (JSInt.add
              (JSInt.Int (JSInt.band (JSInt.Int (JSInt.sar num 8))
                            (JSInt.Int 255))) amt))
        (Renderer.channel
           (JSInt.add (JSInt.Int (JSInt.band num (JSInt.Int 255))) amt)).
Proof.
  cbv zeta. unfold Renderer.lightenColor. cbv zeta.
  fold (Colour.numberOf color).
  rewrite toString16_seven by apply channel_range.
  reflexivity.
Qed.

Lemma ToInt32_small (n : Z) :
  0 <= n < 2147483648 -> JSInt.ToInt32 (JSInt.Int n) = n.
Proof.
  intros H. unfold JSInt.ToInt32.
  change (2 ^ 31) with 2147483648. change (2 ^ 32) with 4294967296.
  rewrite Z.mod_small by lia. lia.
Qed.

(** The three channels of a number below [0x1000000]. *)
Lemma channels_of_number (num : JSInt.t) (n : Z) :
  JSInt.ToInt32 num = n -> 0 <= n < 16777216 ->
  JSInt.sar num 16 = n / 65536 /\
  JSInt.band (JSInt.Int (JSInt.sar num 8)) (JSInt.Int 255)
    = (n / 256) mod 256 /\
  JSInt.band num (JSInt.Int 255) = n mod 256.
Proof.
  intros E Hn. unfold JSInt.sar, JSInt.band. rewrite E.
  rewrite !Z.shiftr_div_pow2 by lia.
  change (2 ^ 16) with 65536. change (2 ^ 8) with 256.
  rewrite (@ToInt32_small 255) by lia.
  rewrite (@ToInt32_small (n / 256)) by (Z.div_mod_to_equations; lia).
  change 255 with (Z.ones 8). rewrite !Z.land_ones by lia.
  change (2 ^ 8) with 256. repeat split.
Qed.

(** The colour string of three channels is read back as their number. *)
Lemma numberOf_rgb (r g b : Z) :
  0 <= r <= 255 -> 0 <= g <= 255 -> 0 <= b <= 255 ->
  Colour.numberOf (rgb r g b) = JSInt.Int (r * 65536 + g * 256 + b).
Proof.
  intros Hr Hg Hb. unfold Colour.numberOf, rgb, hex2.
  cbn [append JSInt.removeFirst Ascii.eqb Bool.eqb].
  assert (D1 : 0 <= r / 16 < 16) by (Z.div_mod_to_equations; lia).
  assert (D2 : 0 <= r mod 16 < 16) by (Z.div_mod_to_equations; lia).
  assert (D3 : 0 <= g / 16 < 16) by (Z.div_mod_to_equations; lia).
  assert (D4 : 0 <= g mod 16 < 16) by (Z.div_mod_to_equations; lia).
  assert (D5 : 0 <= b / 16 < 16) by (Z.div_mod_to_equations; lia).
  assert (D6 : 0 <= b mod 16 < 16) by (Z.div_mod_to_equations; lia).
  destruct (hexDigit_plain D1) as (W1 & M1 & P1 & _).
  destruct (hexDigit_plain D2) as (_ & _ & _ & X2 & X2').
  unfold JSInt.parseInt16.
  cbn [JSInt.trimStart]. rewrite W1.
  cbn [JSInt.stripSign]. rewrite M1, P1.
  cbn [JSInt.stripHexPrefix]. rewrite X2, X2', Bool.andb_false_r.
  cbn [JSInt.digitsValue orb].
  rewrite !digitValue_hexDigit by assumption.
  cbn [JSInt.digitsValue].
  rewrite ?digitValue_hexDigit by assumption.
  unfold JSInt.nearestDouble.
  match goal with
  | |- context [?m <? 2 ^ 53] =>
      assert (Em : m = r * 65536 + g * 256 + b)
        by (Z.div_mod_to_equations; lia);
      rewrite Em
  end.
  assert (L : (r * 65536 + g * 256 + b <? 2 ^ 53) = true).
  { apply Z.ltb_lt. change (2 ^ 53) with 9007199254740992. lia. }
  rewrite L. reflexivity.
Qed.

End ColourStrings.

Section Rounding.

Local Open Scope R_scope.

Lemma Int_part_unique (r : R) (z : Z) :
  IZR z <= r < IZR z + 1 -> Int_part r = z.
Proof.
  intros [H1 H2]. unfold Int_part.
  rewrite <- (up_tech r z H1); [lia|]. rewrite plus_IZR. exact H2.
Qed.

(** The amounts of the percentages 0, 20 and 30. *)
Lemma Math_round_amounts :
  JSInt.Math_round (Fin 2.55 * Fin 0)%js = JSInt.Int 0 /\
  JSInt.Math_round (Fin 2.55 * Fin 20)%js = JSInt.Int 51 /\
  JSInt.Math_round (Fin 2.55 * Fin 30)%js = JSInt.Int 77.
Proof.
  cbn [nmul JSInt.Math_round].
  repeat split; f_equal; apply Int_part_unique; simpl; lra.
Qed.

End Rounding.

Section LightenedChannels.

Import ZArith.

Lemma lightenColor_adds (color : string) (percent : num) (n a : Z) :
  JSInt.ToInt32 (Colour.numberOf color) = n ->
  (0 <= n < 16777216)%Z ->
  JSInt.Math_round (Fin 2.55 * percent) = JSInt.Int a ->
  Renderer.lightenColor color percent
  = rgb (saturate (n / 65536 + a)) (saturate ((n / 256) mod 256 + a))
        (saturate (n mod 256 + a)).
Proof.
  intros En Hn Ea.
  rewrite lightenColor_channels. cbv zeta.
  destruct (channels_of_number _ En Hn) as (-> & -> & ->).
  rewrite Ea. cbn [JSInt.add]. now rewrite !channel_Int.
Qed.

Lemma lightenColor_rgb (r g b a : Z) (percent : num) :
  (0 <= r <= 255)%Z -> (0 <= g <= 255)%Z -> (0 <= b <= 255)%Z ->
  JSInt.Math_round (Fin 2.55 * percent) = JSInt.Int a ->
  Renderer.lightenColor (rgb r g b) percent
  = rgb (saturate (r + a)) (saturate (g + a)) (saturate (b + a)).
Proof.
  intros Hr Hg Hb Ea.
  rewrite (@lightenColor_adds (rgb r g b) percent
             (r * 65536 + g * 256 + b)%Z a); auto.
  - f_equal; f_equal; Z.div_mod_to_equations; lia.
  - rewrite numberOf_rgb by assumption. apply ToInt32_small. lia.
  - lia.
Qed.

Lemma saturate_channel (v : Z) : (0 <= v <= 255)%Z -> saturate v = v.
Proof. unfold saturate. lia. Qed.

Lemma saturate_white (a : Z) : (0 <= a)%Z -> saturate (255 + a) = 255%Z.
Proof. unfold saturate. lia. Qed.

End LightenedChannels.

(** X16.  Whatever the colour string and the percentage (not a colour,
    infinite and [NaN] included), [lightenColor] returns a colour string:
    [#] and six lower-case hexadecimal digits, two for each of three
    channels within [[0, 255]]. *)
Theorem lighten_color_returns_a_colour (color : string) (percent : num) :
  exists r g b,
    (0 <= r <= 255)%Z /\ (0 <= g <= 255)%Z /\ (0 <= b <= 255)%Z /\
    Renderer.lightenColor color percent = rgb r g b.
Proof.
  pose proof (lightenColor_channels color percent) as E. cbv zeta in E.
  do 3 eexists. repeat split; [| | | | | |exact E];
    apply channel_range.
Qed.




(* ================================================================== *)
(** * The capacity indicator *)

Section CapacityIndicator.

Local Open Scope R_scope.

Variable node : Basic.NetworkNode.t.
Variables x y r : R.
Hypothesis node_x : Basic.NetworkNode.x node = Fin x.
Hypothesis node_y : Basic.NetworkNode.y node = Fin y.
Hypothesis node_radius : Basic.NetworkNode.radius node = Fin r.

(** The white bar under the node. *)
Lemma indicator_without_production (c : R) :
  Basic.NetworkNode.capacity node = Some (Fin c) -> c <> 0 ->
  Indicator.truthy (Basic.NetworkNode.production node) = false ->
  Indicator.capacityIndicator node
  = [ Indicator.FillRect "#ffffff" (Fin (x - r * 1.5 / 2)) (Fin (y + r + 5))
        (Fin (r * 1.5)) (Fin 4);
      Indicator.FillRect "#10B981" (Fin (x - r * 1.5 / 2)) (Fin (y + r + 5))
        (Fin (r * 1.5 * 50 / 100)) (Fin 4) ].
Proof.
  intros Ec Hc Hp. unfold Indicator.capacityIndicator.
  rewrite Ec, Hp, node_x, node_y, node_radius.
  cbn [Indicator.truthy]. apply Rzerob_false in Hc. rewrite Hc.
  cbn [negb nmul nadd].
  rewrite !ndiv_Fin by lra. cbn [nsub nlt].
  assert (L1 : Rltb 80 50 = false) by (apply Rltb_false; lra).
  assert (L2 : Rltb 60 50 = false) by (apply Rltb_false; lra).
  rewrite L1, L2. reflexivity.
Qed.

Lemma indicator_with_production (c p : R) :
  Basic.NetworkNode.capacity node = Some (Fin c) -> c <> 0 ->
  Basic.NetworkNode.production node = Some (Fin p) -> p <> 0 ->
  Indicator.capacityIndicator node
  = [ Indicator.FillRect "#ffffff" (Fin (x - r * 1.5 / 2)) (Fin (y + r + 5))
        (Fin (r * 1.5)) (Fin 4);
      Indicator.FillRect
        (if Rlt_dec 80 (p / c * 100) then "#EF4444"
         else if Rlt_dec 60 (p / c * 100) then "#F59E0B"
         else "#10B981")
        (Fin (x - r * 1.5 / 2)) (Fin (y + r + 5))
        (Fin (r * 1.5 * (p / c * 100) / 100)) (Fin 4) ].
Proof.
  intros Ec Hc Ep Hp. unfold Indicator.capacityIndicator.
  rewrite Ec, Ep, node_x, node_y, node_radius.
  cbn [Indicator.truthy Indicator.numberOf].
  pose proof Hc as Hc'. pose proof Hp as Hp'.
  apply Rzerob_false in Hc', Hp'. rewrite Hc', Hp'.
  cbn [negb nmul nadd].
  rewrite !ndiv_Fin by lra. cbn [nmul nsub nlt].
  rewrite !ndiv_Fin by lra.
  unfold Rltb.
  destruct (Rlt_dec 80 (p / c * 100)); [reflexivity|].
  destruct (Rlt_dec 60 (p / c * 100)); reflexivity.
Qed.

End CapacityIndicator.


(* ================================================================== *)
(** * The network metrics *)

Section NetworkMetrics.

Local Open Scope R_scope.

Lemma fold_sum_Forall2 {A B : Type} (f : A -> num) (g : B -> num)
    (l : list A) (l' : list B) :
  Forall2 (fun a b => g b = f a) l l' ->
  forall acc,
    fold_left (fun sum b => (sum + g b)%js) l' acc
    = fold_left (fun sum a => (sum + f a)%js) l acc.
Proof.
  induction 1 as [|a b l l' H _ IH]; intros acc; [reflexivity|].
  cbn [fold_left]. rewrite H. apply IH.
Qed.

(** A sum of numbers of [[lo, hi]]. *)
Lemma fold_sum_range {A : Type} (f : A -> num) (lo hi : R) (l : list A) :
  Forall (fun a => inRange lo hi (f a)) l ->
  forall acc : R,
  exists s,
    fold_left (fun sum a => (sum + f a)%js) l (Fin acc) = Fin s /\
    acc + INR (List.length l) * lo <= s <= acc + INR (List.length l) * hi.
Proof.
  induction 1 as [|a l (v & E & Hv) _ IH]; intros acc.
  - exists acc. split; [reflexivity|]. simpl. lra.
  - cbn [fold_left]. rewrite E. cbn [nadd].
    destruct (IH (acc + v)) as (s & Es & Hs).
    exists s. split; [exact Es|].
    change (List.length (a :: l)) with (S (List.length l)).
    rewrite S_INR. lra.
Qed.

Lemma average_range (s lo hi : R) (n : nat) :
  (0 < n)%nat -> INR n * lo <= s <= INR n * hi -> lo <= s / INR n <= hi.
Proof.
  intros Hn Hs.
  assert (Hp : 0 < INR n) by (apply lt_0_INR; exact Hn).
  assert (Hi : 0 < / INR n) by now apply Rinv_0_lt_compat.
  assert (E : INR n * / INR n = 1) by (field; lra).
  unfold Rdiv. split.
  - replace lo with (INR n * lo * / INR n) by (field; lra).
    apply Rmult_le_compat_r; lra.
  - replace hi with (INR n * hi * / INR n) by (field; lra).
    apply Rmult_le_compat_r; lra.
Qed.

End NetworkMetrics.


